(** * FocusBar firmware: timer state machine, button classifier, LED directives

    A shallow embedding of [firmware/main/timer.c], [firmware/main/button.c]
    and [firmware/main/led.c] (the directives, the animation and the frame
    of [led_task]), with [apply_color_intensity] of
    [firmware/main/led_color_lib.c], the tone state of
    [firmware/main/piezo.c] and the button callback of
    [firmware/main/main.c].

    - 32-bit unsigned C integers ([uint32_t], [TickType_t]) are [Z] with the
      wrap-around modulo 2^32 written out ([u32]).
    - C [float] is IEEE-754 binary32, modelled with the executable
      specification of the standard library ([SpecFloat], precision 24,
      [emax] 128, round to nearest even); every operation rounds on its
      own, as the single-precision software arithmetic of the target does.
    - The C statics of each translation unit become one record that every
      operation takes and returns.
    - The two FreeRTOS tasks of [button.c] share [button_states] without
      a lock: [Button.exec] runs them access by access under any
      schedule, [Button.run] iteration by iteration, and the two agree on
      the schedules in which no iteration is interrupted.
    - [xTaskGetTickCount ()] is an explicit argument [now];
      [configTICK_RATE_HZ] (an SDK configuration constant that is not part
      of the repository) is an explicit argument [hz]. *)

From Stdlib Require Import ZArith List Bool Lia.
From Stdlib Require Import Floats.SpecFloat.
From stdpp Require Import base list.
Import ListNotations.
Local Open Scope Z_scope.

(** ** Machine integers *)

Module U32.

Definition modulus : Z := 2 ^ 32.

(** Reduction of a mathematical integer to its [uint32_t] value. *)
Definition u32 (z : Z) : Z := z mod modulus.

Definition add (a b : Z) : Z := u32 (a + b).
Definition sub (a b : Z) : Z := u32 (a - b).
Definition mul (a b : Z) : Z := u32 (a * b).

(** Unsigned division; the divisors of the firmware are non-zero
    constants. *)
Definition div (a b : Z) : Z := a / b.

(** [a << n] of a [uint32_t]: the bits shifted beyond bit 31 are lost. *)
Definition shl (a n : Z) : Z := u32 (Z.shiftl a n).

End U32.

(** ** FreeRTOS tick arithmetic *)

Module Tick.

(** [pdMS_TO_TICKS] of FreeRTOS' [projdefs.h] (a kernel macro, not
    repository code), for a [TickType_t] of 32 bits:
    [(TickType_t)(((TickType_t)(ms) * (TickType_t)configTICK_RATE_HZ) / (TickType_t)1000U)]. *)
Definition pdMS_TO_TICKS (hz ms : Z) : Z :=
  U32.div (U32.mul (U32.u32 ms) (U32.u32 hz)) 1000.

End Tick.

(** ** C [float] *)

Module F32.

Definition prec : Z := 24.
Definition emax : Z := 128.

Definition float : Type := spec_float.

Definition add : float -> float -> float := SFadd prec emax.
Definition sub : float -> float -> float := SFsub prec emax.
Definition mul : float -> float -> float := SFmul prec emax.
Definition div : float -> float -> float := SFdiv prec emax.

(** [a < b] and [a > b] of C: false as soon as one side is a NaN. *)
Definition ltb (a b : float) : bool := SFltb a b.
Definition gtb (a b : float) : bool := SFltb b a.

(** Conversion [(float) n] of an unsigned integer. *)
Definition of_Z (n : Z) : float := binary_normalize prec emax n 0 false.

(** The literals [0.0f], [1.0f] and [0.02f]. *)
Definition zero : float := S754_zero false.
Definition one : float := Eval vm_compute in of_Z 1.
Definition c0_02 : float := Eval vm_compute in div (of_Z 2) (of_Z 100).

(** The clamp idiom used throughout the firmware:
    [if (x < 0.0f) x = 0.0f; if (x > 1.0f) x = 1.0f;]. *)
Definition clamp01 (x : float) : float :=
  let x1 := if ltb x zero then zero else x in
  if gtb x1 one then one else x1.

(** The literal [0.5f]. *)
Definition half : float := Eval vm_compute in div (of_Z 1) (of_Z 2).

(** Conversion [(uint32_t) x] of a float: the value is truncated toward
    zero; the conversion is undefined in C ([None]) for a NaN, an infinity
    and a value whose integral part is not a [uint32_t]. *)
Definition to_u32 (x : float) : option Z :=
  match x with
  | S754_zero _ => Some 0
  | S754_finite s m e =>
      let t := if 0 <=? e then Zpos m * 2 ^ e else Zpos m / 2 ^ (- e) in
      if s then (if t =? 0 then Some 0 else None)
      else if t <? U32.modulus then Some t else None
  | _ => None
  end.

(** Conversion [(uint8_t) x]: as [to_u32], with the range of a byte. *)
Definition to_u8 (x : float) : option Z :=
  match to_u32 x with
  | Some t => if t <? 256 then Some t else None
  | None => None
  end.

End F32.

(** ** The arithmetic that binary32 rounding computes

    Values are counted in units of [2 ^ -149], the smallest positive
    binary32 number, so that every finite float is an integer. *)

Module Rounding.

(** Nearest integer to [N / D], ties to even. *)
Definition rne (N D : Z) : Z :=
  let q := N / D in
  let r := N mod D in
  if 2 * r <? D then q
  else if D <? 2 * r then q + 1
  else if Z.even q then q else q + 1.

(** Exponent, above the least one, of the binade of [v]: floats in it are
    the multiples of [2 ^ expo v]. *)
Definition expo (v : Z) : Z := Z.max 0 (Z.log2 v - 23).

(** Round to nearest even, to 24 significant bits, of the rational
    [N / D]. *)
Definition round32 (N D : Z) : Z :=
  let j := expo (N / D) in
  rne N (D * 2 ^ j) * 2 ^ j.

(** The values of the format: at most 24 significant bits. *)
Definition representable (v : Z) : Prop :=
  0 <= v /\ v mod 2 ^ expo v = 0.

(** A shift record [(m, round bit, sticky bit)] is a faithful truncation
    of [N / D]: [m] is the integer part, the round bit tells whether the
    fraction is at least one half, the sticky bit whether it is neither 0
    nor one half. *)
Definition rec_ok (N D : Z) (mrs : shr_record) : Prop :=
  0 < D /\ 0 <= shr_m mrs /\
  0 <= N - shr_m mrs * D < D /\
  shr_r mrs = (D <=? 2 * (N - shr_m mrs * D)) /\
  shr_s mrs = negb (N - shr_m mrs * D =? 0)
              && negb (2 * (N - shr_m mrs * D) =? D).

(** Positive zero and the positive finite floats in canonical form. *)
Definition wellformed (x : spec_float) : Prop :=
  match x with
  | S754_zero false => True
  | S754_finite false m e => bounded 24 128 m e = true
  | _ => False
  end.

(** The value of a float, in units of [2 ^ -149]. *)
Definition units (x : spec_float) : Z :=
  match x with
  | S754_finite _ m e => Zpos m * 2 ^ (e + 149)
  | _ => 0
  end.

(** The float with mantissa [m] (at most [2 ^ 24]) and exponent [e]. *)
Definition pack (m e : Z) : spec_float :=
  if m =? 0 then S754_zero false
  else if m =? 2 ^ 24 then S754_finite false 8388608 (e + 1)
  else S754_finite false (Z.to_pos m) e.

End Rounding.

(** ** timer.h / timer.c *)

Module Timer.

(** Preset durations of [timer.h], in minutes, with the values that the
    header gives them. *)
Definition TIMER_DURATION_5MIN : Z := 1.
Definition TIMER_DURATION_15MIN : Z := 15.
Definition TIMER_DURATION_30MIN : Z := 30.
Definition TIMER_DURATION_45MIN : Z := 45.
Definition TIMER_DURATION_60MIN : Z := 60.

Definition NUM_BUTTONS : Z := 5.

Definition GRACE_PERIOD_SECONDS : Z := 60.
Definition ALERT_DURATION_SECONDS : Z := 60.

Inductive timer_state_t : Type :=
| TIMER_STATE_IDLE
| TIMER_STATE_RUNNING
| TIMER_STATE_COMPLETED
| TIMER_STATE_GRACE_PERIOD
| TIMER_STATE_ALERTING.

(** [timer_durations[NUM_BUTTONS]]: the table indexed by button. *)
Definition timer_durations : list Z :=
  [ TIMER_DURATION_5MIN; TIMER_DURATION_15MIN; TIMER_DURATION_30MIN;
    TIMER_DURATION_45MIN; TIMER_DURATION_60MIN ].

(** The presets as the sources document them: "Duration in minutes (5,
    15, 30, 45, or 60)" at [timer_start] in [timer.h], "Button 0: 5
    minutes" at the table in [timer.c], and so the macro names. *)
Definition documented_durations : list Z := [5; 15; 30; 45; 60].

(** The file-level statics of [timer.c]. *)
Record timer : Type := mkTimer {
  timer_state : timer_state_t;
  timer_duration_seconds : Z;
  timer_start_time_ticks : Z;
  grace_period_start_ticks : Z;
  alert_start_ticks : Z;
  current_progress : F32.float;
  target_progress : F32.float
}.

Definition TRANSITION_SPEED : F32.float := F32.c0_02.

Definition timer_init : timer :=
  mkTimer TIMER_STATE_IDLE 0 0 0 0 F32.zero F32.zero.

(** The validation loop of [timer_start]:
    [for (i = 0; i < NUM_BUTTONS; i++) if (timer_durations[i] == d) { valid = true; break; }]. *)
Fixpoint valid_duration (table : list Z) (duration_minutes : Z) : bool :=
  match table with
  | [] => false
  | entry :: rest =>
      if entry =? duration_minutes then true
      else valid_duration rest duration_minutes
  end.

Definition timer_stop (t : timer) : timer :=
  match timer_state t with
  | TIMER_STATE_IDLE => t
  | _ => mkTimer TIMER_STATE_IDLE 0 0 0 0 F32.zero F32.zero
  end.

Definition timer_reset (t : timer) : timer := timer_stop t.

Definition timer_start (now : Z) (duration_minutes : Z) (t : timer)
  : bool * timer :=
  if valid_duration timer_durations duration_minutes then
    let t1 := timer_stop t in
    (true,
     mkTimer TIMER_STATE_RUNNING
             (U32.mul duration_minutes 60)
             now
             (grace_period_start_ticks t1)
             (alert_start_ticks t1)
             F32.zero
             F32.zero)
  else (false, t).

Definition timer_get_state (t : timer) : timer_state_t := timer_state t.

Definition timer_get_progress (t : timer) : F32.float := current_progress t.

(** [(ticks * 1000) / configTICK_RATE_HZ / 1000], all in [uint32_t]. *)
Definition ticks_to_seconds (hz ticks : Z) : Z :=
  U32.div (U32.div (U32.mul ticks 1000) hz) 1000.

Definition timer_get_remaining_seconds (hz now : Z) (t : timer) : Z :=
  match timer_state t with
  | TIMER_STATE_RUNNING =>
      let elapsed_ticks := U32.sub now (timer_start_time_ticks t) in
      let elapsed_seconds := ticks_to_seconds hz elapsed_ticks in
      if timer_duration_seconds t <=? elapsed_seconds then 0
      else U32.sub (timer_duration_seconds t) elapsed_seconds
  | _ => 0
  end.

(** [total_duration_ticks] of the Running case of [timer_update]. *)
Definition total_duration_ticks (hz : Z) (t : timer) : Z :=
  Tick.pdMS_TO_TICKS hz (U32.mul (timer_duration_seconds t) 1000).

(** The Running case of [timer_update], first half: the completion test
    and the new target. *)
Definition running_target (hz now : Z) (t : timer) : timer :=
  let elapsed_ticks := U32.sub now (timer_start_time_ticks t) in
  let total := total_duration_ticks hz t in
  if total <=? elapsed_ticks then
    mkTimer TIMER_STATE_COMPLETED
            (timer_duration_seconds t)
            (timer_start_time_ticks t)
            now
            (alert_start_ticks t)
            (current_progress t)
            F32.one
  else
    let elapsed_ticks := if elapsed_ticks =? 0 then 1 else elapsed_ticks in
    mkTimer (timer_state t)
            (timer_duration_seconds t)
            (timer_start_time_ticks t)
            (grace_period_start_ticks t)
            (alert_start_ticks t)
            (current_progress t)
            (F32.div (F32.of_Z elapsed_ticks) (F32.of_Z total)).

(** Second half: [current_progress += (target - current) * TRANSITION_SPEED]
    followed by the clamp. *)
Definition smooth_progress (t : timer) : timer :=
  let progress_diff := F32.sub (target_progress t) (current_progress t) in
  let cp := F32.add (current_progress t)
                    (F32.mul progress_diff TRANSITION_SPEED) in
  mkTimer (timer_state t)
          (timer_duration_seconds t)
          (timer_start_time_ticks t)
          (grace_period_start_ticks t)
          (alert_start_ticks t)
          (F32.clamp01 cp)
          (target_progress t).

Definition timer_update (hz now : Z) (t : timer) : timer :=
  match timer_state t with
  | TIMER_STATE_IDLE => t
  | TIMER_STATE_RUNNING => smooth_progress (running_target hz now t)
  | TIMER_STATE_COMPLETED =>
      let grace_elapsed_ticks := U32.sub now (grace_period_start_ticks t) in
      let grace_elapsed_seconds := ticks_to_seconds hz grace_elapsed_ticks in
      if GRACE_PERIOD_SECONDS <=? grace_elapsed_seconds then
        mkTimer TIMER_STATE_ALERTING
                (timer_duration_seconds t)
                (timer_start_time_ticks t)
                (grace_period_start_ticks t)
                now
                F32.one
                F32.one
      else
        mkTimer (timer_state t)
                (timer_duration_seconds t)
                (timer_start_time_ticks t)
                (grace_period_start_ticks t)
                (alert_start_ticks t)
                F32.one
                F32.one
  | TIMER_STATE_GRACE_PERIOD => t
  | TIMER_STATE_ALERTING =>
      let alert_elapsed_ticks := U32.sub now (alert_start_ticks t) in
      let alert_elapsed_seconds := ticks_to_seconds hz alert_elapsed_ticks in
      if ALERT_DURATION_SECONDS <=? alert_elapsed_seconds then
        mkTimer TIMER_STATE_IDLE
                (timer_duration_seconds t)
                (timer_start_time_ticks t)
                (grace_period_start_ticks t)
                (alert_start_ticks t)
                F32.zero
                F32.zero
      else t
  end.

(** [timer_handle_button (button_id, is_long_press)]; [button_id] is a
    [uint8_t], [timer_durations[button_id]] is the array read. *)
Definition timer_handle_button (now : Z) (button_id : Z)
           (is_long_press : bool) (t : timer) : timer :=
  if NUM_BUTTONS <=? button_id then t
  else
    match timer_state t with
    | TIMER_STATE_IDLE =>
        if negb is_long_press then
          let duration := nth (Z.to_nat button_id) timer_durations 0 in
          snd (timer_start now duration t)
        else t
    | TIMER_STATE_RUNNING =>
        if negb is_long_press then timer_stop t else t
    | TIMER_STATE_COMPLETED
    | TIMER_STATE_GRACE_PERIOD => timer_reset t
    | TIMER_STATE_ALERTING => timer_reset t
    end.

(** The calls a client can make, for reasoning about call sequences. *)
Inductive call : Type :=
| CallStart (now duration_minutes : Z)
| CallStop
| CallReset
| CallUpdate (now : Z)
| CallButton (now button_id : Z) (is_long_press : bool).

Definition exec (hz : Z) (c : call) (t : timer) : timer :=
  match c with
  | CallStart now d => snd (timer_start now d t)
  | CallStop => timer_stop t
  | CallReset => timer_reset t
  | CallUpdate now => timer_update hz now t
  | CallButton now b l => timer_handle_button now b l t
  end.

Definition run (hz : Z) (calls : list call) (t : timer) : timer :=
  fold_left (fun acc c => exec hz c acc) calls t.

(** The target that a Running tick at [elapsed] ticks computes. *)
Definition target_at (hz : Z) (t : timer) (elapsed : Z) : F32.float :=
  F32.div (F32.of_Z (if elapsed =? 0 then 1 else elapsed))
          (F32.of_Z (total_duration_ticks hz t)).

(** The timer states of one Running episode: the state left by a
    successful [timer_start], then the states left by ticks whose elapsed
    tick counts do not go backwards and stay below the total. The index is
    the elapsed tick count of the latest tick. *)
Inductive episode (hz : Z) : Z -> timer -> Prop :=
| episode_start (now d : Z) (t : timer) :
    valid_duration timer_durations d = true ->
    episode hz 0 (snd (timer_start now d t))
| episode_tick (last now : Z) (t : timer) :
    episode hz last t ->
    last <= U32.sub now (timer_start_time_ticks t) ->
    U32.sub now (timer_start_time_ticks t) < total_duration_ticks hz t ->
    episode hz (U32.sub now (timer_start_time_ticks t)) (timer_update hz now t).

Definition running_inv (hz last : Z) (t : timer) : Prop :=
  timer_state t = TIMER_STATE_RUNNING /\
  Rounding.wellformed (current_progress t) /\
  Rounding.wellformed (target_progress t) /\
  Rounding.units (current_progress t) <= Rounding.units (target_progress t) /\
  Rounding.units (target_progress t) <= Rounding.units F32.one /\
  forall e, last <= e < total_duration_ticks hz t ->
            Rounding.units (target_progress t) <= Rounding.units (target_at hz t e).

End Timer.

(** ** button.h / button.c *)

Module Button.

Definition BUTTON_SW0_GPIO : Z := 10.
Definition BUTTON_SW1_GPIO : Z := 5.
Definition BUTTON_SW2_GPIO : Z := 4.
Definition BUTTON_SW3_GPIO : Z := 14.
Definition BUTTON_SW4_GPIO : Z := 13.

Definition NUM_BUTTONS : nat := 5.

Definition button_gpios : list Z :=
  [ BUTTON_SW0_GPIO; BUTTON_SW1_GPIO; BUTTON_SW2_GPIO;
    BUTTON_SW3_GPIO; BUTTON_SW4_GPIO ].

Definition DEBOUNCE_MS : Z := 50.
Definition LONG_PRESS_MS : Z := 500.

Inductive button_press_type_t : Type :=
| BUTTON_PRESS_SHORT
| BUTTON_PRESS_LONG.

Record button_state_t : Type := mkButtonState {
  gpio : Z;
  pressed : bool;
  press_start_time : Z;
  event_sent : bool
}.

(** What the ISR queues: the pin and its level. *)
Record gpio_event_t : Type := mkGpioEvent {
  gpio_num : Z;
  level : Z
}.

(** One invocation of the registered [event_callback]. *)
Definition event : Type := (nat * button_press_type_t)%type.

(** The statics of [button.c] together with the [last_debounce_time]
    array local to [button_task]. [callback_registered] stands for
    [event_callback != NULL]. *)
Record buttons : Type := mkButtons {
  button_states : list button_state_t;
  last_debounce_time : list Z;
  callback_registered : bool
}.

Definition button_init : buttons :=
  mkButtons (map (fun g => mkButtonState g false 0 false) button_gpios)
            (replicate NUM_BUTTONS 0)
            false.

Definition button_register_callback (st : buttons) : buttons :=
  mkButtons (button_states st) (last_debounce_time st) true.

(** [find_button_index]: first index whose pin matches, [None] for -1. *)
Fixpoint find_from (i : nat) (gpios : list Z) (g : Z) : option nat :=
  match gpios with
  | [] => None
  | x :: rest => if x =? g then Some i else find_from (S i) rest g
  end.

(** The parameter of [find_button_index] is a [uint8_t]. *)
Definition find_button_index (g : Z) : option nat :=
  find_from 0 button_gpios (g mod 256).

(** [(press_duration * 1000) / configTICK_RATE_HZ] in [uint32_t]. *)
Definition press_duration_ms (hz now start : Z) : Z :=
  U32.div (U32.mul (U32.sub now start) 1000) hz.

(** [if (event_callback != NULL) event_callback (i, ty);] *)
Definition emit (st_cb : bool) (i : nat) (ty : button_press_type_t)
  : list event :=
  if st_cb then [(i, ty)] else [].

(** One iteration of the [while (1)] of [button_task]: the queued
    [event] has been received and [xTaskGetTickCount ()] returned [now]. *)
Definition button_task_step (hz : Z) (ev : gpio_event_t) (now : Z)
           (st : buttons) : buttons * list event :=
  match find_button_index (gpio_num ev) with
  | None => (st, [])
  | Some idx =>
      match button_states st !! idx, last_debounce_time st !! idx with
      | Some btn, Some last =>
          if Tick.pdMS_TO_TICKS hz DEBOUNCE_MS <? U32.sub now last then
            let debounce := <[idx := now]> (last_debounce_time st) in
            if level ev =? 1 then
              (mkButtons
                 (<[idx := mkButtonState (gpio btn) true now false]>
                    (button_states st))
                 debounce (callback_registered st),
               [])
            else if pressed btn then
              let ms := press_duration_ms hz now (press_start_time btn) in
              let press_type :=
                if LONG_PRESS_MS <=? ms then BUTTON_PRESS_LONG
                else BUTTON_PRESS_SHORT in
              (mkButtons
                 (<[idx := mkButtonState (gpio btn) false
                                         (press_start_time btn) false]>
                    (button_states st))
                 debounce (callback_registered st),
               if negb (event_sent btn)
               then emit (callback_registered st) idx press_type
               else [])
            else
              (mkButtons (button_states st) debounce
                         (callback_registered st),
               [])
          else (st, [])
      | _, _ => (st, [])
      end
  end.

(** Body of the [for] loop of [button_long_press_check_task] for
    button [i]. *)
Definition check_button (hz now : Z) (cb : bool) (i : nat)
           (btn : button_state_t) : button_state_t * list event :=
  if pressed btn && negb (event_sent btn) then
    let ms := press_duration_ms hz now (press_start_time btn) in
    if LONG_PRESS_MS <=? ms then
      (mkButtonState (gpio btn) (pressed btn) (press_start_time btn) true,
       emit cb i BUTTON_PRESS_LONG)
    else (btn, [])
  else (btn, []).

(** The loop over [button_states[i]], [i] counting up from [i0]. *)
Fixpoint check_from (hz now : Z) (cb : bool) (i0 : nat)
         (btns : list button_state_t)
  : list button_state_t * list event :=
  match btns with
  | [] => ([], [])
  | btn :: rest =>
      let r1 := check_button hz now cb i0 btn in
      let r2 := check_from hz now cb (S i0) rest in
      (r1.1 :: r2.1, r1.2 ++ r2.2)
  end.

(** One wake-up of [button_long_press_check_task] at tick [now]. *)
Definition button_long_press_check (hz now : Z) (st : buttons)
  : buttons * list event :=
  let r := check_from hz now (callback_registered st) 0 (button_states st) in
  (mkButtons r.1 (last_debounce_time st) (callback_registered st), r.2).

(** One iteration of either loop, taken as a whole. [step] and [run]
    below describe the schedules in which no iteration is interrupted by
    the other task; [exec] further down drops that proviso. *)
Inductive action : Type :=
| Edge (ev : gpio_event_t) (now : Z)
| Sweep (now : Z).

Definition step (hz : Z) (a : action) (st : buttons)
  : buttons * list event :=
  match a with
  | Edge ev now => button_task_step hz ev now st
  | Sweep now => button_long_press_check hz now st
  end.

Fixpoint run (hz : Z) (acts : list action) (st : buttons)
  : buttons * list event :=
  match acts with
  | [] => (st, [])
  | a :: rest =>
      let r1 := step hz a st in
      let r2 := run hz rest r1.1 in
      (r2.1, r1.2 ++ r2.2)
  end.

(** The events of a trace that concern button [i]. *)
Definition events_of (i : nat) (evs : list event) : list event :=
  List.filter (fun e => Nat.eqb e.1 i) evs.

(** An action is an edge that [button_task] attributes to button [i]. *)
Definition edge_on (i : nat) (a : action) : bool :=
  match a with
  | Edge ev _ =>
      match find_button_index (gpio_num ev) with
      | Some j => Nat.eqb j i
      | None => false
      end
  | Sweep _ => false
  end.

(** A step that is not an edge of button [i], seen from button [i]. *)
Definition local_step (hz : Z) (cb : bool) (i : nat) (a : action)
           (btn : button_state_t) : button_state_t * list event :=
  match a with
  | Sweep now => check_button hz now cb i btn
  | Edge _ _ => (btn, [])
  end.

(** A sweep at which the button pressed at tick [start] is found held
    for at least [LONG_PRESS_MS]. *)
Definition long_press_seen (hz start : Z) (a : action) : bool :=
  match a with
  | Sweep now => LONG_PRESS_MS <=? press_duration_ms hz now start
  | Edge _ _ => false
  end.

(** Button [i] is registered as held since tick [start], with the
    [event_sent] flag equal to [sent]. *)
Definition held (i : nat) (start : Z) (sent : bool) (st : buttons) : Prop :=
  exists btn,
    button_states st !! i = Some btn /\
    pressed btn = true /\
    press_start_time btn = start /\
    event_sent btn = sent.

(** The layout that [button_init] gives the two arrays: [NUM_BUTTONS]
    entries each, entry [i] bound to pin [button_gpios[i]]. *)
Definition layout (st : buttons) : Prop :=
  length (button_states st) = NUM_BUTTONS /\
  length (last_debounce_time st) = NUM_BUTTONS /\
  map gpio (button_states st) = button_gpios.

(** No button is registered as pressed. *)
Definition all_released (st : buttons) : Prop :=
  Forall (fun btn => pressed btn = false) (button_states st).

(** A sweep at which a button pressed at tick [start] has been held for
    less than [LONG_PRESS_MS]. *)
Definition short_sweep (hz start : Z) (a : action) : bool :=
  match a with
  | Sweep now => negb (LONG_PRESS_MS <=? press_duration_ms hz now start)
  | Edge _ _ => false
  end.

(** No button other than [i] is registered as pressed. *)
Definition only_pressed (i : nat) (st : buttons) : Prop :=
  forall (j : nat) (btn : button_state_t),
    j <> i -> button_states st !! j = Some btn -> pressed btn = false.

(** ** The two tasks under preemption

    [button_task] and [button_long_press_check_task] are created with the
    same priority and share [button_states] with no lock, so either can
    be switched out between any two of its accesses to the array, and
    between an access and the call of the callback. The program counters
    name those points; the values a task holds in its locals ride along
    with them. *)

(** A store to one field of a [button_state_t]. *)
Definition set_pressed (v : bool) (btn : button_state_t) : button_state_t :=
  mkButtonState (gpio btn) v (press_start_time btn) (event_sent btn).

Definition set_press_start_time (v : Z) (btn : button_state_t)
  : button_state_t :=
  mkButtonState (gpio btn) (pressed btn) v (event_sent btn).

Definition set_event_sent (v : bool) (btn : button_state_t)
  : button_state_t :=
  mkButtonState (gpio btn) (pressed btn) (press_start_time btn) v.

(** [button_states[i].field = v;] *)
Definition store (i : nat) (f : button_state_t -> button_state_t)
           (st : buttons) : buttons :=
  match button_states st !! i with
  | Some btn =>
      mkButtons (<[i := f btn]> (button_states st))
                (last_debounce_time st) (callback_registered st)
  | None => st
  end.

(** Where [button_task] stands. Each constructor but the first names
    the access it is about to make. *)
Inductive task_pc : Type :=
| TaskWaiting
| TaskSetPressed (idx : nat) (now : Z)
| TaskSetStart (idx : nat) (now : Z)
| TaskClearSent (idx : nat)
| TaskTestPressed (idx : nat) (now : Z)
| TaskReadStart (idx : nat) (now : Z)
| TaskTestSent (idx : nat) (press_type : button_press_type_t)
| TaskCallback (idx : nat) (press_type : button_press_type_t)
| TaskClearPressed (idx : nat).

(** Where [button_long_press_check_task] stands, with the tick count it
    read on waking and the loop index. *)
Inductive sweep_pc : Type :=
| SweepSleeping
| SweepTestPressed (now : Z) (i : nat)
| SweepTestSent (now : Z) (i : nat)
| SweepReadStart (now : Z) (i : nat)
| SweepCallback (now : Z) (i : nat)
| SweepSetSent (now : Z) (i : nat).

Record system : Type := mkSystem {
  shared : buttons;
  task : task_pc;
  sweep : sweep_pc
}.

(** Neither task is inside an iteration. *)
Definition resting (st : buttons) : system :=
  mkSystem st TaskWaiting SweepSleeping.

(** [xQueueReceive] returns [ev] and [xTaskGetTickCount ()] returns
    [now]: the index look-up, the debounce test and the write of the
    stamp touch nothing but locals of [button_task]. *)
Definition receive (hz : Z) (ev : gpio_event_t) (now : Z) (st : buttons)
  : buttons * task_pc :=
  match find_button_index (gpio_num ev) with
  | None => (st, TaskWaiting)
  | Some idx =>
      match button_states st !! idx, last_debounce_time st !! idx with
      | Some _, Some last =>
          if Tick.pdMS_TO_TICKS hz DEBOUNCE_MS <? U32.sub now last then
            (mkButtons (button_states st)
                       (<[idx := now]> (last_debounce_time st))
                       (callback_registered st),
             if level ev =? 1 then TaskSetPressed idx now
             else TaskTestPressed idx now)
          else (st, TaskWaiting)
      | _, _ => (st, TaskWaiting)
      end
  end.

(** [button_task] runs up to its next access. *)
Definition task_step (hz : Z) (pc : task_pc) (st : buttons)
  : buttons * task_pc * list event :=
  match pc with
  | TaskWaiting => (st, TaskWaiting, [])
  | TaskSetPressed idx now =>
      (store idx (set_pressed true) st, TaskSetStart idx now, [])
  | TaskSetStart idx now =>
      (store idx (set_press_start_time now) st, TaskClearSent idx, [])
  | TaskClearSent idx =>
      (store idx (set_event_sent false) st, TaskWaiting, [])
  | TaskTestPressed idx now =>
      match button_states st !! idx with
      | Some btn =>
          (st, if pressed btn then TaskReadStart idx now else TaskWaiting, [])
      | None => (st, TaskWaiting, [])
      end
  | TaskReadStart idx now =>
      match button_states st !! idx with
      | Some btn =>
          let ms := press_duration_ms hz now (press_start_time btn) in
          let press_type :=
            if LONG_PRESS_MS <=? ms then BUTTON_PRESS_LONG
            else BUTTON_PRESS_SHORT in
          (st, TaskTestSent idx press_type, [])
      | None => (st, TaskWaiting, [])
      end
  | TaskTestSent idx press_type =>
      match button_states st !! idx with
      | Some btn =>
          (st,
           if event_sent btn then TaskClearPressed idx
           else TaskCallback idx press_type,
           [])
      | None => (st, TaskWaiting, [])
      end
  | TaskCallback idx press_type =>
      (st, TaskClearPressed idx, emit (callback_registered st) idx press_type)
  | TaskClearPressed idx =>
      (store idx (set_pressed false) st, TaskClearSent idx, [])
  end.

(** The loop test [i < NUM_BUTTONS] of the sweep: on to button [i], or
    back to [vTaskDelay]. *)
Definition sweep_at (now : Z) (i : nat) : sweep_pc :=
  if (i <? NUM_BUTTONS)%nat then SweepTestPressed now i
  else SweepSleeping.

(** [i++] and the loop test. *)
Definition sweep_next (now : Z) (i : nat) : sweep_pc :=
  sweep_at now (S i).

(** [button_long_press_check_task] runs up to its next access. *)
Definition sweep_step (hz : Z) (pc : sweep_pc) (st : buttons)
  : buttons * sweep_pc * list event :=
  match pc with
  | SweepSleeping => (st, SweepSleeping, [])
  | SweepTestPressed now i =>
      match button_states st !! i with
      | Some btn =>
          (st, if pressed btn then SweepTestSent now i else sweep_next now i,
           [])
      | None => (st, sweep_next now i, [])
      end
  | SweepTestSent now i =>
      match button_states st !! i with
      | Some btn =>
          (st,
           if event_sent btn then sweep_next now i else SweepReadStart now i,
           [])
      | None => (st, sweep_next now i, [])
      end
  | SweepReadStart now i =>
      match button_states st !! i with
      | Some btn =>
          let ms := press_duration_ms hz now (press_start_time btn) in
          (st,
           if LONG_PRESS_MS <=? ms then SweepCallback now i
           else sweep_next now i,
           [])
      | None => (st, sweep_next now i, [])
      end
  | SweepCallback now i =>
      (st, SweepSetSent now i,
       emit (callback_registered st) i BUTTON_PRESS_LONG)
  | SweepSetSent now i =>
      (store i (set_event_sent true) st, sweep_next now i, [])
  end.

(** What the scheduler and the environment can do next: hand
    [button_task] a queued edge, let it run to its next access, end the
    [vTaskDelay] of the sweep, or let the sweep run to its next access. *)
Inductive move : Type :=
| Receive (ev : gpio_event_t) (now : Z)
| TaskRuns
| Wake (now : Z)
| SweepRuns.

(** A task that is blocked does nothing when it is given the processor;
    an edge is received only by a waiting [button_task], and only a
    sleeping sweep wakes. *)
Definition exec_move (hz : Z) (m : move) (s : system)
  : option (system * list event) :=
  match m with
  | Receive ev now =>
      match task s with
      | TaskWaiting =>
          let r := receive hz ev now (shared s) in
          Some (mkSystem r.1 r.2 (sweep s), [])
      | _ => None
      end
  | TaskRuns =>
      let r := task_step hz (task s) (shared s) in
      Some (mkSystem r.1.1 r.1.2 (sweep s), r.2)
  | Wake now =>
      match sweep s with
      | SweepSleeping =>
          Some (mkSystem (shared s) (task s) (sweep_at now 0), [])
      | _ => None
      end
  | SweepRuns =>
      let r := sweep_step hz (sweep s) (shared s) in
      Some (mkSystem r.1.1 (task s) r.1.2, r.2)
  end.

(** A schedule, with the callback invocations in the order they are
    made; [None] if the schedule asks for a move that is not possible. *)
Fixpoint exec (hz : Z) (ms : list move) (s : system)
  : option (system * list event) :=
  match ms with
  | [] => Some (s, [])
  | m :: rest =>
      match exec_move hz m s with
      | Some (s1, e1) =>
          match exec hz rest s1 with
          | Some (s2, e2) => Some (s2, e1 ++ e2)
          | None => None
          end
      | None => None
      end
  end.

(** The schedule in which the iteration of an action runs to its end
    with the other task kept out: at most 6 accesses follow the receipt
    of an edge, at most 5 per button the waking of the sweep. *)
Definition serial (a : action) : list move :=
  match a with
  | Edge ev now => Receive ev now :: replicate 6 TaskRuns
  | Sweep now => Wake now :: replicate (5 * NUM_BUTTONS) SweepRuns
  end.

Definition schedule_of (acts : list action) : list move :=
  concat (map serial acts).

(** At [hz] ticks per second, [ms] milliseconds or more lie between
    the ticks [start] and [now]. *)
Definition at_least_ms (hz ms start now : Z) : bool :=
  ms * hz <=? U32.sub now start * 1000.

(** The product [press_duration * 1000] that the classifier forms for a
    press begun at tick [start] fits in 32 bits at this action. *)
Definition conversion_fits (start : Z) (a : action) : bool :=
  match a with
  | Sweep now | Edge _ now => U32.sub now start * 1000 <? U32.modulus
  end.

(** A sweep that comes [ms] milliseconds or more after tick [start]. *)
Definition sweep_at_least (hz ms start : Z) (a : action) : bool :=
  match a with
  | Sweep now => at_least_ms hz ms start now
  | Edge _ _ => false
  end.

(** A sweep that comes less than [ms] milliseconds after tick [start]. *)
Definition sweep_before (hz ms start : Z) (a : action) : bool :=
  match a with
  | Sweep now => negb (at_least_ms hz ms start now)
  | Edge _ _ => false
  end.

(** An action that is no edge of button [i], or an edge of [i] that
    comes at most [ms] milliseconds after tick [t1]. *)
Definition other_or_within (hz ms : Z) (i : nat) (t1 : Z) (a : action)
  : bool :=
  negb (edge_on i a) ||
  match a with
  | Edge _ now => negb (ms * hz <? U32.sub now t1 * 1000)
  | Sweep _ => true
  end.

End Button.

(** ** led_color_lib.c *)

Module ColorLib.

(** [apply_color_intensity]: the clamp, the three bytes of the GRB word,
    each scaled in [float] and rounded by adding [0.5f] before the
    conversion to [uint32_t], then packed again. *)
Definition apply_color_intensity (color : Z) (intensity : F32.float)
  : option Z :=
  let intensity := F32.clamp01 intensity in
  let g := Z.land (Z.shiftr color 16) 255 in
  let r := Z.land (Z.shiftr color 8) 255 in
  let b := Z.land color 255 in
  let r_scaled := F32.mul (F32.of_Z r) intensity in
  let g_scaled := F32.mul (F32.of_Z g) intensity in
  let b_scaled := F32.mul (F32.of_Z b) intensity in
  match F32.to_u32 (F32.add g_scaled F32.half),
        F32.to_u32 (F32.add r_scaled F32.half),
        F32.to_u32 (F32.add b_scaled F32.half) with
  | Some g', Some r', Some b' =>
      Some (Z.lor (Z.lor (U32.shl g' 16) (U32.shl r' 8)) b')
  | _, _, _ => None
  end.

End ColorLib.

(** ** led.h / led.c (the version with solid mode and windback) *)

Module Led.

Definition LED_COLOR_OFF : Z := 0x000000.
Definition LED_COLOR_RED : Z := 0x00FF00.
Definition LED_COLOR_GREEN : Z := 0xFF0000.

(** Modelled from the spec: [NUM_LEDS] is declared in
    [ws2812_control.h], which is not among the sources; the strip has
    10 LEDs. *)
Definition NUM_LEDS : nat := 10.

(** The literals [0.05f], [0.01f] and [0.0001f]. *)
Definition INTENSITY_SPEED : F32.float :=
  Eval vm_compute in F32.div (F32.of_Z 5) (F32.of_Z 100).
Definition c0_01 : F32.float :=
  Eval vm_compute in F32.div (F32.of_Z 1) (F32.of_Z 100).
Definition c0_0001 : F32.float :=
  Eval vm_compute in F32.div (F32.of_Z 1) (F32.of_Z 10000).
Definition TRANSITION_SPEED : F32.float := F32.c0_02.

(** The statics of [led.c] that the directives and the animation read
    and write ([led_state], the frame handed to the strip driver, is
    output only and left out). *)
Record led : Type := mkLed {
  led_colors : list Z;
  target_intensity : F32.float;
  current_intensity : F32.float;
  target_progress : F32.float;
  current_progress : F32.float;
  progress_color : Z;
  pulsing_enabled : bool;
  solid_mode : bool;
  pending_solid_mode : bool;
  pending_solid_color : Z;
  pending_start_transition : bool;
  pending_start_color : Z;
  pending_start_progress : F32.float;
  pulsing_color : Z;
  pulse_time_ms : Z
}.

(** How the guard
    [led_mutex != NULL && xSemaphoreTake (led_mutex, ...) == pdTRUE]
    and its [else if (led_mutex == NULL)] turn out. The bodies of the two
    branches are the same text in every directive. *)
Inductive mutex_result : Type :=
| MutexTaken
| MutexNull
| MutexBusy.

Definition guarded (m : mutex_result) (body : led -> led) (s : led) : led :=
  match m with
  | MutexTaken => body s
  | MutexNull => body s
  | MutexBusy => s
  end.

(** The statics as initialised at their declaration and by [led_init]. *)
Definition led_init : led :=
  mkLed (replicate NUM_LEDS LED_COLOR_OFF)
        F32.one F32.one F32.zero F32.zero LED_COLOR_GREEN
        false false false LED_COLOR_OFF false LED_COLOR_OFF F32.zero
        LED_COLOR_OFF 0.

Definition fill (color : Z) (colors : list Z) : list Z :=
  map (fun _ => color) colors.

Definition led_set_color_body (color : Z) (s : led) : led :=
  if negb (solid_mode s) then
    mkLed (led_colors s) (target_intensity s) (current_intensity s)
          F32.zero (current_progress s)
          (if pulsing_enabled s then pulsing_color s else progress_color s)
          false (solid_mode s) true color
          (pending_start_transition s) (pending_start_color s)
          (pending_start_progress s) (pulsing_color s) (pulse_time_ms s)
  else
    mkLed (fill color (led_colors s))
          (target_intensity s) (current_intensity s)
          F32.zero (current_progress s) (progress_color s)
          false true false (pending_solid_color s)
          (pending_start_transition s) (pending_start_color s)
          (pending_start_progress s) (pulsing_color s) (pulse_time_ms s).

Definition led_set_color (m : mutex_result) (color : Z) : led -> led :=
  guarded m (led_set_color_body color).

Definition led_set_intensity (m : mutex_result) (intensity : F32.float)
  : led -> led :=
  guarded m (fun s =>
    mkLed (led_colors s) (F32.clamp01 intensity) (current_intensity s)
          (target_progress s) (current_progress s) (progress_color s)
          (pulsing_enabled s) (solid_mode s) (pending_solid_mode s)
          (pending_solid_color s) (pending_start_transition s)
          (pending_start_color s) (pending_start_progress s)
          (pulsing_color s) (pulse_time_ms s)).

(** Body of [led_set_progress] under the lock; [progress] is already
    clamped. *)
Definition led_set_progress_body (progress : F32.float) (color : Z)
           (s : led) : led :=
  if solid_mode s then
    mkLed (led_colors s) (target_intensity s) (current_intensity s)
          F32.zero F32.one (nth 0 (led_colors s) 0)
          false false false (pending_solid_color s)
          true color progress
          (pulsing_color s) (pulse_time_ms s)
  else if pending_start_transition s then
    mkLed (led_colors s) (target_intensity s) (current_intensity s)
          (target_progress s) (current_progress s) (progress_color s)
          false (solid_mode s) false (pending_solid_color s)
          (pending_start_transition s) (pending_start_color s) progress
          (pulsing_color s) (pulse_time_ms s)
  else
    mkLed (led_colors s) (target_intensity s) (current_intensity s)
          progress (current_progress s) color
          false (solid_mode s) false (pending_solid_color s)
          (pending_start_transition s) (pending_start_color s)
          (pending_start_progress s)
          (pulsing_color s) (pulse_time_ms s).

Definition led_set_progress (m : mutex_result) (progress : F32.float)
           (color : Z) : led -> led :=
  guarded m (led_set_progress_body (F32.clamp01 progress) color).

Definition led_set_pulsing (m : mutex_result) (color : Z) (enabled : bool)
  : led -> led :=
  guarded m (fun s =>
    mkLed (led_colors s) (target_intensity s) (current_intensity s)
          (if enabled then F32.one else target_progress s)
          (if enabled then F32.one else current_progress s)
          (progress_color s)
          enabled false (pending_solid_mode s) (pending_solid_color s)
          (pending_start_transition s) (pending_start_color s)
          (pending_start_progress s) color (pulse_time_ms s)).

Definition led_clear_all (m : mutex_result) : led -> led :=
  guarded m (fun s =>
    mkLed (fill LED_COLOR_OFF (led_colors s))
          (target_intensity s) (current_intensity s)
          F32.zero F32.zero (progress_color s)
          false true (pending_solid_mode s) (pending_solid_color s)
          (pending_start_transition s) (pending_start_color s)
          (pending_start_progress s) (pulsing_color s) (pulse_time_ms s)).

(** The progress-bar branch of the animation step of [led_task]
    ([!is_pulsing && !is_solid]): smoothing, clamp, then the two
    windback commits in source order. *)
Definition animate_progress (s : led) : led :=
  let progress_diff := F32.sub (target_progress s) (current_progress s) in
  let cp := F32.clamp01
              (F32.add (current_progress s)
                       (F32.mul progress_diff TRANSITION_SPEED)) in
  let s1 :=
    if pending_solid_mode s && SFleb cp c0_01 then
      mkLed (fill (pending_solid_color s) (led_colors s))
            (target_intensity s) F32.zero
            (target_progress s) cp (progress_color s)
            (pulsing_enabled s) true false (pending_solid_color s)
            (pending_start_transition s) (pending_start_color s)
            (pending_start_progress s) (pulsing_color s) (pulse_time_ms s)
    else
      mkLed (led_colors s) (target_intensity s) (current_intensity s)
            (target_progress s) cp (progress_color s)
            (pulsing_enabled s) (solid_mode s) (pending_solid_mode s)
            (pending_solid_color s)
            (pending_start_transition s) (pending_start_color s)
            (pending_start_progress s) (pulsing_color s) (pulse_time_ms s)
  in
  if pending_start_transition s1 && SFleb (current_progress s1) c0_01 then
    mkLed (led_colors s1) (target_intensity s1) (current_intensity s1)
          (pending_start_progress s1) F32.zero (pending_start_color s1)
          (pulsing_enabled s1) (solid_mode s1) (pending_solid_mode s1)
          (pending_solid_color s1)
          false (pending_start_color s1)
          (pending_start_progress s1) (pulsing_color s1) (pulse_time_ms s1)
  else s1.

(** The state update that [led_task] performs under the mutex on every
    iteration, before it renders the frame: mode animation, pulse clock,
    intensity smoothing. [is_pulsing] and [is_solid] are read once at the
    top. *)
Definition led_task_step (m : mutex_result) (s : led) : led :=
  match m with
  | MutexTaken =>
      let is_pulsing := pulsing_enabled s in
      let is_solid := solid_mode s in
      let s1 :=
        if negb is_pulsing && negb is_solid then animate_progress s
        else if is_pulsing then
          mkLed (led_colors s) (target_intensity s) (current_intensity s)
                (target_progress s) F32.one (progress_color s)
                (pulsing_enabled s) (solid_mode s) (pending_solid_mode s)
                (pending_solid_color s)
                (pending_start_transition s) (pending_start_color s)
                (pending_start_progress s) (pulsing_color s)
                (pulse_time_ms s)
        else s in
      let pulse := if is_pulsing then U32.add (pulse_time_ms s1) 10 else 0 in
      let intensity_diff :=
        F32.sub (target_intensity s1) (current_intensity s1) in
      let ci :=
        if SFltb c0_0001 (SFabs intensity_diff) then
          F32.add (current_intensity s1)
                  (F32.mul intensity_diff INTENSITY_SPEED)
        else target_intensity s1 in
      mkLed (led_colors s1) (target_intensity s1) ci
            (target_progress s1) (current_progress s1) (progress_color s1)
            (pulsing_enabled s1) (solid_mode s1) (pending_solid_mode s1)
            (pending_solid_color s1)
            (pending_start_transition s1) (pending_start_color s1)
            (pending_start_progress s1) (pulsing_color s1) pulse
  | _ => s
  end.

(** [led_index] is a [uint8_t]; the bounds check comes before the
    mutex. *)
Definition led_set_led_color (m : mutex_result) (led_index : Z) (color : Z)
           (s : led) : led :=
  let led_index := led_index mod 256 in
  if Z.of_nat NUM_LEDS <=? led_index then s
  else
    guarded m (fun s =>
      mkLed (<[Z.to_nat led_index := color]> (led_colors s))
            (target_intensity s) (current_intensity s)
            F32.zero (current_progress s) (progress_color s)
            false true (pending_solid_mode s) (pending_solid_color s)
            (pending_start_transition s) (pending_start_color s)
            (pending_start_progress s) (pulsing_color s) (pulse_time_ms s)) s.

(** [led_get_intensity]: the local [intensity] keeps its initial [0.0f]
    when the mutex is not obtained. *)
Definition led_get_intensity (m : mutex_result) (s : led) : F32.float :=
  match m with
  | MutexTaken => target_intensity s
  | MutexNull => target_intensity s
  | MutexBusy => F32.zero
  end.

(** [extract_rgb_from_grb]: the three bytes, as [(r, g, b)]. *)
Definition extract_rgb_from_grb (grb_color : Z) : Z * Z * Z :=
  (Z.land (Z.shiftr grb_color 8) 255,
   Z.land (Z.shiftr grb_color 16) 255,
   Z.land grb_color 255).

(** The packing [((uint32_t)g << 16) | ((uint32_t)r << 8) | (uint32_t)b]
    of the progress-bar branch of [led_task]. *)
Definition pack_grb (r g b : Z) : Z :=
  Z.lor (Z.lor (U32.shl g 16) (U32.shl r 8)) b.

(** The calls that reach the statics: one iteration of [led_task] and the
    directives, each with the outcome of its mutex guard. *)
Inductive op : Type :=
| Frame (m : mutex_result)
| SetColor (m : mutex_result) (color : Z)
| SetLedColor (m : mutex_result) (led_index : Z) (color : Z)
| SetIntensity (m : mutex_result) (intensity : F32.float)
| SetProgress (m : mutex_result) (progress : F32.float) (color : Z)
| SetPulsing (m : mutex_result) (color : Z) (enabled : bool)
| ClearAll (m : mutex_result).

Definition apply_op (o : op) (s : led) : led :=
  match o with
  | Frame m => led_task_step m s
  | SetColor m color => led_set_color m color s
  | SetLedColor m led_index color => led_set_led_color m led_index color s
  | SetIntensity m intensity => led_set_intensity m intensity s
  | SetProgress m progress color => led_set_progress m progress color s
  | SetPulsing m color enabled => led_set_pulsing m color enabled s
  | ClearAll m => led_clear_all m s
  end.

Definition run_ops (ops : list op) (s : led) : led :=
  fold_left (fun acc o => apply_op o acc) ops s.

(** An iteration of [led_task] that obtained the mutex. *)
Definition is_frame (o : op) : bool :=
  match o with
  | Frame MutexTaken => true
  | _ => false
  end.

(** The operations of a session display: frames and progress updates. *)
Definition is_progress_op (o : op) : bool :=
  match o with
  | Frame _ => true
  | SetProgress _ _ _ => true
  | _ => false
  end.

(** The progress of the latest [led_set_progress] of [ops] that obtained
    the mutex, clamped as the directive clamps it; [p] if there is none. *)
Definition latest_progress (p : F32.float) (ops : list op) : F32.float :=
  fold_left (fun acc o =>
               match o with
               | SetProgress MutexBusy _ _ => acc
               | SetProgress _ progress _ => F32.clamp01 progress
               | _ => acc
               end) ops p.

(** One animation step of a bar that winds back: the target is 0. *)
Definition unwind (c : F32.float) : F32.float :=
  F32.clamp01
    (F32.add c (F32.mul (F32.sub F32.zero c) TRANSITION_SPEED)).

(** The level of a bar that was full, after [k] steps of winding back. *)
Definition unwound (k : nat) : F32.float := Nat.iter k unwind F32.one.

(** The intensity of the latest [led_set_intensity] of [ops] that
    obtained the mutex, clamped as the directive clamps it; [x] if there
    is none. *)
Definition latest_intensity (x : F32.float) (ops : list op) : F32.float :=
  fold_left (fun acc o =>
               match o with
               | SetIntensity MutexBusy _ => acc
               | SetIntensity _ intensity => F32.clamp01 intensity
               | _ => acc
               end) ops x.

(** A bar that is winding back from solid mode towards the progress
    display requested with colour [color] and progress [progress]: [k]
    animation steps done, [shown] the colour it still shows. *)
Definition winding_back (k : nat) (shown color : Z) (progress : F32.float)
           (s : led) : Prop :=
  solid_mode s = false /\
  pulsing_enabled s = false /\
  pending_solid_mode s = false /\
  pending_start_transition s = true /\
  pending_start_color s = color /\
  pending_start_progress s = progress /\
  target_progress s = F32.zero /\
  current_progress s = unwound k /\
  progress_color s = shown.

(** A pending start whose windback cannot begin: the bar is full and its
    target is full. *)
Definition stalled (shown : Z) (s : led) : Prop :=
  solid_mode s = false /\
  pending_start_transition s = true /\
  target_progress s = F32.one /\
  current_progress s = F32.one /\
  progress_color s = shown /\
  (pulsing_enabled s = true \/ pending_solid_mode s = false).

(** The frame buffer keeps its size and the two exclusive display modes
    are not both on. *)
Definition modes_ok (s : led) : Prop :=
  length (led_colors s) = NUM_LEDS /\
  pulsing_enabled s && solid_mode s = false.

(** *** The frame that [led_task] hands to the strip *)

Section Render.

(** [get_pulsing_color_with_intensity (red, green, blue)] evaluates
    [sinf] of the C library on the phase of [pulse_time_ms]; it is left as
    a parameter, applied to [pulse_time_ms] and the three bytes. *)
Variable get_pulsing_color_with_intensity : Z -> Z -> Z -> Z -> option Z.

(** [led_brightness] of LED [i] in progress-bar mode: full below the
    position [current_progress * NUM_LEDS], fading at it, off above, and
    the first LED at 50% at least as soon as the target is positive. *)
Definition led_brightness (s : led) (i : nat) : F32.float :=
  let num_leds_float :=
    F32.mul (current_progress s) (F32.of_Z (Z.of_nat NUM_LEDS)) in
  let led_position := F32.of_Z (Z.of_nat i + 1) in
  let b :=
    if SFleb led_position num_leds_float then F32.one
    else if SFltb (F32.sub led_position F32.one) num_leds_float then
      F32.clamp01 (F32.sub num_leds_float (F32.sub led_position F32.one))
    else F32.zero in
  if Nat.eqb i 0 && SFltb F32.zero (target_progress s) && SFltb b F32.half
  then F32.half else b.

(** The colour of LED [i] in progress-bar mode, before the intensity:
    the bytes of [progress_color] scaled by the brightness and truncated
    to [uint8_t], or off. *)
Definition progress_pixel (s : led) (i : nat) : option Z :=
  let b := led_brightness s i in
  if SFltb F32.zero b then
    let '(r, g, b0) := extract_rgb_from_grb (progress_color s) in
    match F32.to_u8 (F32.mul (F32.of_Z r) b),
          F32.to_u8 (F32.mul (F32.of_Z g) b),
          F32.to_u8 (F32.mul (F32.of_Z b0) b) with
    | Some r', Some g', Some b' => Some (pack_grb r' g' b')
    | _, _, _ => None
    end
  else Some LED_COLOR_OFF.

(** The body of the [for] loop over the LEDs: the colour by mode, then
    the gamma-corrected intensity. [is_pulsing] and [is_solid] are the
    flags read at the top of the iteration; [None] is a conversion that C
    leaves undefined. *)
Definition render_led (is_pulsing is_solid : bool) (s : led) (i : nat)
  : option Z :=
  let color :=
    if is_solid then Some (nth i (led_colors s) 0)
    else if is_pulsing then
      let '(r, g, b) := extract_rgb_from_grb (pulsing_color s) in
      get_pulsing_color_with_intensity (pulse_time_ms s) r g b
    else progress_pixel s i in
  let gamma_corrected_intensity :=
    F32.mul (current_intensity s) (current_intensity s) in
  match color with
  | Some c => ColorLib.apply_color_intensity c gamma_corrected_intensity
  | None => None
  end.

(** The frame [led_state.leds] written by one iteration of [led_task]
    that obtained the mutex: the state update, then the loop over the
    LEDs. *)
Definition led_task_frame (s : led) : list (option Z) :=
  let is_pulsing := pulsing_enabled s in
  let is_solid := solid_mode s in
  let s1 := led_task_step MutexTaken s in
  map (fun i => render_led is_pulsing is_solid s1 i) (seq 0 NUM_LEDS).

End Render.

End Led.

(** ** piezo.c: the tone state *)

Module Piezo.

(** The statics of [piezo.c]. [piezo_task_handle] is [Some d] while a
    [piezo_task] created for a tone of [d] ms is pending. *)
Record piezo : Type := mkPiezo {
  piezo_initialized : bool;
  piezo_playing : bool;
  piezo_task_handle : option Z
}.

(** The statics as initialised at their declaration. *)
Definition piezo_boot : piezo := mkPiezo false false None.

(** [piezo_init]; [timer_ok] and [channel_ok] tell whether
    [ledc_timer_config] and [ledc_channel_config] return [ESP_OK]. *)
Definition piezo_init (timer_ok channel_ok : bool) (p : piezo)
  : Z * piezo :=
  if piezo_initialized p then (0, p)
  else if negb timer_ok then (-1, p)
  else if negb channel_ok then (-1, p)
  else (0, mkPiezo true false (piezo_task_handle p)).

Definition piezo_stop (p : piezo) : Z * piezo :=
  if negb (piezo_initialized p) then (0, p)
  else (0, mkPiezo (piezo_initialized p) false None).

(** [piezo_play_tone]; [freq_ok] tells whether [ledc_set_freq] returns
    [ESP_OK], [task_ok] whether [xTaskCreate] returns [pdPASS] (the handle
    is written only then). *)
Definition piezo_play_tone (freq_ok task_ok : bool)
           (frequency duration_ms : Z) (p : piezo) : Z * piezo :=
  if negb (piezo_initialized p) then (-1, p)
  else
    let p1 := (piezo_stop p).2 in
    if negb freq_ok then (-1, p1)
    else
      let p2 := mkPiezo (piezo_initialized p1) true (piezo_task_handle p1) in
      if 0 <? duration_ms then
        let p3 :=
          match piezo_task_handle p2 with
          | Some _ => mkPiezo (piezo_initialized p2) (piezo_playing p2) None
          | None => p2
          end in
        if task_ok then
          (0, mkPiezo (piezo_initialized p3) (piezo_playing p3)
                      (Some duration_ms))
        else (-1, (piezo_stop p3).2)
      else (0, p2).

Definition piezo_is_playing (p : piezo) : bool := piezo_playing p.

(** The end of a pending [piezo_task]: its delay is over, it silences the
    tone and clears its own handle. Without a pending task nothing
    runs. *)
Definition piezo_task (p : piezo) : piezo :=
  match piezo_task_handle p with
  | Some _ => mkPiezo (piezo_initialized p) false None
  | None => p
  end.

(** What can happen to the statics, for reasoning about sequences. *)
Inductive op : Type :=
| Init (timer_ok channel_ok : bool)
| PlayTone (freq_ok task_ok : bool) (frequency duration_ms : Z)
| Stop
| TaskEnds.

Definition apply_op (o : op) (p : piezo) : piezo :=
  match o with
  | Init timer_ok channel_ok => (piezo_init timer_ok channel_ok p).2
  | PlayTone freq_ok task_ok frequency duration_ms =>
      (piezo_play_tone freq_ok task_ok frequency duration_ms p).2
  | Stop => (piezo_stop p).2
  | TaskEnds => piezo_task p
  end.

Definition run_ops (ops : list op) (p : piezo) : piezo :=
  fold_left (fun acc o => apply_op o acc) ops p.

(** A pending stop task exists only while a tone plays, and a tone plays
    only once the driver is initialised. *)
Definition consistent (p : piezo) : Prop :=
  (is_Some (piezo_task_handle p) -> piezo_playing p = true) /\
  (piezo_playing p = true -> piezo_initialized p = true).

End Piezo.

(** ** main.c: the button callback *)

Module Main.

(** [button_event_handler], registered with [button_register_callback]:
    the classified press goes to [timer_handle_button]. The task
    notification that follows wakes the main loop and touches no timer
    state. [now] is the tick count that [timer_start] reads if the press
    starts a session. *)
Definition button_event_handler (now : Z) (button_id : nat)
           (press_type : Button.button_press_type_t) (t : Timer.timer)
  : Timer.timer :=
  let is_long_press :=
    match press_type with
    | Button.BUTTON_PRESS_LONG => true
    | Button.BUTTON_PRESS_SHORT => false
    end in
  Timer.timer_handle_button now (Z.of_nat button_id) is_long_press t.

(** The callback invocations of one classifier step, in order. *)
Definition deliver (now : Z) (evs : list Button.event) (t : Timer.timer)
  : Timer.timer :=
  fold_left (fun acc e => button_event_handler now e.1 e.2 acc) evs t.

End Main.

(** * Machine-integer facts *)

Section MachineIntegers.

Lemma u32_range (z : Z) : 0 <= U32.u32 z < U32.modulus.
Proof. unfold U32.u32, U32.modulus. apply Z.mod_pos_bound. lia. Qed.

Lemma u32_small (z : Z) : 0 <= z < U32.modulus -> U32.u32 z = z.
Proof. unfold U32.u32. apply Z.mod_small. Qed.

Lemma u32_sub_diag (a : Z) : U32.sub a a = 0.
Proof. unfold U32.sub. rewrite Z.sub_diag. reflexivity. Qed.

Lemma u32_sub_range (a b : Z) : 0 <= U32.sub a b < U32.modulus.
Proof. apply u32_range. Qed.

(** As long as [ticks * 1000] fits in 32 bits, the seconds computed by
    the firmware are the whole seconds contained in [ticks]. *)
Lemma ticks_to_seconds_exact (hz ticks : Z) :
  0 < hz -> 0 <= ticks -> ticks * 1000 < U32.modulus ->
  Timer.ticks_to_seconds hz ticks = ticks / hz.
Proof.
  intros Hhz Hlo Hhi.
  unfold Timer.ticks_to_seconds, U32.div, U32.mul.
  rewrite u32_small by lia.
  rewrite Z.div_div by lia.
  rewrite (Z.mul_comm hz 1000), Z.mul_comm.
  apply Z.div_mul_cancel_l; lia.
Qed.

End MachineIntegers.

(** * Binary32 rounding

    The operations of [SpecFloat] at precision 24 compute the correctly
    rounded result (round to nearest, ties to even) on positive zero and
    the positive canonical floats, which are the only ones that the timer
    produces. *)

Section Binary32Rounding.

Import Rounding.

Ltac bool_lia :=
  repeat match goal with
         | |- context [?a <=? ?b] => destruct (Z.leb_spec a b)
         | |- context [?a <? ?b] => destruct (Z.ltb_spec a b)
         | |- context [?a =? ?b] => destruct (Z.eqb_spec a b)
         end; cbn [negb andb orb]; try reflexivity; try lia.

(** The digit count of the library is the binary logarithm plus one. *)
Lemma digits2_pos_log2 (p : positive) :
  Zpos (digits2_pos p) = Z.log2 (Zpos p) + 1.
Proof.
  induction p as [p IH|p IH|]; cbn [digits2_pos].
  - rewrite Pos2Z.inj_succ, IH.
    change (Zpos p~1) with (2 * Zpos p + 1).
    rewrite Z.log2_succ_double by lia. lia.
  - rewrite Pos2Z.inj_succ, IH.
    change (Zpos p~0) with (2 * Zpos p).
    rewrite Z.log2_double by lia. lia.
  - reflexivity.
Qed.

Lemma digits2_bounds (p : positive) :
  2 ^ (Zpos (digits2_pos p) - 1) <= Zpos p < 2 ^ Zpos (digits2_pos p).
Proof.
  rewrite digits2_pos_log2.
  replace (Z.log2 (Zpos p) + 1 - 1) with (Z.log2 (Zpos p)) by lia.
  replace (Z.log2 (Zpos p) + 1) with (Z.succ (Z.log2 (Zpos p))) by lia.
  apply Z.log2_spec. lia.
Qed.

(** One right shift keeps a faithful truncation faithful, for a
    denominator twice as large. *)
Lemma shr_1_ok (N D : Z) (mrs : shr_record) :
  rec_ok N D mrs -> rec_ok N (2 * D) (shr_1 mrs).
Proof.
  destruct mrs as [m r s]. unfold rec_ok. cbn [shr_m shr_r shr_s].
  intros (HD & Hm & Hrem & Hr & Hs). subst r s.
  destruct m as [|p|p]; [| |lia].
  - cbn [shr_1 shr_m shr_r shr_s]. repeat split; try lia; bool_lia.
  - destruct p as [p|p|]; cbn [shr_1 shr_m shr_r shr_s].
    + change (Zpos p~1) with (2 * Zpos p + 1) in *.
      repeat split; try lia; bool_lia.
    + change (Zpos p~0) with (2 * Zpos p) in *.
      repeat split; try lia; bool_lia.
    + repeat split; try lia; bool_lia.
Qed.

(** And so do [n] of them, for a denominator [2 ^ n] times as large. *)
Lemma iter_pos_shr_1_ok (n : positive) :
  forall N D mrs,
    rec_ok N D mrs -> rec_ok N (D * 2 ^ Zpos n) (SpecFloat.iter_pos shr_1 n mrs).
Proof.
  induction n as [n IH|n IH|]; intros N D mrs Hok; cbn [SpecFloat.iter_pos].
  - apply shr_1_ok in Hok. apply IH in Hok. apply IH in Hok.
    replace (D * 2 ^ Zpos n~1) with (2 * D * 2 ^ Zpos n * 2 ^ Zpos n); [exact Hok|].
    change (Zpos n~1) with (2 * Zpos n + 1).
    rewrite Z.pow_add_r, Z.pow_mul_r by lia.
    change (2 ^ 2) with 4. change (4 ^ Zpos n) with ((2*2) ^ Zpos n).
    rewrite Z.pow_mul_l. ring.
  - apply IH in Hok. apply IH in Hok.
    replace (D * 2 ^ Zpos n~0) with (D * 2 ^ Zpos n * 2 ^ Zpos n); [exact Hok|].
    change (Zpos n~0) with (2 * Zpos n).
    rewrite Z.pow_mul_r by lia.
    change (2 ^ 2) with 4. change (4 ^ Zpos n) with ((2*2) ^ Zpos n).
    rewrite Z.pow_mul_l. ring.
  - apply shr_1_ok in Hok. replace (D * 2 ^ 1) with (2 * D) by lia. exact Hok.
Qed.

(** A faithful record holds the quotient, and leaves the remainder. *)
Lemma rec_ok_div (N D : Z) (mrs : shr_record) :
  rec_ok N D mrs -> shr_m mrs = N / D /\ N - shr_m mrs * D = N mod D.
Proof.
  intros (HD & Hm & Hrem & _).
  assert (Hq : shr_m mrs = N / D).
  { apply (Z.div_unique N D (shr_m mrs) (N - shr_m mrs * D)); lia. }
  split; [exact Hq|].
  rewrite Hq. rewrite Z.mod_eq by lia. ring.
Qed.

(** The library rounds a faithful record to the nearest-even integer. *)
Lemma rne_of_rec (N D : Z) (mrs : shr_record) :
  rec_ok N D mrs ->
  round_nearest_even (shr_m mrs) (loc_of_shr_record mrs) = rne N D.
Proof.
  intros Hok. destruct (rec_ok_div N D mrs Hok) as [Hq Hr].
  destruct Hok as (HD & Hm & Hrem & Hrb & Hsb).
  unfold rne. cbv zeta. rewrite <- Hq, <- Hr.
  destruct mrs as [m r s]. cbn [shr_m shr_r shr_s] in *.
  set (rem := N - m * D) in *.
  subst r s.
  destruct (Z.leb_spec D (2 * rem)); destruct (Z.eqb_spec rem 0);
    destruct (Z.eqb_spec (2 * rem) D); cbn [negb andb loc_of_shr_record round_nearest_even];
    bool_lia.
Qed.

(** Nearest-even rounding depends on the quotient only. *)
Lemma rne_scale (k N D : Z) :
  0 < k -> 0 < D -> rne (k * N) (k * D) = rne N D.
Proof.
  intros Hk HD. unfold rne. cbv zeta.
  rewrite Z.div_mul_cancel_l by lia.
  rewrite Z.mul_mod_distr_l by lia.
  pose proof (Z.mod_pos_bound N D HD) as Hr.
  set (r := N mod D) in *.
  destruct (Z.ltb_spec (2 * r) D); destruct (Z.ltb_spec (2 * (k * r)) (k * D));
    try nia; try reflexivity.
  destruct (Z.ltb_spec D (2 * r)); destruct (Z.ltb_spec (k * D) (2 * (k * r)));
    try nia; reflexivity.
Qed.

Lemma rne_bounds (N D : Z) :
  0 < D -> N / D <= rne N D <= N / D + 1.
Proof.
  intros HD. unfold rne. cbv zeta.
  destruct (_ <? _); [lia|]. destruct (_ <? _); [lia|].
  destruct (Z.even _); lia.
Qed.

(** It keeps integers. *)
Lemma rne_exact (w D : Z) : 0 < D -> rne (w * D) D = w.
Proof.
  intros HD. unfold rne. cbv zeta.
  rewrite Z.div_mul by lia. rewrite Z.mod_mul by lia.
  destruct (Z.ltb_spec (2 * 0) D); [reflexivity|lia].
Qed.

(** It is monotone in the numerator. *)
Lemma rne_mono (N1 N2 D : Z) :
  0 < D -> N1 <= N2 -> rne N1 D <= rne N2 D.
Proof.
  intros HD Hle.
  assert (Hq : N1 / D <= N2 / D) by (apply Z.div_le_mono; lia).
  destruct (Z.eq_dec (N1 / D) (N2 / D)) as [Heq|Hne].
  - assert (Hr : N1 mod D <= N2 mod D).
    { rewrite !Z.mod_eq by lia. rewrite Heq. lia. }
    unfold rne. cbv zeta. rewrite Heq.
    destruct (Z.ltb_spec (2 * (N1 mod D)) D);
      destruct (Z.ltb_spec (2 * (N2 mod D)) D); try lia;
      destruct (Z.ltb_spec D (2 * (N1 mod D)));
      destruct (Z.ltb_spec D (2 * (N2 mod D))); try lia;
      destruct (Z.even (N2 / D)); lia.
  - pose proof (rne_bounds N1 D HD). pose proof (rne_bounds N2 D HD). lia.
Qed.

(** Rounding up happens only from the upper half. *)
Lemma rne_up (N D : Z) :
  0 < D -> rne N D = N / D + 1 -> D <= 2 * (N mod D).
Proof.
  intros HD. unfold rne. cbv zeta.
  destruct (Z.ltb_spec (2 * (N mod D)) D); [lia|]. intros _. lia.
Qed.

Lemma expo_nonneg (v : Z) : 0 <= expo v.
Proof. unfold expo. lia. Qed.

(** The binade exponent is monotone. *)
Lemma expo_mono (v w : Z) : v <= w -> expo v <= expo w.
Proof.
  intros H. unfold expo. pose proof (Z.log2_le_mono v w H). lia.
Qed.

(** A value with exponent [j] lies below [2 ^ (j + 24)]. *)
Lemma expo_upper (v : Z) : v < 2 ^ (expo v + 24).
Proof.
  destruct (Z.le_gt_cases v 0) as [Hle|Hpos].
  - pose proof (Z.pow_pos_nonneg 2 (expo v + 24)).
    pose proof (expo_nonneg v). lia.
  - destruct (Z.log2_spec v Hpos) as [_ Hlt].
    eapply Z.lt_le_trans; [exact Hlt|].
    apply Z.pow_le_mono_r; [lia|]. unfold expo. lia.
Qed.

(** A value with a positive exponent [j] is at least [2 ^ (j + 23)]. *)
Lemma expo_lower (v : Z) : 0 < expo v -> 2 ^ (expo v + 23) <= v.
Proof.
  intros Hj. unfold expo in *.
  assert (Hl : 23 < Z.log2 v) by lia.
  assert (Hpos : 0 < v).
  { destruct (Z.le_gt_cases v 0) as [Hle|]; [|assumption].
    rewrite Z.log2_nonpos in Hl by exact Hle. lia. }
  destruct (Z.log2_spec v Hpos) as [Hlo _].
  replace (Z.max 0 (Z.log2 v - 23) + 23) with (Z.log2 v) by lia.
  exact Hlo.
Qed.

(** Rounding to 24 bits depends on the quotient only. *)
Lemma round32_scale (k N D : Z) :
  0 < k -> 0 < D -> round32 (k * N) (k * D) = round32 N D.
Proof.
  intros Hk HD. unfold round32. cbv zeta.
  rewrite Z.div_mul_cancel_l by lia.
  rewrite <- Z.mul_assoc. rewrite rne_scale; [reflexivity|lia|].
  pose proof (Z.pow_pos_nonneg 2 (expo (N / D))). pose proof (expo_nonneg (N / D)). nia.
Qed.

(** Rounding to 24 bits is monotone. Within one binade it is integer
    rounding; between two binades the power of two that separates them is
    a value of the format. *)
Lemma round32_mono (N1 N2 D : Z) :
  0 < D -> N1 <= N2 -> round32 N1 D <= round32 N2 D.
Proof.
  intros HD Hle. unfold round32. cbv zeta.
  assert (Hv : N1 / D <= N2 / D) by (apply Z.div_le_mono; lia).
  pose proof (expo_mono _ _ Hv) as Hj.
  set (j1 := expo (N1 / D)) in *. set (j2 := expo (N2 / D)) in *.
  assert (Hj1 : 0 <= j1) by apply expo_nonneg.
  assert (Hp1 : 0 < 2 ^ j1) by (apply Z.pow_pos_nonneg; lia).
  assert (Hp2 : 0 < 2 ^ j2) by (apply Z.pow_pos_nonneg; lia).
  destruct (Z.eq_dec j1 j2) as [Heq|Hne].
  - rewrite <- Heq. apply Z.mul_le_mono_nonneg_r; [lia|].
    apply rne_mono; [nia|exact Hle].
  - assert (Hlt : j1 + 1 <= j2) by lia.
    (* left operand: below 2^24 mantissa units *)
    assert (H1 : rne N1 (D * 2 ^ j1) <= 2 ^ 24).
    { pose proof (rne_bounds N1 (D * 2 ^ j1) ltac:(nia)) as [_ Hub].
      assert (Hq : N1 / (D * 2 ^ j1) < 2 ^ 24).
      { rewrite <- Z.div_div by lia.
        apply Z.div_lt_upper_bound; [lia|].
        rewrite <- Z.pow_add_r by lia.
        pose proof (expo_upper (N1 / D)) as Hup. fold j1 in Hup. exact Hup. }
      lia. }
    assert (H2 : 2 ^ 23 <= rne N2 (D * 2 ^ j2)).
    { pose proof (rne_bounds N2 (D * 2 ^ j2) ltac:(nia)) as [Hlb _].
      assert (Hq : 2 ^ 23 <= N2 / (D * 2 ^ j2)).
      { rewrite <- Z.div_div by lia.
        apply Z.div_le_lower_bound; [lia|].
        rewrite <- Z.pow_add_r by lia.
        pose proof (expo_lower (N2 / D)) as Hlo. fold j2 in Hlo.
        apply Hlo. lia. }
      lia. }
    assert (Hpow : 2 ^ 24 * 2 ^ j1 <= 2 ^ 23 * 2 ^ j2).
    { rewrite <- !Z.pow_add_r by lia. apply Z.pow_le_mono_r; lia. }
    nia.
Qed.

(** The values of the format are fixed points. *)
Lemma round32_id (v D : Z) :
  representable v -> 0 < D -> round32 (v * D) D = v.
Proof.
  intros [Hv Hmod] HD. unfold round32. cbv zeta.
  rewrite Z.div_mul by lia.
  pose proof (expo_nonneg v) as Hj.
  assert (Hp : 0 < 2 ^ expo v) by (apply Z.pow_pos_nonneg; lia).
  pose proof (Z.div_mod v (2 ^ expo v) ltac:(lia)) as Hdm.
  rewrite Hmod, Z.add_0_r in Hdm.
  set (w := v / 2 ^ expo v) in *.
  rewrite Hdm at 1.
  replace (2 ^ expo v * w * D) with (w * (D * 2 ^ expo v)) by ring.
  rewrite rne_exact by nia. lia.
Qed.

(** Rounding never more than doubles a value. *)
Lemma round32_le_double (N D : Z) :
  0 < D -> 0 <= N -> round32 N D * D <= 2 * N.
Proof.
  intros HD HN. unfold round32. cbv zeta.
  set (j := expo (N / D)).
  assert (Hj : 0 <= j) by apply expo_nonneg.
  assert (Hp : 0 < 2 ^ j) by (apply Z.pow_pos_nonneg; lia).
  set (D' := D * 2 ^ j).
  assert (HD' : 0 < D') by (unfold D'; nia).
  pose proof (rne_bounds N D' HD') as [_ Hub].
  pose proof (Z.div_mod N D' ltac:(lia)) as Hdm.
  pose proof (Z.mod_pos_bound N D' HD') as Hr.
  assert (Hq0 : 0 <= N / D') by (apply Z.div_pos; lia).
  replace (rne N D' * 2 ^ j * D) with (rne N D' * D') by (unfold D'; ring).
  destruct (Z.eq_dec (rne N D') (N / D' + 1)) as [Hup|Hdn].
  - pose proof (rne_up N D' HD' Hup). nia.
  - assert (rne N D' = N / D') by (pose proof (rne_bounds N D' HD'); lia). nia.
Qed.

Lemma representable_1 : representable 1.
Proof. split; [lia|reflexivity]. Qed.

(** A quotient of at least one unit does not round to zero. *)
Lemma round32_pos (N D : Z) : 0 < D -> D <= N -> 1 <= round32 N D.
Proof.
  intros HD HN.
  rewrite <- (round32_id 1 D representable_1 HD) at 1.
  apply round32_mono; lia.
Qed.

Lemma round32_nonneg (N D : Z) : 0 < D -> 0 <= N -> 0 <= round32 N D.
Proof.
  intros HD HN.
  assert (H0 : representable 0) by (split; [lia|reflexivity]).
  replace 0 with (round32 (0 * D) D) at 1 by (apply round32_id; assumption).
  apply round32_mono; lia.
Qed.

(** The exponent function of binary32. *)
Lemma fexp_eq (e : Z) : fexp 24 128 e = Z.max (e - 24) (-149).
Proof. reflexivity. Qed.

Lemma pow2_pos (a : Z) : 0 <= a -> 0 < 2 ^ a.
Proof. intros. apply Z.pow_pos_nonneg; lia. Qed.

Lemma pow2_split (a b : Z) : 0 <= a -> 0 <= b -> 2 ^ (a + b) = 2 ^ a * 2 ^ b.
Proof. intros. apply Z.pow_add_r; lia. Qed.

(** The exponent that the library derives from the digit count of a
    mantissa [d] digits long at exponent [ex] is the binade exponent of the
    value, so rounding the shifted mantissa is [round32]. The value
    [N / D * 2 ^ ex] is counted in units as
    [(N * 2 ^ (ex + 300)) / (D * 2 ^ 151)], which avoids a case distinction
    on the sign of [ex + 149]. *)
Lemma round32_of_shift (N D d ex : Z) :
  0 < D -> 1 <= d -> 2 ^ (d - 1) * D <= N < 2 ^ d * D -> -300 <= ex ->
  ex <= Z.max (d + ex - 24) (-149) ->
  round32 (N * 2 ^ (ex + 300)) (D * 2 ^ 151)
  = rne N (D * 2 ^ (Z.max (d + ex - 24) (-149) - ex))
    * 2 ^ (Z.max (d + ex - 24) (-149) + 149).
Proof.
  intros HD Hd HN Hex Hn.
  set (e1 := Z.max (d + ex - 24) (-149)) in *.
  set (a := ex + 300).
  assert (Ha : 0 <= a) by lia.
  assert (Hpa : 0 < 2 ^ a) by (apply pow2_pos; lia).
  assert (Hp151 : 0 < 2 ^ 151) by (apply pow2_pos; lia).
  assert (Hpd : 0 < 2 ^ (d - 1)) by (apply pow2_pos; lia).
  assert (Hpd' : 2 ^ d = 2 * 2 ^ (d - 1)).
  { replace d with (1 + (d - 1)) at 1 by lia. rewrite pow2_split by lia. reflexivity. }
  assert (Hexpo : expo (N * 2 ^ a / (D * 2 ^ 151)) = e1 + 149).
  { unfold expo.
    destruct (Z.le_gt_cases 151 (d - 1 + a)) as [Hbig|Hsmall].
    - (* the integer part has [d + a - 151] digits *)
      assert (Hlog : Z.log2 (N * 2 ^ a / (D * 2 ^ 151)) = d - 1 + a - 151).
      { apply Z.log2_unique; [lia|]. split.
        - apply Z.div_le_lower_bound; [nia|].
          replace (D * 2 ^ 151 * 2 ^ (d - 1 + a - 151))
            with (2 ^ (d - 1) * D * 2 ^ a).
          2:{ rewrite <- (Z.mul_assoc D), <- pow2_split by lia.
              replace (151 + (d - 1 + a - 151)) with ((d - 1) + a) by lia.
              rewrite pow2_split by lia. ring. }
          apply Z.mul_le_mono_nonneg_r; lia.
        - apply Z.div_lt_upper_bound; [nia|].
          replace (D * 2 ^ 151 * 2 ^ Z.succ (d - 1 + a - 151))
            with (2 ^ d * D * 2 ^ a).
          2:{ rewrite <- (Z.mul_assoc D), <- pow2_split by lia.
              replace (151 + Z.succ (d - 1 + a - 151)) with (d + a) by lia.
              rewrite pow2_split by lia. ring. }
          apply Z.mul_lt_mono_pos_r; lia. }
      rewrite Hlog. unfold e1, a. lia.
    - (* at most 1: the exponent is the least one *)
      assert (Hlt : N * 2 ^ a / (D * 2 ^ 151) < 2).
      { apply Z.div_lt_upper_bound; [nia|].
        assert (H2 : 2 ^ d * 2 ^ a <= 2 * 2 ^ 151).
        { rewrite <- pow2_split by lia.
          change (2 * 2 ^ 151) with (2 ^ 152).
          apply Z.pow_le_mono_r; lia. }
        nia. }
      assert (H0 : 0 <= N * 2 ^ a / (D * 2 ^ 151)).
      { apply Z.div_pos; nia. }
      assert (Hlog : Z.log2 (N * 2 ^ a / (D * 2 ^ 151)) = 0).
      { destruct (Z.eq_dec (N * 2 ^ a / (D * 2 ^ 151)) 0) as [->| ];
          [reflexivity|].
        replace (N * 2 ^ a / (D * 2 ^ 151)) with 1 by lia. reflexivity. }
      rewrite Hlog. unfold e1, a in *. lia. }
  unfold round32. cbv zeta. fold a. rewrite Hexpo.
  f_equal.
  replace (D * 2 ^ 151 * 2 ^ (e1 + 149)) with (2 ^ a * (D * 2 ^ (e1 - ex))).
  2:{ rewrite <- Z.mul_assoc, <- pow2_split by lia.
      replace (151 + (e1 + 149)) with (a + (e1 - ex)) by (unfold a; lia).
      rewrite pow2_split by lia. ring. }
  rewrite (Z.mul_comm N). apply rne_scale; [lia|].
  assert (0 < 2 ^ (e1 - ex)) by (apply pow2_pos; lia). nia.
Qed.

(** An exact mantissa is a faithful truncation of itself. *)
Lemma rec_ok_exact (m D : Z) :
  0 <= m -> 0 < D -> rec_ok (m * D) D (shr_record_of_loc m loc_Exact).
Proof.
  intros Hm HD. unfold rec_ok. cbn [shr_record_of_loc shr_m shr_r shr_s].
  replace (m * D - m * D) with 0 by lia.
  repeat split; try lia; bool_lia.
Qed.

(** [shr] by [n >= 0] places. *)
Lemma shr_ok (N D : Z) (mrs : shr_record) (e n : Z) :
  rec_ok N D mrs -> 0 <= n ->
  rec_ok N (D * 2 ^ n) (shr mrs e n).1 /\ (shr mrs e n).2 = e + n.
Proof.
  intros Hok Hn. destruct n as [|pn|pn]; [| |lia]; cbn [shr fst snd].
  - rewrite Z.mul_1_r. split; [exact Hok|lia].
  - split; [|reflexivity]. apply iter_pos_shr_1_ok. exact Hok.
Qed.

Lemma digits_le_24 (p : positive) :
  Zpos p < 2 ^ 24 -> Zpos (digits2_pos p) <= 24.
Proof.
  intros Hlt. pose proof (digits2_bounds p) as [Hlo _].
  destruct (Z.le_gt_cases (Zpos (digits2_pos p)) 24) as [|Hgt]; [assumption|].
  assert (2 ^ 24 <= 2 ^ (Zpos (digits2_pos p) - 1))
    by (apply Z.pow_le_mono_r; lia).
  lia.
Qed.

Lemma digits_ge_24 (p : positive) :
  2 ^ 23 <= Zpos p -> 24 <= Zpos (digits2_pos p).
Proof.
  intros Hge. pose proof (digits2_bounds p) as [_ Hhi].
  destruct (Z.le_gt_cases 24 (Zpos (digits2_pos p))) as [|Hlt]; [assumption|].
  assert (2 ^ Zpos (digits2_pos p) <= 2 ^ 23)
    by (apply Z.pow_le_mono_r; lia).
  lia.
Qed.

(** [pack] yields a canonical float of the expected value when the
    mantissa is normalised or the exponent is the least one. *)
Lemma pack_wellformed (m e : Z) :
  0 <= m <= 2 ^ 24 -> -149 <= e <= 103 -> (-149 < e -> 2 ^ 23 <= m) ->
  wellformed (pack m e) /\ units (pack m e) = m * 2 ^ (e + 149).
Proof.
  intros Hm He Hnormal. unfold pack.
  destruct (Z.eqb_spec m 0) as [->|Hnz]; [split; [exact I|reflexivity]|].
  destruct (Z.eqb_spec m (2 ^ 24)) as [->|Hntop].
  - split.
    + cbn [wellformed]. unfold bounded, canonical_mantissa.
      rewrite fexp_eq. change (Zpos (digits2_pos 8388608)) with 24.
      apply andb_true_intro. split; [apply Z.eqb_eq|apply Z.leb_le]; lia.
    + cbn [units]. replace (e + 1 + 149) with (1 + (e + 149)) by lia.
      rewrite pow2_split by lia. change (2 ^ 24) with (8388608 * 2 ^ 1).
      lia.
  - destruct m as [|p1|p1]; try lia. cbn [Z.to_pos].
    assert (Hd1 : Zpos (digits2_pos p1) <= 24) by (apply digits_le_24; lia).
    assert (Hd1' : -149 < e -> 24 <= Zpos (digits2_pos p1)).
    { intros Hn. apply digits_ge_24. specialize (Hnormal Hn). lia. }
    split; [|reflexivity].
    cbn [wellformed]. unfold bounded, canonical_mantissa. rewrite fexp_eq.
    apply andb_true_intro. split; [apply Z.eqb_eq|apply Z.leb_le]; lia.
Qed.

(** What [binary_round_aux] returns for a positive mantissa that needs no
    left shift and does not overflow: the first shift brings the mantissa
    to 24 digits (or to the least exponent), rounding may carry into a
    25th digit, which the second shift removes. *)
Lemma binary_round_aux_pack (mx ex : Z) (lx : location) (N D : Z) :
  0 < mx ->
  rec_ok N D (shr_record_of_loc mx lx) ->
  ex <= fexp 24 128 (Zdigits2 mx + ex) ->
  Zdigits2 mx + ex <= 127 ->
  let e1 := fexp 24 128 (Zdigits2 mx + ex) in
  let m1 := rne N (D * 2 ^ (e1 - ex)) in
  binary_round_aux 24 128 false mx ex lx = pack m1 e1 /\
  0 <= m1 <= 2 ^ 24 /\ -149 <= e1 <= 103 /\ (-149 < e1 -> 2 ^ 23 <= m1).
Proof.
  intros Hmx Hok Hshift Hmax.
  destruct mx as [|p|p]; try lia. cbn [Zdigits2] in *.
  pose proof (digits2_bounds p) as [Hdlo Hdhi].
  set (d := Zpos (digits2_pos p)) in *.
  rewrite fexp_eq in *.
  set (e1 := Z.max (d + ex - 24) (-149)) in *.
  assert (Hd : 1 <= d) by (unfold d; lia).
  assert (HN : Zpos p * D <= N < (Zpos p + 1) * D /\ 0 < D).
  { destruct Hok as (HD & _ & Hrem & _).
    assert (Hm : shr_m (shr_record_of_loc (Zpos p) lx) = Zpos p)
      by (destruct lx as [|[]]; reflexivity).
    rewrite Hm in Hrem. lia. }
  destruct HN as [HN HD].
  cbv zeta.
  set (D1 := D * 2 ^ (e1 - ex)) in *.
  assert (Hpn : 0 < 2 ^ (e1 - ex)) by (apply pow2_pos; lia).
  assert (HD1 : 0 < D1) by (unfold D1; nia).
  pose proof (rne_bounds N D1 HD1) as [Hqlo Hqhi].
  assert (Hq0 : 0 <= N / D1) by (apply Z.div_pos; nia).
  assert (Hqlt : N / D1 < 2 ^ 24).
  { apply Z.div_lt_upper_bound; [lia|]. unfold D1.
    assert (Hp2 : 2 ^ d <= 2 ^ (e1 - ex) * 2 ^ 24).
    { rewrite <- pow2_split by lia. apply Z.pow_le_mono_r; lia. }
    nia. }
  assert (Hnormal : -149 < e1 -> 2 ^ 23 <= N / D1).
  { intros Hn. apply Z.div_le_lower_bound; [lia|]. unfold D1.
    assert (Hp2 : 2 ^ (e1 - ex) * 2 ^ 23 <= 2 ^ (d - 1)).
    { rewrite <- pow2_split by lia. apply Z.pow_le_mono_r; lia. }
    nia. }
  split; [|repeat split; try lia; intros Hn; specialize (Hnormal Hn); lia].
  unfold binary_round_aux.
  unfold shr_fexp at 1. cbn [Zdigits2]. fold d. rewrite fexp_eq. fold e1.
  destruct (shr_ok N D (shr_record_of_loc (Zpos p) lx) ex (e1 - ex) Hok
                   ltac:(lia)) as [Hok1 He1].
  destruct (shr (shr_record_of_loc (Zpos p) lx) ex (e1 - ex))
    as [mrs' e'] eqn:Eshr.
  cbn [fst snd] in Hok1, He1. replace e' with e1 by lia. clear He1 e' Eshr.
  rewrite (rne_of_rec _ _ _ Hok1). fold D1.
  set (m1 := rne N D1) in *.
  unfold pack.
  destruct (Z.eqb_spec m1 0) as [Hz|Hnz].
  - assert (He : e1 = -149) by lia.
    rewrite Hz, He. reflexivity.
  - destruct (Z.eqb_spec m1 (2 ^ 24)) as [Htop|Hntop].
    + rewrite Htop.
      unfold shr_fexp. rewrite fexp_eq.
      change (Zdigits2 (2 ^ 24)) with 25.
      replace (Z.max (25 + e1 - 24) (-149) - e1) with 1 by lia.
      cbn [shr_record_of_loc shr SpecFloat.iter_pos].
      change (shr_1 {| shr_m := 2 ^ 24; shr_r := false; shr_s := false |})
        with {| shr_m := 2 ^ 23; shr_r := false; shr_s := false |}.
      cbn [shr_m]. change (2 ^ 23) with (Zpos 8388608).
      cbv iota beta.
      destruct (Z.leb_spec (e1 + 1) (128 - 24)) as [_|Hbad]; [|lia].
      reflexivity.
    + assert (Hpos : 0 < m1 < 2 ^ 24) by lia.
      destruct m1 as [|p1|p1] eqn:Em1; try lia.
      assert (Hd1 : Zpos (digits2_pos p1) <= 24) by (apply digits_le_24; lia).
      assert (Hd1' : -149 < e1 -> 24 <= Zpos (digits2_pos p1)).
      { intros Hn. apply digits_ge_24. specialize (Hnormal Hn). lia. }
      assert (Hfix : Z.max (Zpos (digits2_pos p1) + e1 - 24) (-149) = e1) by lia.
      unfold shr_fexp. rewrite fexp_eq. cbn [Zdigits2]. rewrite Hfix.
      rewrite Z.sub_diag. cbn [shr shr_record_of_loc shr_m].
      destruct (Z.leb_spec e1 (128 - 24)) as [_|Hbad]; [|lia].
      reflexivity.
Qed.

(** [binary_round_aux] rounds correctly. *)
Lemma binary_round_aux_value (mx ex : Z) (lx : location) (N D : Z) :
  0 < mx ->
  rec_ok N D (shr_record_of_loc mx lx) ->
  -300 <= ex ->
  ex <= fexp 24 128 (Zdigits2 mx + ex) ->
  Zdigits2 mx + ex <= 127 ->
  wellformed (binary_round_aux 24 128 false mx ex lx) /\
  units (binary_round_aux 24 128 false mx ex lx)
  = round32 (N * 2 ^ (ex + 300)) (D * 2 ^ 151).
Proof.
  intros Hmx Hok Hex Hshift Hmax.
  destruct (binary_round_aux_pack mx ex lx N D Hmx Hok Hshift Hmax)
    as (Heq & Hm & He & Hn).
  rewrite Heq.
  destruct (pack_wellformed _ _ Hm He Hn) as [Hg Hv].
  split; [exact Hg|]. rewrite Hv.
  destruct mx as [|p|p]; try lia. cbn [Zdigits2] in *.
  pose proof (digits2_bounds p) as [Hdlo Hdhi].
  assert (HN : Zpos p * D <= N < (Zpos p + 1) * D /\ 0 < D).
  { destruct Hok as (HD & _ & Hrem & _).
    assert (Hm' : shr_m (shr_record_of_loc (Zpos p) lx) = Zpos p)
      by (destruct lx as [|[]]; reflexivity).
    rewrite Hm' in Hrem. lia. }
  destruct HN as [HN HD].
  rewrite fexp_eq in *.
  symmetry. apply round32_of_shift; try lia.
  assert (Hpd : 0 < 2 ^ (Zpos (digits2_pos p) - 1)) by (apply pow2_pos; lia).
  nia.
Qed.

(** Appending [d] zero bits multiplies by [2 ^ d]. *)
Lemma iter_xO (p d : positive) :
  Zpos (Pos.iter xO p d) = Zpos p * 2 ^ Zpos d.
Proof.
  induction d as [|d IH] using Pos.peano_ind.
  - cbn [Pos.iter]. rewrite Pos2Z.inj_xO. lia.
  - rewrite Pos.iter_succ, Pos2Z.inj_xO, IH, Pos2Z.inj_succ, Z.pow_succ_r by lia.
    ring.
Qed.

(** [shl_align] keeps the value and lowers the exponent to [ex'] when that
    is below [ex]. *)
Lemma shl_align_spec (mx : positive) (ex ex' : Z) :
  let r := shl_align mx ex ex' in
  r.2 = Z.min ex ex' /\ Zpos r.1 = Zpos mx * 2 ^ (ex - r.2).
Proof.
  unfold shl_align. destruct (ex' - ex) as [|d|d] eqn:E; cbn [fst snd].
  - split; [lia|]. rewrite Z.sub_diag. lia.
  - split; [lia|]. rewrite Z.sub_diag. lia.
  - split; [lia|]. rewrite iter_xO. f_equal. f_equal. lia.
Qed.

Lemma digits_mul_pow2 (p q : positive) (k : Z) :
  0 <= k -> Zpos q = Zpos p * 2 ^ k ->
  Zpos (digits2_pos q) = Zpos (digits2_pos p) + k.
Proof.
  intros Hk Hq. rewrite !digits2_pos_log2, Hq.
  rewrite Z.log2_mul_pow2 by lia. lia.
Qed.

Lemma digits_mono (p q : positive) :
  Zpos p <= Zpos q -> Zpos (digits2_pos p) <= Zpos (digits2_pos q).
Proof.
  intros H. rewrite !digits2_pos_log2.
  pose proof (Z.log2_le_mono _ _ H). lia.
Qed.

(** The number of digits from a bound on the value. *)
Lemma digits_upper (p : positive) (k : Z) :
  Zpos p < 2 ^ k -> Zpos (digits2_pos p) <= k.
Proof.
  intros Hlt. pose proof (digits2_bounds p) as [Hlo _].
  destruct (Z.le_gt_cases (Zpos (digits2_pos p)) k) as [|Hgt]; [assumption|].
  assert (2 ^ k <= 2 ^ (Zpos (digits2_pos p) - 1))
    by (apply Z.pow_le_mono_r; lia).
  lia.
Qed.

Lemma digits_lower (p : positive) (k : Z) :
  2 ^ k <= Zpos p -> k + 1 <= Zpos (digits2_pos p).
Proof.
  intros Hge. pose proof (digits2_bounds p) as [_ Hhi].
  destruct (Z.le_gt_cases (k + 1) (Zpos (digits2_pos p))) as [|Hlt]; [assumption|].
  destruct (Z.le_gt_cases 0 k) as [Hk|Hk].
  - assert (2 ^ Zpos (digits2_pos p) <= 2 ^ k)
      by (apply Z.pow_le_mono_r; lia).
    lia.
  - lia.
Qed.

(** [binary_round] rounds an exact mantissa correctly. *)
Lemma binary_round_value (p : positive) (e : Z) :
  -300 <= e -> Zpos (digits2_pos p) + e <= 127 ->
  wellformed (binary_round 24 128 false p e) /\
  units (binary_round 24 128 false p e)
  = round32 (Zpos p * 2 ^ (e + 300)) (2 ^ 151).
Proof.
  intros He Hmax. unfold binary_round.
  pose proof (shl_align_spec p e (fexp 24 128 (Zpos (digits2_pos p) + e)))
    as [Hez Hmz].
  destruct (shl_align p e (fexp 24 128 (Zpos (digits2_pos p) + e)))
    as [mz ez]. cbn [fst snd] in Hez, Hmz.
  rewrite fexp_eq in Hez.
  assert (Hk : 0 <= e - ez) by lia.
  pose proof (digits_mul_pow2 p mz (e - ez) Hk Hmz) as Hdz.
  assert (H1 : 0 < Zpos mz) by lia.
  assert (H2 : rec_ok (Zpos mz * 1) 1 (shr_record_of_loc (Zpos mz) loc_Exact))
    by (apply rec_ok_exact; lia).
  assert (H3 : -300 <= ez) by lia.
  assert (H4 : ez <= fexp 24 128 (Zdigits2 (Zpos mz) + ez))
    by (cbn [Zdigits2]; rewrite fexp_eq, Hdz; lia).
  assert (H5 : Zdigits2 (Zpos mz) + ez <= 127) by (cbn [Zdigits2]; lia).
  destruct (binary_round_aux_value (Zpos mz) ez loc_Exact (Zpos mz * 1) 1
              H1 H2 H3 H4 H5) as [Hg Hv].
  split; [exact Hg|]. rewrite Hv.
  rewrite Z.mul_1_r, Z.mul_1_l, Hmz, <- Z.mul_assoc, <- pow2_split by lia.
  replace (e - ez + (ez + 300)) with (e + 300) by lia. reflexivity.
Qed.

(** What [wellformed] says about a finite float. *)
Lemma wellformed_finite (s : bool) (m : positive) (e : Z) :
  wellformed (S754_finite s m e) ->
  s = false /\
  e = Z.max (Zpos (digits2_pos m) + e - 24) (-149) /\ e <= 104.
Proof.
  destruct s; cbn [wellformed]; [contradiction|].
  unfold bounded, canonical_mantissa. rewrite fexp_eq.
  intros H. apply andb_prop in H as [H1 H2].
  apply Z.eqb_eq in H1. apply Z.leb_le in H2. split; [reflexivity|]. lia.
Qed.

Lemma wellformed_cases (x : spec_float) :
  wellformed x ->
  x = S754_zero false \/
  exists m e, x = S754_finite false m e /\
              e = Z.max (Zpos (digits2_pos m) + e - 24) (-149) /\ e <= 104.
Proof.
  intros Hg. destruct x as [s|s| |s m e].
  - destruct s; [contradiction|]. left. reflexivity.
  - destruct s; contradiction.
  - contradiction.
  - destruct (wellformed_finite s m e Hg) as (-> & H1 & H2).
    right. exists m, e. auto.
Qed.

Lemma units_nonneg (x : spec_float) : 0 <= units x.
Proof.
  destruct x as [| | |s m e]; cbn [units]; [lia..|].
  apply Z.mul_nonneg_nonneg; [lia|]. apply Z.pow_nonneg. lia.
Qed.

(** Canonical floats denote values of the format. *)
Lemma wellformed_representable (x : spec_float) : wellformed x -> representable (units x).
Proof.
  intros Hg. destruct (wellformed_cases x Hg) as [->|(m & e & -> & He & _)].
  - split; [cbn; lia|reflexivity].
  - split; [apply units_nonneg|]. cbn [units].
    assert (Hexpo : expo (Zpos m * 2 ^ (e + 149)) = e + 149).
    { unfold expo. rewrite Z.log2_mul_pow2 by lia.
      pose proof (digits2_pos_log2 m). lia. }
    rewrite Hexpo. apply Z.mod_mul.
    pose proof (pow2_pos (e + 149)). lia.
Qed.

Lemma units_finite_pos (s : bool) (m : positive) (e : Z) :
  -149 <= e -> 0 < units (S754_finite s m e).
Proof.
  intros He. cbn [units]. pose proof (pow2_pos (e + 149)). nia.
Qed.

Lemma round32_0 (D : Z) : 0 < D -> round32 0 D = 0.
Proof.
  intros HD.
  assert (H0 : representable 0) by (split; [lia|reflexivity]).
  exact (round32_id 0 D H0 HD).
Qed.

Lemma round32_wellformed (x : spec_float) : wellformed x -> round32 (units x) 1 = units x.
Proof.
  intros Hg. pose proof (round32_id (units x) 1 (wellformed_representable x Hg)) as H.
  rewrite Z.mul_1_r in H. apply H. lia.
Qed.

(** A bound on the value bounds the digits. *)
Lemma digits_from_value (p : positive) (e b : Z) :
  Zpos p * 2 ^ (e + 149) < 2 ^ b -> -149 <= e ->
  Zpos (digits2_pos p) + e + 149 <= b.
Proof.
  intros Hlt He.
  pose proof (digits2_bounds p) as [Hlo _].
  set (d := Zpos (digits2_pos p)) in *.
  assert (Hd : 1 <= d) by (unfold d; lia).
  destruct (Z.le_gt_cases (d + e + 149) b) as [|Hgt]; [assumption|].
  assert (Hpow : 2 ^ b <= 2 ^ (d - 1) * 2 ^ (e + 149)).
  { rewrite <- pow2_split by lia. apply Z.pow_le_mono_r; lia. }
  pose proof (pow2_pos (e + 149) ltac:(lia)). nia.
Qed.

Lemma value_from_digits (p : positive) (e b : Z) :
  2 ^ b <= Zpos p * 2 ^ (e + 149) -> -149 <= e ->
  b < Zpos (digits2_pos p) + e + 149.
Proof.
  intros Hge He.
  pose proof (digits2_bounds p) as [_ Hhi].
  set (d := Zpos (digits2_pos p)) in *.
  assert (Hd : 1 <= d) by (unfold d; lia).
  destruct (Z.le_gt_cases (d + e + 149) b) as [Hle|]; [|assumption].
  assert (Hpow : 2 ^ d * 2 ^ (e + 149) <= 2 ^ b).
  { rewrite <- pow2_split by lia. apply Z.pow_le_mono_r; lia. }
  pose proof (pow2_pos (e + 149) ltac:(lia)). nia.
Qed.

(** [binary_normalize] rounds a non-negative integer mantissa
    correctly. *)
Lemma binary_normalize_value (M e : Z) :
  0 <= M -> -149 <= e -> M * 2 ^ (e + 149) < 2 ^ 250 ->
  wellformed (binary_normalize 24 128 M e false) /\
  units (binary_normalize 24 128 M e false) = round32 (M * 2 ^ (e + 149)) 1.
Proof.
  intros HM He Hlt. destruct M as [|p|p]; [| |lia]; cbn [binary_normalize].
  - split; [exact I|]. rewrite Z.mul_0_l, round32_0 by lia. reflexivity.
  - pose proof (digits_from_value p e 250 Hlt He) as Hd.
    destruct (binary_round_value p e ltac:(lia) ltac:(lia)) as [Hg Hv].
    split; [exact Hg|]. rewrite Hv.
    replace (Zpos p * 2 ^ (e + 300)) with (2 ^ 151 * (Zpos p * 2 ^ (e + 149))).
    2:{ replace (e + 300) with (151 + (e + 149)) by lia.
        rewrite (pow2_split 151 (e + 149)) by lia. ring. }
    replace (2 ^ 151) with (2 ^ 151 * 1) at 2 by lia.
    apply round32_scale; [apply pow2_pos|]; lia.
Qed.

(** [(float) n] is the correctly rounded [n]. *)
Lemma of_Z_value (n : Z) :
  0 <= n < 2 ^ 100 ->
  wellformed (F32.of_Z n) /\ units (F32.of_Z n) = round32 (n * 2 ^ 149) 1.
Proof.
  intros Hn. unfold F32.of_Z, F32.prec, F32.emax.
  apply (binary_normalize_value n 0); [lia|lia|].
  change (0 + 149) with 149. change (2 ^ 250) with (2 ^ 101 * 2 ^ 149).
  apply Z.mul_lt_mono_pos_r; [apply pow2_pos; lia|].
  assert (2 ^ 100 < 2 ^ 101) by (apply Z.pow_lt_mono_r; lia). lia.
Qed.

(** The mantissas aligned on the smaller exponent. *)
Lemma aligned_value (m : positive) (e ez : Z) :
  ez <= e -> -149 <= ez ->
  Zpos (shl_align m e ez).1 * 2 ^ (ez + 149) = Zpos m * 2 ^ (e + 149).
Proof.
  intros Hle Hez. pose proof (shl_align_spec m e ez) as [H2 H1].
  cbv zeta in H1, H2. rewrite H1, H2.
  replace (Z.min e ez) with ez by lia.
  rewrite <- Z.mul_assoc, <- pow2_split by lia.
  f_equal. f_equal. lia.
Qed.

(** [x + y] is the correctly rounded sum. *)
Lemma add_value (x y : spec_float) :
  wellformed x -> wellformed y -> units x + units y < 2 ^ 250 ->
  wellformed (F32.add x y) /\ units (F32.add x y) = round32 (units x + units y) 1.
Proof.
  intros Hx Hy Hlt. unfold F32.add, F32.prec, F32.emax.
  destruct (wellformed_cases x Hx) as [->|(mx & ex & -> & Hex & Hex')];
    destruct (wellformed_cases y Hy) as [->|(my & ey & -> & Hey & Hey')].
  - cbn. split; [exact I|]. rewrite round32_0 by lia. reflexivity.
  - cbn [SFadd]. split; [exact Hy|].
    change (units (S754_zero false)) with 0. rewrite Z.add_0_l.
    symmetry. apply round32_wellformed. exact Hy.
  - cbn [SFadd]. split; [exact Hx|].
    change (units (S754_zero false)) with 0. rewrite Z.add_0_r.
    symmetry. apply round32_wellformed. exact Hx.
  - cbn [SFadd cond_Zopp].
    set (ez := Z.min ex ey).
    assert (Hez : -149 <= ez) by (unfold ez; lia).
    pose proof (aligned_value mx ex ez ltac:(unfold ez; lia) Hez) as Hax.
    pose proof (aligned_value my ey ez ltac:(unfold ez; lia) Hez) as Hay.
    cbn [units] in Hlt |- *.
    set (M := Zpos (shl_align mx ex ez).1 + Zpos (shl_align my ey ez).1) in *.
    assert (HM : M * 2 ^ (ez + 149)
                 = Zpos mx * 2 ^ (ex + 149) + Zpos my * 2 ^ (ey + 149)).
    { unfold M. rewrite Z.mul_add_distr_r, Hax, Hay. reflexivity. }
    rewrite <- HM in *.
    apply binary_normalize_value; [unfold M; lia|lia|exact Hlt].
Qed.

(** [x - y], for [y <= x], is the correctly rounded difference. *)
Lemma sub_value (x y : spec_float) :
  wellformed x -> wellformed y -> units y <= units x -> units x < 2 ^ 250 ->
  wellformed (F32.sub x y) /\ units (F32.sub x y) = round32 (units x - units y) 1.
Proof.
  intros Hx Hy Hle Hlt. unfold F32.sub, F32.prec, F32.emax.
  destruct (wellformed_cases x Hx) as [->|(mx & ex & -> & Hex & Hex')];
    destruct (wellformed_cases y Hy) as [->|(my & ey & -> & Hey & Hey')].
  - cbn. split; [exact I|]. rewrite round32_0 by lia. reflexivity.
  - pose proof (units_finite_pos false my ey ltac:(lia)).
    change (units (S754_zero false)) with 0 in Hle. lia.
  - cbn [SFsub]. split; [exact Hx|].
    change (units (S754_zero false)) with 0. rewrite Z.sub_0_r.
    symmetry. apply round32_wellformed. exact Hx.
  - cbn [SFsub cond_Zopp].
    set (ez := Z.min ex ey).
    assert (Hez : -149 <= ez) by (unfold ez; lia).
    pose proof (aligned_value mx ex ez ltac:(unfold ez; lia) Hez) as Hax.
    pose proof (aligned_value my ey ez ltac:(unfold ez; lia) Hez) as Hay.
    cbn [units] in Hlt, Hle |- *.
    set (M := Zpos (shl_align mx ex ez).1 - Zpos (shl_align my ey ez).1) in *.
    assert (HM : M * 2 ^ (ez + 149)
                 = Zpos mx * 2 ^ (ex + 149) - Zpos my * 2 ^ (ey + 149)).
    { unfold M. rewrite Z.mul_sub_distr_r, Hax, Hay. reflexivity. }
    rewrite <- HM in *.
    pose proof (pow2_pos (ez + 149) ltac:(lia)) as Hp.
    pose proof (units_nonneg (S754_finite false my ey)) as Hvy. cbn [units] in Hvy.
    apply binary_normalize_value; [nia|lia|lia].
Qed.

(** [x * y] is the correctly rounded product. *)
Lemma mul_value (x y : spec_float) :
  wellformed x -> wellformed y -> units x * units y < 2 ^ 399 ->
  wellformed (F32.mul x y) /\ units (F32.mul x y) = round32 (units x * units y) (2 ^ 149).
Proof.
  intros Hx Hy Hlt. unfold F32.mul, F32.prec, F32.emax.
  assert (Hp149 : 0 < 2 ^ 149) by (apply pow2_pos; lia).
  destruct (wellformed_cases x Hx) as [->|(mx & ex & -> & Hex & Hex')];
    destruct (wellformed_cases y Hy) as [->|(my & ey & -> & Hey & Hey')];
    try (cbn [SFmul xorb]; split; [exact I|];
         change (units (S754_zero false)) with 0;
         rewrite ?Z.mul_0_l, ?Z.mul_0_r, round32_0 by lia; reflexivity).
  cbn [SFmul xorb]. cbn [units] in Hlt |- *.
  set (dx := Zpos (digits2_pos mx)) in *.
  set (dy := Zpos (digits2_pos my)) in *.
  assert (Hprod : Zpos mx * 2 ^ (ex + 149) * (Zpos my * 2 ^ (ey + 149))
                  = Zpos (mx * my) * 2 ^ (ex + ey + 298)).
  { rewrite Pos2Z.inj_mul.
    replace (ex + ey + 298) with ((ex + 149) + (ey + 149)) by lia.
    rewrite (pow2_split (ex + 149) (ey + 149)) by lia. ring. }
  (* the product has enough digits, or lies below the least exponent *)
  assert (Hdig : 24 <= Zpos (digits2_pos (mx * my)) \/ ex + ey <= -149).
  { destruct (Z.eq_dec ex (-149)) as [Hsx|Hnx];
      destruct (Z.eq_dec ey (-149)) as [Hsy|Hny]; try (right; lia).
    - left. assert (dy = 24) by lia.
      pose proof (digits_mono my (mx * my)) as Hm.
      rewrite Pos2Z.inj_mul in Hm. fold dy in Hm. nia.
    - left. assert (dx = 24) by lia.
      pose proof (digits_mono mx (mx * my)) as Hm.
      rewrite Pos2Z.inj_mul in Hm. fold dx in Hm. nia.
    - left. assert (dx = 24) by lia.
      pose proof (digits_mono mx (mx * my)) as Hm.
      rewrite Pos2Z.inj_mul in Hm. fold dx in Hm. nia. }
  assert (Hmax : Zpos (digits2_pos (mx * my)) + (ex + ey) <= 101).
  { rewrite Hprod in Hlt.
    replace (ex + ey + 298) with ((ex + ey + 149) + 149) in Hlt by lia.
    pose proof (digits_from_value (mx * my) (ex + ey + 149) 399 Hlt
                                  ltac:(lia)).
    lia. }
  assert (H1 : 0 < Zpos (mx * my)) by lia.
  assert (H2 : rec_ok (Zpos (mx * my) * 1) 1
                      (shr_record_of_loc (Zpos (mx * my)) loc_Exact))
    by (apply rec_ok_exact; lia).
  assert (H3 : -300 <= ex + ey) by lia.
  assert (H4 : ex + ey <= fexp 24 128 (Zdigits2 (Zpos (mx * my)) + (ex + ey)))
    by (cbn [Zdigits2]; rewrite fexp_eq; lia).
  assert (H5 : Zdigits2 (Zpos (mx * my)) + (ex + ey) <= 127)
    by (cbn [Zdigits2]; lia).
  destruct (binary_round_aux_value _ _ _ _ _ H1 H2 H3 H4 H5) as [Hg Hv].
  split; [exact Hg|]. rewrite Hv, Hprod.
  rewrite Z.mul_1_r, Z.mul_1_l.
  replace (Zpos (mx * my) * 2 ^ (ex + ey + 300))
    with (2 ^ 2 * (Zpos (mx * my) * 2 ^ (ex + ey + 298))).
  2:{ replace (ex + ey + 300) with (2 + (ex + ey + 298)) by lia.
      rewrite (pow2_split 2 (ex + ey + 298)) by lia. ring. }
  change (2 ^ 151) with (2 ^ 2 * 2 ^ 149).
  apply round32_scale; lia.
Qed.

(** The location that the division derives from the remainder is
    faithful. *)
Lemma new_location_ok (q my r : Z) :
  0 <= q -> 0 <= r < my ->
  rec_ok (q * my + r) my (shr_record_of_loc q (new_location my r)).
Proof.
  intros Hq Hr. unfold rec_ok.
  assert (Hm : forall l, shr_m (shr_record_of_loc q l) = q)
    by (intros [|[]]; reflexivity).
  rewrite !Hm. replace (q * my + r - q * my) with r by ring.
  split; [lia|]. split; [lia|]. split; [lia|].
  unfold new_location.
  destruct (Z.even my) eqn:Heven.
  - unfold new_location_even.
    destruct (Z.eqb_spec r 0) as [->|Hr0].
    + cbn. split; bool_lia.
    + destruct (Z.compare_spec (2 * r) my); cbn; split; bool_lia.
  - unfold new_location_odd.
    assert (Hodd : 2 * r <> my).
    { intros Heq. rewrite <- Heq, Z.even_mul in Heven. discriminate. }
    destruct (Z.eqb_spec r 0) as [->|Hr0].
    + cbn. split; bool_lia.
    + destruct (Z.compare_spec (2 * r + 1) my); cbn; split; bool_lia.
Qed.

Lemma shift_mantissa (m s : Z) :
  0 <= s ->
  match s with
  | Zpos _ => Z.shiftl m s
  | Z0 => m
  | Zneg _ => 0
  end = m * 2 ^ s.
Proof.
  intros Hs. destruct s as [|p|p]; [lia| |lia].
  apply Z.shiftl_mul_pow2. lia.
Qed.

(** [x / y] is the correctly rounded quotient, for positive operands
    whose quotient is within [2 ^ 100] of 1. *)
Lemma div_value (x y : spec_float) :
  wellformed x -> wellformed y -> 0 < units x -> 0 < units y ->
  units y <= units x * 2 ^ 100 -> units x <= units y * 2 ^ 100 ->
  wellformed (F32.div x y) /\ units (F32.div x y) = round32 (units x * 2 ^ 149) (units y).
Proof.
  intros Hx Hy Hpx Hpy Hlo Hhi. unfold F32.div, F32.prec, F32.emax.
  destruct (wellformed_cases x Hx) as [->|(mx & ex & -> & Hex & Hex')];
    [cbn in Hpx; lia|].
  destruct (wellformed_cases y Hy) as [->|(my & ey & -> & Hey & Hey')];
    [cbn in Hpy; lia|].
  cbn [SFdiv xorb]. unfold SFdiv_core_binary. cbn [Zdigits2].
  cbn [units] in *.
  pose proof (digits2_bounds mx) as [Hxlo Hxhi].
  pose proof (digits2_bounds my) as [Hylo Hyhi].
  set (dx := Zpos (digits2_pos mx)) in *.
  set (dy := Zpos (digits2_pos my)) in *.
  assert (Hdx : 1 <= dx) by (unfold dx; lia).
  assert (Hdy : 1 <= dy) by (unfold dy; lia).
  assert (Hpx' : 0 < 2 ^ (ex + 149)) by (apply pow2_pos; lia).
  assert (Hpy' : 0 < 2 ^ (ey + 149)) by (apply pow2_pos; lia).
  assert (Hp100 : 0 < 2 ^ 100) by (apply pow2_pos; lia).
  (* the quotient is within 2^101 of 1 *)
  assert (Hge : dy + ey - 101 <= dx + ex).
  { destruct (Z.le_gt_cases (dy + ey - 101) (dx + ex)) as [|Hgt]; [assumption|].
    exfalso.
    assert (Hpow : 2 ^ dx * 2 ^ (ex + 149) * 2 ^ 100
                   <= 2 ^ (dy - 1) * 2 ^ (ey + 149)).
    { rewrite <- !pow2_split by lia. apply Z.pow_le_mono_r; lia. }
    nia. }
  assert (Hle : dx + ex <= dy + ey + 101).
  { destruct (Z.le_gt_cases (dx + ex) (dy + ey + 101)) as [|Hgt]; [assumption|].
    exfalso.
    assert (Hpow : 2 ^ dy * 2 ^ (ey + 149) * 2 ^ 100
                   <= 2 ^ (dx - 1) * 2 ^ (ex + 149)).
    { rewrite <- !pow2_split by lia. apply Z.pow_le_mono_r; lia. }
    nia. }
  rewrite fexp_eq.
  set (A := Z.max (dx + ex - (dy + ey) - 24) (-149)).
  assert (HA : A = dx + ex - (dy + ey) - 24) by (unfold A; lia).
  set (e' := Z.min A (ex - ey)).
  set (s := ex - ey - e').
  assert (Hs : 0 <= s) by (unfold s, e'; lia).
  assert (Hs24 : 24 + dy - dx <= s) by (unfold s, e'; lia).
  rewrite (shift_mantissa (Zpos mx) s Hs).
  assert (Hps : 0 < 2 ^ s) by (apply pow2_pos; lia).
  pose proof (Z_div_mod (Zpos mx * 2 ^ s) (Zpos my) ltac:(lia)) as Hdm.
  destruct (Z.div_eucl (Zpos mx * 2 ^ s) (Zpos my)) as [q r].
  destruct Hdm as [Hdm Hr].
  (* the quotient has 24 or 25 digits *)
  assert (Hm'lo : 2 ^ (dx - 1 + s) <= Zpos mx * 2 ^ s).
  { rewrite pow2_split by lia. nia. }
  assert (Hm'hi : Zpos mx * 2 ^ s < 2 ^ (dx + s)).
  { rewrite pow2_split by lia. nia. }
  assert (Hqlo : 2 ^ (dx - 1 + s - dy) <= q).
  { assert (Hpow : 2 ^ (dx - 1 + s) = 2 ^ (dx - 1 + s - dy) * 2 ^ dy).
    { rewrite <- pow2_split by lia. f_equal. lia. }
    assert (0 < 2 ^ (dx - 1 + s - dy)) by (apply pow2_pos; lia).
    nia. }
  assert (Hqhi : q < 2 ^ (dx + s - dy + 1)).
  { assert (Hpow : 2 ^ (dx + s) = 2 ^ (dx + s - dy + 1) * 2 ^ (dy - 1)).
    { rewrite <- pow2_split by lia. f_equal. lia. }
    assert (0 < 2 ^ (dy - 1)) by (apply pow2_pos; lia).
    nia. }
  assert (Hq23 : 2 ^ 23 <= q).
  { eapply Z.le_trans; [|exact Hqlo]. apply Z.pow_le_mono_r; lia. }
  assert (Hqpos : 0 < q) by lia.
  destruct q as [|pq|pq]; try lia.
  pose proof (digits_lower pq _ Hqlo) as Hdqlo.
  pose proof (digits_upper pq _ Hqhi) as Hdqhi.
  assert (H2 : rec_ok (Zpos mx * 2 ^ s) (Zpos my)
                      (shr_record_of_loc (Zpos pq) (new_location (Zpos my) r))).
  { rewrite Hdm, (Z.mul_comm (Zpos my)). apply new_location_ok; lia. }
  assert (H3 : -300 <= e') by (unfold e'; lia).
  assert (H4 : e' <= fexp 24 128 (Zdigits2 (Zpos pq) + e')).
  { cbn [Zdigits2]. rewrite fexp_eq. unfold s in *. lia. }
  assert (H5 : Zdigits2 (Zpos pq) + e' <= 127).
  { cbn [Zdigits2]. unfold s in *. lia. }
  destruct (binary_round_aux_value _ _ _ _ _ Hqpos H2 H3 H4 H5) as [Hg Hv].
  split; [exact Hg|]. rewrite Hv.
  (* both sides denote the same quotient *)
  rewrite <- (round32_scale (2 ^ (ey + 149))
                            (Zpos mx * 2 ^ s * 2 ^ (e' + 300))
                            (Zpos my * 2 ^ 151)) by lia.
  replace (2 ^ (ey + 149) * (Zpos mx * 2 ^ s * 2 ^ (e' + 300)))
    with (2 ^ 151 * (Zpos mx * 2 ^ (ex + 149) * 2 ^ 149)).
  2:{ replace (2 ^ (ey + 149) * (Zpos mx * 2 ^ s * 2 ^ (e' + 300)))
        with (Zpos mx * (2 ^ (ey + 149) * 2 ^ s * 2 ^ (e' + 300))) by ring.
      rewrite <- !pow2_split by lia.
      replace (2 ^ 151 * (Zpos mx * 2 ^ (ex + 149) * 2 ^ 149))
        with (Zpos mx * (2 ^ 151 * 2 ^ (ex + 149) * 2 ^ 149)) by ring.
      rewrite <- !pow2_split by lia.
      f_equal. f_equal. unfold s. lia. }
  replace (2 ^ (ey + 149) * (Zpos my * 2 ^ 151))
    with (2 ^ 151 * (Zpos my * 2 ^ (ey + 149))) by ring.
  apply round32_scale; [apply pow2_pos|]; lia.
Qed.

(** On canonical floats the comparison of the library is the comparison
    of the values. *)
Lemma compare_value (x y : spec_float) :
  wellformed x -> wellformed y -> SFcompare x y = Some (units x ?= units y).
Proof.
  intros Hx Hy.
  destruct (wellformed_cases x Hx) as [->|(mx & ex & -> & Hex & Hex')];
    destruct (wellformed_cases y Hy) as [->|(my & ey & -> & Hey & Hey')].
  - reflexivity.
  - pose proof (units_finite_pos false my ey ltac:(lia)) as Hp.
    cbn [SFcompare]. change (units (S754_zero false)) with 0.
    f_equal. symmetry. apply Z.compare_lt_iff. exact Hp.
  - pose proof (units_finite_pos false mx ex ltac:(lia)) as Hp.
    cbn [SFcompare]. change (units (S754_zero false)) with 0.
    f_equal. symmetry. apply Z.compare_gt_iff. exact Hp.
  - cbn [SFcompare units]. f_equal.
    pose proof (digits2_bounds mx) as [Hxlo Hxhi].
    pose proof (digits2_bounds my) as [Hylo Hyhi].
    set (dx := Zpos (digits2_pos mx)) in *.
    set (dy := Zpos (digits2_pos my)) in *.
    assert (Hpx : 0 < 2 ^ (ex + 149)) by (apply pow2_pos; lia).
    assert (Hpy : 0 < 2 ^ (ey + 149)) by (apply pow2_pos; lia).
    destruct (Z.compare_spec ex ey) as [Heq|Hlt|Hgt].
    + subst ey. rewrite Pos.compare_cont_spec. cbn [Pos.switch_Eq].
      change (Pos.compare mx my) with (Zpos mx ?= Zpos my).
      destruct (Z.compare_spec (Zpos mx) (Zpos my)) as [H|H|H]; symmetry.
      * apply Z.compare_eq_iff. rewrite H. reflexivity.
      * apply Z.compare_lt_iff. nia.
      * apply Z.compare_gt_iff. nia.
    + symmetry. apply Z.compare_lt_iff.
      assert (Hdy : dy = 24) by lia.
      assert (Hdx : dx <= 24) by lia.
      assert (Hpow : 2 ^ dx * 2 ^ (ex + 149) <= 2 ^ (dy - 1) * 2 ^ (ey + 149)).
      { rewrite <- !pow2_split by (unfold dx, dy; lia).
        apply Z.pow_le_mono_r; lia. }
      nia.
    + symmetry. apply Z.compare_gt_iff.
      assert (Hdx : dx = 24) by lia.
      assert (Hdy : dy <= 24) by lia.
      assert (Hpow : 2 ^ dy * 2 ^ (ey + 149) <= 2 ^ (dx - 1) * 2 ^ (ex + 149)).
      { rewrite <- !pow2_split by (unfold dx, dy; lia).
        apply Z.pow_le_mono_r; lia. }
      nia.
Qed.

Lemma ltb_value (x y : spec_float) :
  wellformed x -> wellformed y -> SFltb x y = (units x <? units y).
Proof.
  intros Hx Hy. unfold SFltb, Z.ltb. rewrite (compare_value x y Hx Hy).
  destruct (units x ?= units y); reflexivity.
Qed.

Lemma leb_value (x y : spec_float) :
  wellformed x -> wellformed y -> SFleb x y = (units x <=? units y).
Proof.
  intros Hx Hy. unfold SFleb, Z.leb. rewrite (compare_value x y Hx Hy).
  destruct (units x ?= units y); reflexivity.
Qed.

Lemma wellformed_zero : wellformed F32.zero.
Proof. exact I. Qed.

Lemma wellformed_one : wellformed F32.one.
Proof. reflexivity. Qed.

(** The constants of the firmware. *)
Lemma units_one : units F32.one = 2 ^ 149.
Proof. reflexivity. Qed.

Lemma wellformed_speed : wellformed F32.c0_02.
Proof. reflexivity. Qed.

Lemma units_speed : units F32.c0_02 = 10737418 * 2 ^ 120.
Proof. reflexivity. Qed.

Lemma representable_pow2 (k : Z) : 0 <= k -> representable (2 ^ k).
Proof.
  intros Hk. split; [apply Z.pow_nonneg; lia|].
  unfold expo. rewrite Z.log2_pow2 by lia.
  destruct (Z.le_gt_cases k 23) as [Hs|Hb].
  - replace (Z.max 0 (k - 23)) with 0 by lia. apply Z.mod_1_r.
  - replace (Z.max 0 (k - 23)) with (k - 23) by lia.
    replace k with (23 + (k - 23)) at 1 by lia.
    rewrite pow2_split by lia. apply Z.mod_mul.
    pose proof (pow2_pos (k - 23)). lia.
Qed.

(** One smoothing step: [c + (t - c) * 0.02f], clamped, lands between the
    old progress and the target. *)
Lemma smooth_between (c t : F32.float) :
  wellformed c -> wellformed t -> units c <= units t -> units t <= units F32.one ->
  let c' := F32.clamp01 (F32.add c (F32.mul (F32.sub t c) F32.c0_02)) in
  wellformed c' /\ units c <= units c' /\ units c' <= units t.
Proof.
  intros Hc Ht Hct Ht1. rewrite units_one in Ht1.
  pose proof (units_nonneg c) as Hc0.
  assert (H149 : 2 ^ 149 < 2 ^ 250) by (apply Z.pow_lt_mono_r; lia).
  destruct (sub_value t c Ht Hc Hct ltac:(lia)) as [Hgd Hvd].
  set (d := F32.sub t c) in *.
  assert (Hd2 : units d <= 2 * (units t - units c)).
  { rewrite Hvd. pose proof (round32_le_double (units t - units c) 1). lia. }
  assert (Hd0 : 0 <= units d) by apply units_nonneg.
  assert (Hmulb : units d * units F32.c0_02 < 2 ^ 399).
  { rewrite units_speed.
    assert (units d * (10737418 * 2 ^ 120) <= 2 * 2 ^ 149 * (10737418 * 2 ^ 120))
      by (apply Z.mul_le_mono_nonneg_r; lia).
    assert (2 * 2 ^ 149 * (10737418 * 2 ^ 120) < 2 ^ 399) by reflexivity.
    lia. }
  destruct (mul_value d F32.c0_02 Hgd wellformed_speed Hmulb) as [Hgp Hvp].
  set (p := F32.mul d F32.c0_02) in *.
  assert (Hp0 : 0 <= units p) by apply units_nonneg.
  assert (Hpd : units p <= units t - units c).
  { pose proof (round32_le_double (units d * units F32.c0_02) (2 ^ 149)
                  ltac:(lia) ltac:(rewrite units_speed; nia)) as Hdbl.
    rewrite <- Hvp, units_speed in Hdbl.
    change (2 ^ 149) with (536870912 * 2 ^ 120) in Hdbl.
    assert (H120 : 0 < 2 ^ 120) by (apply pow2_pos; lia).
    assert (Hdiv : units p * 536870912 <= 2 * (units d * 10737418)).
    { apply (Z.mul_le_mono_pos_r _ _ (2 ^ 120) H120). lia. }
    lia. }
  destruct (add_value c p Hc Hgp ltac:(lia)) as [Hgs Hvs].
  set (s := F32.add c p) in *.
  assert (Hlo : units c <= units s).
  { rewrite Hvs, <- (round32_wellformed c Hc) at 1. apply round32_mono; lia. }
  assert (Hhi : units s <= units t).
  { rewrite Hvs, <- (round32_wellformed t Ht). apply round32_mono; lia. }
  cbv zeta. unfold F32.clamp01, F32.ltb, F32.gtb.
  rewrite (ltb_value s F32.zero Hgs wellformed_zero).
  change (units F32.zero) with 0.
  destruct (Z.ltb_spec (units s) 0) as [Hneg|_]; [lia|].
  rewrite (ltb_value F32.one s wellformed_one Hgs), units_one.
  destruct (Z.ltb_spec (2 ^ 149) (units s)) as [Hbig|_]; [lia|].
  auto.
Qed.

(** Conversion of a tick count. *)
Lemma of_ticks_value (n : Z) :
  1 <= n < 2 ^ 32 ->
  wellformed (F32.of_Z n) /\ 2 ^ 149 <= units (F32.of_Z n) <= 2 ^ 181.
Proof.
  intros Hn.
  assert (H32 : 2 ^ 32 < 2 ^ 100) by (apply Z.pow_lt_mono_r; lia).
  destruct (of_Z_value n ltac:(lia)) as [Hg Hv].
  split; [exact Hg|]. rewrite Hv.
  assert (Hp : 0 < 2 ^ 149) by (apply pow2_pos; lia).
  split.
  - pose proof (round32_id (2 ^ 149) 1 (representable_pow2 149 ltac:(lia))
                  ltac:(lia)) as Hid.
    apply Z.le_trans with (round32 (2 ^ 149 * 1) 1); [lia|].
    apply round32_mono; [lia|]. nia.
  - pose proof (round32_id (2 ^ 181) 1 (representable_pow2 181 ltac:(lia))
                  ltac:(lia)) as Hid.
    apply Z.le_trans with (round32 (2 ^ 181 * 1) 1); [|lia].
    apply round32_mono; [lia|].
    change (2 ^ 181) with (2 ^ 32 * 2 ^ 149). nia.
Qed.

Lemma of_ticks_mono (n1 n2 : Z) :
  1 <= n1 -> n1 <= n2 -> n2 < 2 ^ 32 ->
  units (F32.of_Z n1) <= units (F32.of_Z n2).
Proof.
  intros H1 H12 H2.
  assert (H32 : 2 ^ 32 < 2 ^ 100) by (apply Z.pow_lt_mono_r; lia).
  destruct (of_Z_value n1 ltac:(lia)) as [_ ->].
  destruct (of_Z_value n2 ltac:(lia)) as [_ ->].
  apply round32_mono; [lia|].
  assert (Hp : 0 < 2 ^ 149) by (apply pow2_pos; lia). nia.
Qed.

(** The quotient [(float) a / (float) b] of two tick counts. *)
Lemma ratio_value (a b : Z) :
  1 <= a < 2 ^ 32 -> 1 <= b < 2 ^ 32 ->
  wellformed (F32.div (F32.of_Z a) (F32.of_Z b)) /\
  units (F32.div (F32.of_Z a) (F32.of_Z b))
  = round32 (units (F32.of_Z a) * 2 ^ 149) (units (F32.of_Z b)) /\
  1 <= units (F32.div (F32.of_Z a) (F32.of_Z b)) /\
  (a <= b -> units (F32.div (F32.of_Z a) (F32.of_Z b)) <= 2 ^ 149).
Proof.
  intros Ha Hb.
  destruct (of_ticks_value a Ha) as [Hga [Halo Hahi]].
  destruct (of_ticks_value b Hb) as [Hgb [Hblo Hbhi]].
  assert (Hp149 : 0 < 2 ^ 149) by (apply pow2_pos; lia).
  assert (Hp100 : 2 ^ 181 <= 2 ^ 149 * 2 ^ 100) by (vm_compute; discriminate).
  assert (Hp100' : 0 < 2 ^ 100) by (apply pow2_pos; lia).
  assert (Hab1 : units (F32.of_Z b) <= units (F32.of_Z a) * 2 ^ 100).
  { apply Z.le_trans with (2 ^ 149 * 2 ^ 100); [lia|].
    apply Z.mul_le_mono_nonneg_r; lia. }
  assert (Hab2 : units (F32.of_Z a) <= units (F32.of_Z b) * 2 ^ 100).
  { apply Z.le_trans with (2 ^ 149 * 2 ^ 100); [lia|].
    apply Z.mul_le_mono_nonneg_r; lia. }
  destruct (div_value (F32.of_Z a) (F32.of_Z b) Hga Hgb
                      ltac:(lia) ltac:(lia) Hab1 Hab2) as [Hg Hv].
  split; [exact Hg|]. split; [exact Hv|]. rewrite Hv. split.
  - apply round32_pos; [lia|].
    assert (2 ^ 181 <= 2 ^ 149 * 2 ^ 149) by (vm_compute; discriminate). nia.
  - intros Hab. pose proof (of_ticks_mono a b ltac:(lia) Hab ltac:(lia)) as Hm.
    pose proof (round32_id (2 ^ 149) (units (F32.of_Z b))
                  (representable_pow2 149 ltac:(lia)) ltac:(lia)) as Hid.
    apply Z.le_trans with (round32 (2 ^ 149 * units (F32.of_Z b)) (units (F32.of_Z b)));
      [|lia].
    apply round32_mono; [lia|]. nia.
Qed.

Lemma ratio_mono (a1 a2 b : Z) :
  1 <= a1 -> a1 <= a2 -> a2 < 2 ^ 32 -> 1 <= b < 2 ^ 32 ->
  units (F32.div (F32.of_Z a1) (F32.of_Z b))
  <= units (F32.div (F32.of_Z a2) (F32.of_Z b)).
Proof.
  intros H1 H12 H2 Hb.
  destruct (ratio_value a1 b ltac:(lia) Hb) as (_ & -> & _).
  destruct (ratio_value a2 b ltac:(lia) Hb) as (_ & -> & _).
  destruct (of_ticks_value b Hb) as [_ [Hblo _]].
  assert (Hp149 : 0 < 2 ^ 149) by (apply pow2_pos; lia).
  apply round32_mono; [lia|].
  pose proof (of_ticks_mono a1 a2 H1 H12 H2). nia.
Qed.

End Binary32Rounding.

(** * Properties of the timer state machine *)

Section TimerStateMachine.

Import Rounding.
Import Timer.

Lemma valid_duration_In (table : list Z) (d : Z) :
  valid_duration table d = true <-> In d table.
Proof.
  induction table as [|x rest IH]; simpl.
  - split; [discriminate | tauto].
  - destruct (Z.eqb_spec x d) as [->|Hne].
    + split; auto.
    + rewrite IH. split; [auto | intros [Heq|Hin]; [contradiction | exact Hin]].
Qed.

Lemma timer_stop_idle (t : timer) :
  timer_state t = TIMER_STATE_IDLE -> timer_stop t = t.
Proof. unfold timer_stop. intros ->. reflexivity. Qed.

Lemma timer_stop_not_idle (t : timer) :
  timer_state t <> TIMER_STATE_IDLE -> timer_stop t = timer_init.
Proof.
  unfold timer_stop. intros H.
  destruct (timer_state t); [congruence | reflexivity ..].
Qed.

Lemma timer_stop_state (t : timer) :
  timer_state (timer_stop t) = TIMER_STATE_IDLE.
Proof. unfold timer_stop. destruct (timer_state t) eqn:E; simpl; auto. Qed.

(** What a successful [timer_start] leaves behind. *)
Lemma timer_start_preset (now d : Z) (t : timer) :
  In d timer_durations ->
  timer_start now d t =
    (true,
     mkTimer TIMER_STATE_RUNNING (U32.mul d 60) now
             (grace_period_start_ticks (timer_stop t))
             (alert_start_ticks (timer_stop t))
             F32.zero F32.zero).
Proof.
  intros Hin. unfold timer_start.
  apply valid_duration_In in Hin. rewrite Hin. reflexivity.
Qed.

(** A session started with an entry [d] of the table lasts [d * 60]
    seconds, all of which remain at elapsed time 0. *)
Lemma timer_start_preset_remaining (hz now d : Z) :
  In d timer_durations ->
  0 < hz ->
  0 <= now < U32.modulus ->
  let r := timer_start now d timer_init in
  fst r = true /\
  timer_get_state (snd r) = TIMER_STATE_RUNNING /\
  timer_duration_seconds (snd r) = d * 60 /\
  timer_get_remaining_seconds hz now (snd r) = d * 60.
Proof.
  intros Hin Hhz Hnow r. subst r.
  rewrite timer_start_preset by exact Hin. cbn [fst snd].
  assert (Hcases : d = 1 \/ d = 15 \/ d = 30 \/ d = 45 \/ d = 60).
  { cbv in Hin. intuition auto. }
  assert (Hd : U32.mul d 60 = d * 60).
  { unfold U32.mul, U32.u32, U32.modulus.
    destruct Hcases as [->|[->|[->|[->| ->]]]]; reflexivity. }
  assert (Hd60 : 60 <= d * 60 <= 3600) by lia.
  repeat split; try assumption.
  unfold timer_get_remaining_seconds, timer_get_state.
  cbn [timer_state timer_start_time_ticks timer_duration_seconds].
  rewrite Hd, u32_sub_diag.
  rewrite ticks_to_seconds_exact by (unfold U32.modulus; lia).
  rewrite Z.div_0_l by lia.
  destruct (Z.leb_spec (d * 60) 0); [lia|].
  unfold U32.sub. rewrite Z.sub_0_r.
  apply u32_small. unfold U32.modulus. lia.
Qed.

(** C1. The header documents the presets as 5, 15, 30, 45 and 60 minutes
    and names the first one [TIMER_DURATION_5MIN], but defines it as 1:
    the table maps buttons 0-4 to 1, 15, 30, 45 and 60 minutes, 5 is not
    an entry, and [timer_start (5)] from Idle returns [false] and stays
    Idle with no session duration set, where the claim has it succeed
    with 300 seconds remaining; a short press of button 0 starts a session
    of 60 seconds. *)
Theorem timer_start_five_minutes_refused :
  timer_durations = [1; 15; 30; 45; 60] /\
  valid_duration timer_durations 5 = false /\
  timer_start 0 5 timer_init = (false, timer_init) /\
  timer_get_state (snd (timer_start 0 5 timer_init)) = TIMER_STATE_IDLE /\
  timer_duration_seconds (snd (timer_start 0 5 timer_init)) = 0 /\
  timer_get_remaining_seconds 1000 0 (snd (timer_start 0 5 timer_init)) = 0 /\
  timer_duration_seconds (timer_handle_button 0 0 false timer_init) = 60.
Proof. repeat split; reflexivity. Qed.

(** A duration outside the table [timer_durations] is refused by
    [timer_start] in every state: the call returns [false] and the whole
    timer record is the one it was given. *)
Lemma timer_start_rejects_outside_table (now d : Z) (t : timer) :
  ~ In d timer_durations -> timer_start now d t = (false, t).
Proof.
  intros Hnotin. unfold timer_start.
  destruct (valid_duration timer_durations d) eqn:E; [|reflexivity].
  apply valid_duration_In in E. contradiction.
Qed.

(** C2. The presets are documented as 5, 15, 30, 45 and 60 minutes, so 1
    minute is not a preset and [timer_start (1)] should be refused with
    the state unchanged. Because [TIMER_DURATION_5MIN] is defined as 1
    (the defect that makes [timer_start (5)] fail), the table holds 1 in
    place of 5: [timer_start (1)]
    returns [true] from every state and leaves a Running session of 60
    seconds, where the claim has it rejected with the timer untouched.
    [timer_start (7)] is refused and leaves Idle, as the claim says. *)
Theorem timer_start_accepts_one_minute :
  ~ In 1 documented_durations /\
  timer_start 0 1 timer_init =
    (true, mkTimer TIMER_STATE_RUNNING 60 0 0 0 F32.zero F32.zero) /\
  timer_start 0 1 timer_init <> (false, timer_init) /\
  (forall (now : Z) (t : timer),
      fst (timer_start now 1 t) = true /\
      timer_get_state (snd (timer_start now 1 t)) = TIMER_STATE_RUNNING /\
      timer_duration_seconds (snd (timer_start now 1 t)) = 60 /\
      timer_start_time_ticks (snd (timer_start now 1 t)) = now) /\
  timer_start 0 7 timer_init = (false, timer_init).
Proof.
  split.
  - unfold documented_durations. cbn [In]. lia.
  - split; [reflexivity|]. split; [discriminate|].
    split; [|reflexivity].
    intros now t. repeat split.
Qed.

(** C6. [timer_handle_button] routes a press of button [b] (0-4) by
    state: in Idle a short press starts a session of the table duration
    of [b] and a long press changes nothing; in Running a short press
    cancels to Idle; in Completed, GracePeriod and Alerting every press,
    short or long, resets to Idle with duration, timestamps and progress
    cleared. *)
Theorem timer_handle_button_routes (now b : Z) (t : timer) :
  0 <= b < NUM_BUTTONS ->
  (timer_state t = TIMER_STATE_IDLE ->
     timer_handle_button now b false t =
       mkTimer TIMER_STATE_RUNNING
               (U32.mul (nth (Z.to_nat b) timer_durations 0) 60) now
               (grace_period_start_ticks t) (alert_start_ticks t)
               F32.zero F32.zero /\
     timer_handle_button now b true t = t) /\
  (timer_state t = TIMER_STATE_RUNNING ->
     timer_handle_button now b false t =
       mkTimer TIMER_STATE_IDLE 0 0 0 0 F32.zero F32.zero) /\
  (timer_state t = TIMER_STATE_COMPLETED \/
   timer_state t = TIMER_STATE_GRACE_PERIOD \/
   timer_state t = TIMER_STATE_ALERTING ->
     forall is_long_press,
       timer_handle_button now b is_long_press t =
         mkTimer TIMER_STATE_IDLE 0 0 0 0 F32.zero F32.zero).
Proof.
  intros Hb. unfold timer_handle_button.
  destruct (Z.leb_spec NUM_BUTTONS b) as [Hge|_]; [lia|].
  split; [|split].
  - intros Hidle. rewrite Hidle. cbn [negb]. split; [|reflexivity].
    assert (Hin : In (nth (Z.to_nat b) timer_durations 0) timer_durations).
    { apply nth_In. unfold NUM_BUTTONS in Hb. cbn [timer_durations length]. lia. }
    rewrite timer_start_preset by exact Hin.
    rewrite timer_stop_idle by exact Hidle. reflexivity.
  - intros Hrun. rewrite Hrun. cbn [negb].
    rewrite timer_stop_not_idle by congruence. reflexivity.
  - intros Hst is_long_press. unfold timer_reset.
    destruct Hst as [Hst|[Hst|Hst]]; rewrite Hst;
      rewrite timer_stop_not_idle by congruence; reflexivity.
Qed.

Lemma timer_handle_button_routes_witness :
  timer_handle_button 77 2 false timer_init =
    mkTimer TIMER_STATE_RUNNING 1800 77 0 0 F32.zero F32.zero /\
  timer_handle_button 77 2 true timer_init = timer_init.
Proof.
  assert (Hb : 0 <= 2 < NUM_BUTTONS) by (unfold NUM_BUTTONS; lia).
  destruct (timer_handle_button_routes 77 2 timer_init Hb) as [Hidle _].
  exact (Hidle eq_refl).
Defined.

(** The seconds comparison of the grace and alert windows, in ticks. *)
Lemma window_expired_iff (hz e : Z) :
  0 < hz -> 0 <= e -> e * 1000 < U32.modulus ->
  (60 <=? ticks_to_seconds hz e) = (60 * hz <=? e).
Proof.
  intros Hhz Hlo Hhi. rewrite ticks_to_seconds_exact by assumption.
  destruct (Z.leb_spec (60 * hz) e) as [Hge|Hlt].
  - apply Z.leb_le. apply Z.div_le_lower_bound; lia.
  - apply Z.leb_gt. apply Z.div_lt_upper_bound; lia.
Qed.

(** Beyond 2^32 / 1000 ticks the product of the seconds conversion wraps:
    at 1 kHz, 4294968 ticks (71 minutes) count as 0 seconds. *)
Lemma ticks_to_seconds_wraps : ticks_to_seconds 1000 4294968 = 0.
Proof. reflexivity. Qed.



(** No call moves the timer into [TIMER_STATE_GRACE_PERIOD]. *)
Lemma exec_not_grace_period (hz : Z) (c : call) (t : timer) :
  timer_state t <> TIMER_STATE_GRACE_PERIOD ->
  timer_state (exec hz c t) <> TIMER_STATE_GRACE_PERIOD.
Proof.
  intros Hinv.
  assert (Hstop : timer_state (timer_stop t) <> TIMER_STATE_GRACE_PERIOD)
    by (rewrite timer_stop_state; discriminate).
  assert (Hstart : forall now d,
             timer_state (snd (timer_start now d t))
             <> TIMER_STATE_GRACE_PERIOD).
  { intros now d. unfold timer_start.
    destruct (valid_duration timer_durations d); cbn; [discriminate|exact Hinv]. }
  destruct c as [now d| | |now|now b l]; cbn [exec].
  - apply Hstart.
  - exact Hstop.
  - exact Hstop.
  - unfold timer_update, running_target, smooth_progress.
    destruct (timer_state t) eqn:Est; try exact Hinv; try congruence.
    + destruct (_ <=? _); cbn; [discriminate | congruence].
    + destruct (_ <=? _); cbn; [discriminate | congruence].
    + destruct (_ <=? _); cbn; [discriminate | congruence].
  - unfold timer_handle_button, timer_reset.
    destruct (_ <=? _); [exact Hinv|].
    destruct (timer_state t) eqn:Est; try exact Hstop.
    + destruct (negb l); [apply Hstart | congruence].
    + destruct (negb l); [exact Hstop | congruence].
Qed.

(** C10. From [timer_init], whatever sequence of [timer_start],
    [timer_stop], [timer_reset], [timer_update] and [timer_handle_button]
    calls is made, with whatever arguments and tick values,
    [timer_get_state] never returns [TIMER_STATE_GRACE_PERIOD]. *)
Theorem grace_period_state_unreachable (hz : Z) (calls : list call) :
  timer_get_state (run hz calls timer_init) <> TIMER_STATE_GRACE_PERIOD.
Proof.
  unfold timer_get_state, run.
  assert (Hgen : forall t,
             timer_state t <> TIMER_STATE_GRACE_PERIOD ->
             timer_state (fold_left (fun acc c => exec hz c acc) calls t)
             <> TIMER_STATE_GRACE_PERIOD).
  { induction calls as [|c rest IH]; intros t Ht; cbn [fold_left].
    - exact Ht.
    - apply IH. apply exec_not_grace_period. exact Ht. }
  apply Hgen. cbn. discriminate.
Qed.

Lemma total_range (hz : Z) (t : timer) :
  0 <= total_duration_ticks hz t < 2 ^ 32.
Proof.
  unfold total_duration_ticks, Tick.pdMS_TO_TICKS, U32.div, U32.mul.
  pose proof (u32_range (U32.u32 (U32.u32 (timer_duration_seconds t * 1000))
                         * U32.u32 hz)) as Hr.
  unfold U32.modulus in Hr. split.
  - apply Z.div_pos; lia.
  - apply Z.div_lt_upper_bound; lia.
Qed.

Lemma elapsed_range (now start : Z) : 0 <= U32.sub now start < 2 ^ 32.
Proof. apply u32_sub_range. Qed.

Lemma timer_update_running (hz now : Z) (t : timer) :
  timer_state t = TIMER_STATE_RUNNING ->
  timer_update hz now t = smooth_progress (running_target hz now t).
Proof. unfold timer_update. intros ->. reflexivity. Qed.

(** One tick from a state that satisfies the invariant. *)
Lemma running_tick (hz last now : Z) (t : timer) :
  running_inv hz last t ->
  last <= U32.sub now (timer_start_time_ticks t) ->
  let t' := timer_update hz now t in
  wellformed (current_progress t') /\
  units (current_progress t) <= units (current_progress t') /\
  units (current_progress t') <= units F32.one /\
  (U32.sub now (timer_start_time_ticks t) < total_duration_ticks hz t ->
     running_inv hz (U32.sub now (timer_start_time_ticks t)) t') /\
  (total_duration_ticks hz t <= U32.sub now (timer_start_time_ticks t) ->
     timer_state t' = TIMER_STATE_COMPLETED /\
     target_progress t' = F32.one /\
     grace_period_start_ticks t' = now).
Proof.
  intros (Hst & Hgc & Hgt & Hct & Ht1 & Hmono) Hlast t'. subst t'.
  rewrite (timer_update_running hz now t Hst).
  pose proof (total_range hz t) as Htot.
  pose proof (elapsed_range now (timer_start_time_ticks t)) as Hel.
  unfold running_target.
  set (e := U32.sub now (timer_start_time_ticks t)) in *.
  set (total := total_duration_ticks hz t) in *.
  destruct (Z.leb_spec total e) as [Hdone|Hrun].
  - (* completion *)
    unfold smooth_progress.
    cbn [current_progress target_progress timer_state
         grace_period_start_ticks].
    destruct (smooth_between (current_progress t) F32.one Hgc wellformed_one
                ltac:(lia) ltac:(lia)) as (Hg' & Hlo & Hhi).
    unfold TRANSITION_SPEED.
    split; [exact Hg'|]. split; [exact Hlo|]. split; [exact Hhi|].
    split; [lia|]. intros _. auto.
  - (* still running *)
    set (e' := if e =? 0 then 1 else e).
    assert (He' : 1 <= e' <= total).
    { unfold e'. destruct (Z.eqb_spec e 0); lia. }
    destruct (ratio_value e' total ltac:(lia) ltac:(lia))
      as (Hgn & _ & Hn1 & Hn2).
    specialize (Hn2 ltac:(lia)).
    assert (Hold : units (target_progress t)
                   <= units (F32.div (F32.of_Z e') (F32.of_Z total))).
    { apply (Hmono e). lia. }
    unfold smooth_progress.
    cbn [current_progress target_progress timer_state timer_duration_seconds
         timer_start_time_ticks grace_period_start_ticks alert_start_ticks].
    destruct (smooth_between (current_progress t)
                (F32.div (F32.of_Z e') (F32.of_Z total)) Hgc Hgn
                ltac:(lia) ltac:(rewrite units_one; lia)) as (Hg' & Hlo & Hhi).
    unfold TRANSITION_SPEED.
    split; [exact Hg'|]. split; [exact Hlo|].
    split; [rewrite units_one; exact (Z.le_trans _ _ _ Hhi Hn2)|].
    split; [|lia]. intros _.
    unfold running_inv.
    cbn [current_progress target_progress timer_state].
    split; [exact Hst|]. split; [exact Hg'|]. split; [exact Hgn|].
    split; [exact Hhi|]. split; [rewrite units_one; exact Hn2|].
    intros e2 He2. unfold target_at, total_duration_ticks in He2 |- *.
    cbn [timer_duration_seconds] in He2 |- *.
    fold (total_duration_ticks hz t) in He2 |- *. fold total in He2 |- *.
    apply ratio_mono; try lia.
    + unfold e'. destruct (Z.eqb_spec e 0); destruct (Z.eqb_spec e2 0); lia.
    + destruct (Z.eqb_spec e2 0); lia.
Qed.

Lemma episode_inv (hz last : Z) (t : timer) :
  episode hz last t -> running_inv hz last t.
Proof.
  induction 1 as [now d t Hvalid|last now t Hep IH Hlast Hrun].
  - unfold timer_start. rewrite Hvalid. cbn [snd]. unfold running_inv.
    cbn [timer_state current_progress target_progress].
    repeat split; try exact I; try (cbn; lia).
    intros e _. apply units_nonneg.
  - destruct (running_tick hz last now t IH Hlast) as (_ & _ & _ & Hinv & _).
    apply Hinv. exact Hrun.
Qed.

Lemma timer_update_completed_progress (hz now : Z) (t : timer) :
  timer_state t = TIMER_STATE_COMPLETED ->
  timer_get_progress (timer_update hz now t) = F32.one.
Proof.
  intros Hst. unfold timer_update. rewrite Hst.
  destruct (_ <=? _); reflexivity.
Qed.

(** As long as the millisecond and tick products fit in 32 bits, the
    total that [timer_update] computes is the session duration in ticks. *)
Lemma total_duration_ticks_nowrap (hz : Z) (t : timer) :
  0 < hz ->
  0 <= timer_duration_seconds t ->
  timer_duration_seconds t * 1000 * hz < U32.modulus ->
  total_duration_ticks hz t = timer_duration_seconds t * hz.
Proof.
  intros Hhz Hd Hfit.
  unfold total_duration_ticks, Tick.pdMS_TO_TICKS, U32.div, U32.mul.
  destruct (Z.eq_dec (timer_duration_seconds t) 0) as [H0|H0].
  - rewrite H0. reflexivity.
  - assert (Hms : timer_duration_seconds t * 1000 < U32.modulus) by nia.
    assert (Hhz' : hz < U32.modulus) by nia.
    rewrite (u32_small (timer_duration_seconds t * 1000)) by lia.
    rewrite (u32_small (timer_duration_seconds t * 1000)) by lia.
    rewrite (u32_small hz) by lia.
    rewrite u32_small by lia.
    replace (timer_duration_seconds t * 1000 * hz)
      with (timer_duration_seconds t * hz * 1000) by ring.
    apply Z.div_mul. lia.
Qed.

(** Every state of a Running episode carries the duration of the preset
    it was started with. *)
Lemma episode_session (hz last : Z) (t : timer) :
  episode hz last t ->
  exists d, In d timer_durations /\ timer_duration_seconds t = d * 60.
Proof.
  induction 1 as [now d t Hvalid|last now t Hep IH Hlast Hrun].
  - exists d. apply valid_duration_In in Hvalid. split; [exact Hvalid|].
    rewrite timer_start_preset by exact Hvalid. cbn [snd timer_duration_seconds].
    assert (Hcases : d = 1 \/ d = 15 \/ d = 30 \/ d = 45 \/ d = 60).
    { cbv in Hvalid. intuition auto. }
    destruct Hcases as [->|[->|[->|[->| ->]]]]; reflexivity.
  - destruct IH as (d & Hin & Hd). exists d. split; [exact Hin|].
    destruct (episode_inv hz last t Hep) as (Hst & _).
    rewrite (timer_update_running hz now t Hst).
    unfold smooth_progress, running_target.
    destruct (_ <=? _); cbn [timer_duration_seconds]; exact Hd.
Qed.

(** At a tick rate of at most 1 kHz no preset duration wraps. *)
Lemma preset_fits (hz d : Z) :
  0 < hz <= 1000 -> In d timer_durations ->
  0 <= d * 60 /\ d * 60 * 1000 * hz < U32.modulus.
Proof.
  intros Hhz Hin.
  assert (Hcases : d = 1 \/ d = 15 \/ d = 30 \/ d = 45 \/ d = 60).
  { cbv in Hin. intuition auto. }
  unfold U32.modulus. change (2 ^ 32) with 4294967296.
  destruct Hcases as [->|[->|[->|[->| ->]]]]; lia.
Qed.

(** C3 (amended). Along a Running episode (a successful [timer_start]
    followed by ticks whose elapsed tick counts do not decrease, with no
    button event; tick rate at most 1 kHz), every [timer_update] leaves
    the progress reported by [timer_get_progress] at least as large as
    before and at most 1.0. The state stays Running while the elapsed
    ticks are below the session duration in ticks,
    [timer_duration_seconds * hz]; at the tick that finds
    [elapsed >= duration] the state becomes Completed and the target
    progress becomes 1.0, while the reported progress, which is smoothed,
    becomes [current + (1.0 - current) * 0.02] (clamped to [0, 1]): it
    moves 2% of the way to 1.0 on that tick, and is exactly 1.0 from the
    next tick on. The session duration is that of a preset of the
    table. *)
Theorem progress_monotone_while_running (hz last now : Z) (t : timer) :
  0 < hz <= 1000 ->
  episode hz last t ->
  last <= U32.sub now (timer_start_time_ticks t) ->
  let elapsed := U32.sub now (timer_start_time_ticks t) in
  let duration_ticks := timer_duration_seconds t * hz in
  let t' := timer_update hz now t in
  (exists d, In d timer_durations /\ timer_duration_seconds t = d * 60) /\
  SFleb (timer_get_progress t) (timer_get_progress t') = true /\
  SFleb (timer_get_progress t') F32.one = true /\
  (elapsed < duration_ticks ->
     timer_get_state t' = TIMER_STATE_RUNNING) /\
  (duration_ticks <= elapsed ->
     timer_get_state t' = TIMER_STATE_COMPLETED /\
     target_progress t' = F32.one /\
     timer_get_progress t' =
       F32.clamp01
         (F32.add (timer_get_progress t)
                  (F32.mul (F32.sub F32.one (timer_get_progress t))
                           F32.c0_02)) /\
     forall now', timer_get_progress (timer_update hz now' t') = F32.one).
Proof.
  intros Hhz Hep Hlast elapsed duration_ticks t'.
  pose proof (episode_inv hz last t Hep) as Hinv.
  destruct (episode_session hz last t Hep) as (d & Hin & Hd).
  destruct (preset_fits hz d Hhz Hin) as [Hd0 Hfit].
  rewrite <- Hd in Hd0, Hfit.
  pose proof (total_duration_ticks_nowrap hz t ltac:(lia) Hd0 Hfit) as Htot.
  fold duration_ticks in Htot.
  destruct (running_tick hz last now t Hinv Hlast)
    as (Hg' & Hlo & Hhi & Hrun & Hdone).
  fold t' in Hg', Hlo, Hhi, Hrun, Hdone. fold elapsed in Hrun, Hdone.
  rewrite Htot in Hrun, Hdone.
  destruct Hinv as (Hst & Hgc & _).
  unfold timer_get_progress, timer_get_state.
  split; [exists d; split; [exact Hin | exact Hd]|].
  split; [rewrite leb_value by assumption; apply Z.leb_le; exact Hlo|].
  split; [rewrite leb_value by (assumption || exact wellformed_one);
          apply Z.leb_le; exact Hhi|].
  split.
  - intros Hlt. destruct (Hrun Hlt) as (Hst' & _). exact Hst'.
  - intros Hge. destruct (Hdone Hge) as (Hst' & Htgt & _).
    split; [exact Hst'|]. split; [exact Htgt|].
    split.
    + unfold t'. rewrite (timer_update_running hz now t Hst).
      unfold smooth_progress, running_target. rewrite Htot.
      fold elapsed.
      destruct (Z.leb_spec duration_ticks elapsed); [|lia].
      reflexivity.
    + intros now'. apply timer_update_completed_progress. exact Hst'.
Qed.

Lemma progress_monotone_while_running_witness :
  let t0 := snd (timer_start 100 15 timer_init) in
  let t1 := timer_update 1000 150 t0 in
  let t2 := timer_update 1000 250 t1 in
  let t3 := timer_update 1000 900100 t1 in
  SFleb (timer_get_progress t1) (timer_get_progress t2) = true /\
  timer_get_state t2 = TIMER_STATE_RUNNING /\
  timer_get_state t3 = TIMER_STATE_COMPLETED /\
  timer_get_progress t3 =
    F32.clamp01
      (F32.add (timer_get_progress t1)
               (F32.mul (F32.sub F32.one (timer_get_progress t1))
                        F32.c0_02)).
Proof.
  intros t0 t1 t2 t3.
  assert (Hhz : 0 < 1000 <= 1000) by lia.
  assert (H0 : episode 1000 0 t0) by (apply episode_start; reflexivity).
  assert (H1 : episode 1000 50 t1).
  { apply (episode_tick 1000 0 150 t0 H0); vm_compute; [discriminate|reflexivity]. }
  assert (Hlast : 50 <= U32.sub 250 (timer_start_time_ticks t1))
    by (vm_compute; discriminate).
  assert (Hlast3 : 50 <= U32.sub 900100 (timer_start_time_ticks t1))
    by (vm_compute; discriminate).
  destruct (progress_monotone_while_running 1000 50 250 t1 Hhz H1 Hlast)
    as (_ & Hmono & _ & Hrun & _).
  destruct (progress_monotone_while_running 1000 50 900100 t1 Hhz H1 Hlast3)
    as (_ & _ & _ & _ & Hdone).
  destruct Hdone as (Hst3 & _ & Heq3 & _); [vm_compute; discriminate|].
  split; [exact Hmono|]. split; [apply Hrun; vm_compute; reflexivity|].
  split; [exact Hst3 | exact Heq3].
Defined.

(** C3 as stated fails: after a start of 15 minutes at tick 100 (1 kHz)
    and a tick one second before the end, the tick at the end finds the
    duration elapsed and makes the state Completed, yet the reported
    progress is below 1.0, not 1.0. *)
Lemma progress_below_one_at_completion :
  let t0 := snd (timer_start 100 15 timer_init) in
  let t1 := timer_update 1000 899100 t0 in
  let t2 := timer_update 1000 900100 t1 in
  timer_get_state t1 = TIMER_STATE_RUNNING /\
  total_duration_ticks 1000 t1 <= U32.sub 900100 (timer_start_time_ticks t1) /\
  timer_get_state t2 = TIMER_STATE_COMPLETED /\
  timer_get_progress t2 <> F32.one /\
  SFltb (timer_get_progress t2) F32.one = true.
Proof.
  vm_compute. repeat split; discriminate.
Qed.

(** With a tick rate of at most 1 kHz the total of a preset session is its
    duration in ticks: nothing wraps. *)
Lemma total_duration_ticks_preset (hz now d : Z) (t : timer) :
  0 < hz <= 1000 ->
  In d timer_durations ->
  total_duration_ticks hz (snd (timer_start now d t)) = d * 60 * hz.
Proof.
  intros Hhz Hin. rewrite timer_start_preset by exact Hin. cbn [snd].
  assert (Hcases : d = 1 \/ d = 15 \/ d = 30 \/ d = 45 \/ d = 60).
  { cbv in Hin. intuition auto. }
  unfold total_duration_ticks, Tick.pdMS_TO_TICKS, U32.div, U32.mul.
  cbn [timer_duration_seconds].
  assert (Hms : U32.u32 (U32.u32 (U32.u32 (d * 60) * 1000)) = d * 60000).
  { destruct Hcases as [->|[->|[->|[->| ->]]]]; reflexivity. }
  rewrite Hms, (u32_small hz) by (unfold U32.modulus; lia).
  rewrite u32_small by (unfold U32.modulus; lia).
  replace (d * 60000 * hz) with (d * 60 * hz * 1000) by ring.
  apply Z.div_mul. lia.
Qed.

(** C4. On every [timer_update] tick in state Running, with the session
    duration counted in ticks, [timer_duration_seconds * hz] (the
    millisecond and tick products of the conversion fit in 32 bits for
    every preset at up to 1 kHz): if the elapsed ticks have reached the
    duration, the state becomes Completed and [grace_period_start_ticks]
    is the current tick count; otherwise the state stays Running and the
    target progress is the float quotient elapsed / duration with an
    elapsed count of 0 replaced by 1, which is strictly greater than 0. *)
Theorem running_tick_target (hz now : Z) (t : timer) :
  0 < hz ->
  0 <= timer_duration_seconds t ->
  timer_duration_seconds t * 1000 * hz < U32.modulus ->
  timer_state t = TIMER_STATE_RUNNING ->
  let elapsed := U32.sub now (timer_start_time_ticks t) in
  let duration_ticks := timer_duration_seconds t * hz in
  let t' := timer_update hz now t in
  (duration_ticks <= elapsed ->
     timer_get_state t' = TIMER_STATE_COMPLETED /\
     grace_period_start_ticks t' = now) /\
  (elapsed < duration_ticks ->
     timer_get_state t' = TIMER_STATE_RUNNING /\
     target_progress t' =
       F32.div (F32.of_Z (if elapsed =? 0 then 1 else elapsed))
               (F32.of_Z duration_ticks) /\
     F32.gtb (target_progress t') F32.zero = true).
Proof.
  intros Hhz Hd0 Hfit Hst elapsed duration_ticks t'. subst t'.
  rewrite (timer_update_running hz now t Hst).
  pose proof (total_range hz t) as Htot.
  pose proof (total_duration_ticks_nowrap hz t Hhz Hd0 Hfit) as Heq.
  fold duration_ticks in Heq.
  pose proof (elapsed_range now (timer_start_time_ticks t)) as Hel.
  fold elapsed in Hel.
  unfold running_target, smooth_progress, timer_get_state. fold elapsed.
  rewrite Heq in *.
  destruct (Z.leb_spec duration_ticks elapsed) as [Hdone|Hrun];
    cbn [timer_state target_progress grace_period_start_ticks].
  - split; [auto|lia].
  - split; [lia|]. intros _. split; [exact Hst|]. split; [reflexivity|].
    set (e' := if elapsed =? 0 then 1 else elapsed).
    assert (He' : 1 <= e' <= duration_ticks).
    { unfold e'. destruct (Z.eqb_spec elapsed 0); lia. }
    destruct (ratio_value e' duration_ticks
                          ltac:(lia) ltac:(lia)) as (Hg & _ & Hpos & _).
    unfold F32.gtb. rewrite (ltb_value F32.zero _ wellformed_zero Hg).
    change (units F32.zero) with 0. apply Z.ltb_lt. lia.
Qed.

Lemma running_tick_target_witness :
  let t0 := snd (timer_start 100 15 timer_init) in
  (timer_get_state (timer_update 1000 100 t0) = TIMER_STATE_RUNNING /\
   target_progress (timer_update 1000 100 t0)
     = F32.div (F32.of_Z 1) (F32.of_Z 900000) /\
   F32.gtb (target_progress (timer_update 1000 100 t0)) F32.zero = true) /\
  timer_get_state (timer_update 1000 900099 t0) = TIMER_STATE_RUNNING /\
  timer_get_state (timer_update 1000 900100 t0) = TIMER_STATE_COMPLETED /\
  grace_period_start_ticks (timer_update 1000 900100 t0) = 900100.
Proof.
  intros t0.
  assert (Hhz : 0 < 1000) by lia.
  assert (Hd0 : 0 <= timer_duration_seconds t0) by (vm_compute; discriminate).
  assert (Hfit : timer_duration_seconds t0 * 1000 * 1000 < U32.modulus)
    by (vm_compute; reflexivity).
  split; [|split].
  - destruct (running_tick_target 1000 100 t0 Hhz Hd0 Hfit eq_refl)
      as [_ Hrun].
    apply Hrun. vm_compute. reflexivity.
  - destruct (running_tick_target 1000 900099 t0 Hhz Hd0 Hfit eq_refl)
      as [_ Hrun].
    apply Hrun. vm_compute. reflexivity.
  - destruct (running_tick_target 1000 900100 t0 Hhz Hd0 Hfit eq_refl)
      as [Hdone _].
    apply Hdone. vm_compute. discriminate.
Defined.

End TimerStateMachine.

(** * Properties of the button classifier *)

Section ButtonClassifier.

Import Button.

Variable hz : Z.

Lemma emit_length (cb : bool) (i : nat) (ty : button_press_type_t) :
  (length (emit cb i ty) <= 1)%nat.
Proof. destruct cb; simpl; lia. Qed.

Lemma events_of_emit_same (cb : bool) (i : nat) (ty : button_press_type_t) :
  events_of i (emit cb i ty) = emit cb i ty.
Proof.
  destruct cb; simpl; [|reflexivity].
  unfold events_of. simpl. rewrite Nat.eqb_refl. reflexivity.
Qed.

Lemma events_of_emit_other (cb : bool) (i j : nat)
      (ty : button_press_type_t) :
  j <> i -> events_of i (emit cb j ty) = [].
Proof.
  intros Hne. destruct cb; simpl; [|reflexivity].
  unfold events_of. simpl.
  destruct (Nat.eqb_spec j i); [contradiction|reflexivity].
Qed.

Lemma events_of_app (i : nat) (l1 l2 : list event) :
  events_of i (l1 ++ l2) = events_of i l1 ++ events_of i l2.
Proof. unfold events_of. apply List.filter_app. Qed.

Lemma edge_on_index (i : nat) (ev : gpio_event_t) (now : Z) :
  edge_on i (Edge ev now) = true ->
  find_button_index (gpio_num ev) = Some i.
Proof.
  simpl. destruct (find_button_index (gpio_num ev)) as [j|]; [|discriminate].
  intros H. apply Nat.eqb_eq in H. congruence.
Qed.

Lemma not_edge_on_index (i : nat) (ev : gpio_event_t) (now : Z) :
  edge_on i (Edge ev now) = false ->
  find_button_index (gpio_num ev) <> Some i.
Proof.
  simpl. intros H Hfind. rewrite Hfind, Nat.eqb_refl in H. discriminate.
Qed.

(** One iteration of [button_task] calls the callback at most once. *)
Lemma button_task_step_at_most_one (ev : gpio_event_t) (now : Z)
      (st : buttons) :
  (length (button_task_step hz ev now st).2 <= 1)%nat.
Proof.
  unfold button_task_step.
  destruct (find_button_index (gpio_num ev)) as [idx|]; [|simpl; lia].
  destruct (button_states st !! idx) as [btn|]; [|simpl; lia].
  destruct (last_debounce_time st !! idx) as [last|]; [|simpl; lia].
  destruct (_ <? _); [|simpl; lia].
  destruct (level ev =? 1); [simpl; lia|].
  destruct (pressed btn); [|simpl; lia].
  cbn [snd]. destruct (negb (event_sent btn)); [apply emit_length|simpl; lia].
Qed.

(** An edge inside the debounce window changes nothing and emits
    nothing. *)
Lemma button_task_step_ignored (i : nat) (ev : gpio_event_t) (now last : Z)
      (st : buttons) :
  edge_on i (Edge ev now) = true ->
  last_debounce_time st !! i = Some last ->
  U32.sub now last <= Tick.pdMS_TO_TICKS hz DEBOUNCE_MS ->
  button_task_step hz ev now st = (st, []).
Proof.
  intros Hon Hlast Hwin. apply edge_on_index in Hon.
  unfold button_task_step. rewrite Hon, Hlast.
  destruct (button_states st !! i) as [btn|]; [|reflexivity].
  destruct (Z.ltb_spec (Tick.pdMS_TO_TICKS hz DEBOUNCE_MS) (U32.sub now last));
    [lia | reflexivity].
Qed.

(** An edge is either dropped without a trace or becomes the last
    accepted edge of its button. *)
Lemma button_task_step_cases (i : nat) (ev : gpio_event_t) (now : Z)
      (st : buttons) :
  edge_on i (Edge ev now) = true ->
  button_task_step hz ev now st = (st, []) \/
  last_debounce_time (button_task_step hz ev now st).1 !! i = Some now.
Proof.
  intros Hon. apply edge_on_index in Hon.
  unfold button_task_step. rewrite Hon.
  destruct (button_states st !! i) as [btn|]; [|left; reflexivity].
  destruct (last_debounce_time st !! i) as [last|] eqn:Hlast;
    [|left; reflexivity].
  destruct (_ <? _); [|left; reflexivity].
  right. apply lookup_lt_Some in Hlast.
  destruct (level ev =? 1); [|destruct (pressed btn)]; cbn [fst last_debounce_time];
    apply list_lookup_insert_eq; exact Hlast.
Qed.

(** Neither a sweep nor an edge of another button touches the debounce
    stamp of button [i]. *)
Lemma step_debounce_frame (i : nat) (a : action) (st : buttons) :
  edge_on i a = false ->
  last_debounce_time (step hz a st).1 !! i = last_debounce_time st !! i.
Proof.
  destruct a as [ev now|now]; intros Hoff; [|reflexivity].
  apply not_edge_on_index in Hoff.
  cbn [step]. unfold button_task_step.
  destruct (find_button_index (gpio_num ev)) as [j|]; [|reflexivity].
  assert (Hne : j <> i) by congruence.
  destruct (button_states st !! j) as [btn|]; [|reflexivity].
  destruct (last_debounce_time st !! j) as [last|]; [|reflexivity].
  destruct (_ <? _); [|reflexivity].
  destruct (level ev =? 1); [|destruct (pressed btn)]; cbn [fst last_debounce_time];
    apply list_lookup_insert_ne; exact Hne.
Qed.

Lemma run_debounce_frame (i : nat) (acts : list action) (st : buttons) :
  Forall (fun a => edge_on i a = false) acts ->
  last_debounce_time (run hz acts st).1 !! i = last_debounce_time st !! i.
Proof.
  intros Hall. revert st.
  induction Hall as [|a rest Ha _ IH]; intros st; cbn [run fst].
  - reflexivity.
  - rewrite IH. apply step_debounce_frame. exact Ha.
Qed.

Lemma run_app (l1 l2 : list action) (st : buttons) :
  run hz (l1 ++ l2) st =
    ((run hz l2 (run hz l1 st).1).1,
     (run hz l1 st).2 ++ (run hz l2 (run hz l1 st).1).2).
Proof.
  revert st. induction l1 as [|a rest IH]; intros st; cbn [run app fst snd].
  - destruct (run hz l2 st); reflexivity.
  - rewrite IH. cbn [fst snd]. rewrite app_assoc. reflexivity.
Qed.

(** The debounce test of [button_task] in plain terms: ticks are more
    than [pdMS_TO_TICKS (DEBOUNCE_MS)] apart exactly when more than 50 ms
    lie between them. *)
Lemma debounce_test_ticks (s : Z) :
  0 < hz -> 50 * hz < U32.modulus ->
  (Tick.pdMS_TO_TICKS hz DEBOUNCE_MS <? s) = (50 * hz <? s * 1000).
Proof.
  intros Hhz Hfit.
  unfold Tick.pdMS_TO_TICKS, DEBOUNCE_MS, U32.div, U32.mul.
  assert (Hm : U32.modulus = 4294967296) by reflexivity.
  rewrite (u32_small 50) by lia.
  rewrite (u32_small hz) by lia.
  rewrite u32_small by lia.
  destruct (Z.ltb_spec (50 * hz) (s * 1000)) as [Hlt|Hge].
  - apply Z.ltb_lt. apply Z.div_lt_upper_bound; lia.
  - apply Z.ltb_ge. apply Z.div_le_lower_bound; lia.
Qed.

Lemma debounce_test_passed (s : Z) :
  0 < hz -> 50 * hz < U32.modulus ->
  50 * hz < s * 1000 ->
  Tick.pdMS_TO_TICKS hz DEBOUNCE_MS < s.
Proof.
  intros Hhz Hfit Hs. apply Z.ltb_lt.
  rewrite debounce_test_ticks by assumption. apply Z.ltb_lt. exact Hs.
Qed.

(** An edge that passes the debounce test becomes the reference of the
    next test, whatever its level. *)
Lemma accepted_edge_stamped (i : nat) (ev : gpio_event_t) (now last : Z)
      (st : buttons) :
  0 < hz -> 50 * hz < U32.modulus ->
  edge_on i (Edge ev now) = true ->
  is_Some (button_states st !! i) ->
  last_debounce_time st !! i = Some last ->
  50 * hz < U32.sub now last * 1000 ->
  last_debounce_time (button_task_step hz ev now st).1 !! i = Some now.
Proof.
  intros Hhz Hfit Hon [btn Hbtn] Hlast Hacc. apply edge_on_index in Hon.
  unfold button_task_step. rewrite Hon, Hbtn, Hlast.
  rewrite debounce_test_ticks by assumption.
  destruct (Z.ltb_spec (50 * hz) (U32.sub now last * 1000)); [|lia].
  apply lookup_lt_Some in Hlast.
  destruct (level ev =? 1); [|destruct (pressed btn)];
    cbn [fst last_debounce_time];
    apply list_lookup_insert_eq; exact Hlast.
Qed.

(** An edge at most 50 ms after the reference of its button is dropped. *)
Lemma edge_within_window_dropped (i : nat) (ev : gpio_event_t)
      (now last : Z) (st : buttons) :
  0 < hz -> 50 * hz < U32.modulus ->
  edge_on i (Edge ev now) = true ->
  last_debounce_time st !! i = Some last ->
  U32.sub now last * 1000 <= 50 * hz ->
  button_task_step hz ev now st = (st, []).
Proof.
  intros Hhz Hfit Hon Hlast Hwin.
  apply (button_task_step_ignored i ev now last st Hon Hlast).
  apply Z.ltb_ge. rewrite debounce_test_ticks by assumption.
  apply Z.ltb_ge. exact Hwin.
Qed.

(** Sweeps, edges of other buttons and edges of [i] that come at most
    50 ms after tick [t1] leave [t1] the reference of button [i]. *)
Lemma run_reference_kept (i : nat) (t1 : Z) (mid : list action) :
  0 < hz -> 50 * hz < U32.modulus ->
  forallb (other_or_within hz 50 i t1) mid = true ->
  forall st,
    last_debounce_time st !! i = Some t1 ->
    last_debounce_time (run hz mid st).1 !! i = Some t1.
Proof.
  intros Hhz Hfit.
  induction mid as [|a rest IH]; intros Hall st Hst; cbn [run fst].
  - exact Hst.
  - cbn [forallb] in Hall. apply andb_true_iff in Hall.
    destruct Hall as [Ha Hrest].
    apply (IH Hrest). unfold other_or_within in Ha.
    destruct (edge_on i a) eqn:Hon.
    + destruct a as [ev now|now]; [|discriminate Hon].
      cbn [negb orb] in Ha. apply negb_true_iff, Z.ltb_ge in Ha.
      cbn [step].
      rewrite (edge_within_window_dropped i ev now t1 st Hhz Hfit Hon Hst Ha).
      exact Hst.
    + rewrite step_debounce_frame by exact Hon. exact Hst.
Qed.

(** C8. At [hz] ticks per second, let two edges of button [i] come at
    ticks [t1] and [t2] at most 50 ms apart ([(t2 - t1) * 1000 <= 50 *
    hz]), with sweeps, edges of other buttons and further edges of [i]
    within 50 ms of [t1] between them. Then the two edges make the
    callback fire at most once between them. If the first edge is
    accepted (more than 50 ms after the reference [last] of the button),
    it becomes the reference, it still is when the second edge arrives,
    and the second edge is ignored entirely: the classifier state (button
    state, press start, reference) is returned as it was, and nothing is
    emitted. If the first edge is itself within 50 ms of [last], it is
    the one that is ignored entirely. *)
Theorem debounce_at_most_one_event (i : nat) (ev1 ev2 : gpio_event_t)
        (t1 t2 last : Z) (mid : list action) (st : buttons) :
  0 < hz -> 50 * hz < U32.modulus ->
  edge_on i (Edge ev1 t1) = true ->
  edge_on i (Edge ev2 t2) = true ->
  is_Some (button_states st !! i) ->
  last_debounce_time st !! i = Some last ->
  forallb (other_or_within hz 50 i t1) mid = true ->
  U32.sub t2 t1 * 1000 <= 50 * hz ->
  let r1 := step hz (Edge ev1 t1) st in
  let rm := run hz mid r1.1 in
  let r2 := step hz (Edge ev2 t2) rm.1 in
  (length r1.2 + length r2.2 <= 1)%nat /\
  (50 * hz < U32.sub t1 last * 1000 ->
     last_debounce_time r1.1 !! i = Some t1 /\
     last_debounce_time rm.1 !! i = Some t1 /\
     r2 = (rm.1, [])) /\
  (U32.sub t1 last * 1000 <= 50 * hz -> r1 = (st, [])).
Proof.
  intros Hhz Hfit Hon1 Hon2 Hbtn Hlast Hmid Hwin r1 rm r2.
  assert (Hacc : 50 * hz < U32.sub t1 last * 1000 ->
                 last_debounce_time r1.1 !! i = Some t1 /\
                 last_debounce_time rm.1 !! i = Some t1 /\
                 r2 = (rm.1, [])).
  { intros Hpass.
    assert (H1 : last_debounce_time r1.1 !! i = Some t1)
      by (apply (accepted_edge_stamped i ev1 t1 last st); assumption).
    assert (Hm : last_debounce_time rm.1 !! i = Some t1)
      by (apply run_reference_kept; assumption).
    split; [exact H1|]. split; [exact Hm|].
    subst r2. cbn [step].
    apply (edge_within_window_dropped i ev2 t2 t1); assumption. }
  assert (Hdrop : U32.sub t1 last * 1000 <= 50 * hz -> r1 = (st, [])).
  { intros Hin. subst r1. cbn [step].
    apply (edge_within_window_dropped i ev1 t1 last); assumption. }
  split; [|split; assumption].
  destruct (Z.lt_ge_cases (50 * hz) (U32.sub t1 last * 1000)) as [Hpass|Hin].
  - destruct (Hacc Hpass) as (_ & _ & Hr2). rewrite Hr2.
    cbn [snd length]. rewrite Nat.add_0_r.
    apply button_task_step_at_most_one.
  - rewrite (Hdrop Hin). cbn [snd length].
    apply button_task_step_at_most_one.
Qed.

(** ** The long-press sweep *)

Lemma check_button_events_other (now : Z) (cb : bool) (i j : nat)
      (btn : button_state_t) :
  j <> i -> events_of i (check_button hz now cb j btn).2 = [].
Proof.
  intros Hne. unfold check_button.
  destruct (pressed btn && negb (event_sent btn)); [|reflexivity].
  destruct (_ <=? _); [|reflexivity].
  cbn [snd]. apply events_of_emit_other. exact Hne.
Qed.

Lemma check_button_events_same (now : Z) (cb : bool) (i : nat)
      (btn : button_state_t) :
  events_of i (check_button hz now cb i btn).2
  = (check_button hz now cb i btn).2.
Proof.
  unfold check_button.
  destruct (pressed btn && negb (event_sent btn)); [|reflexivity].
  destruct (_ <=? _); [|reflexivity].
  cbn [snd]. apply events_of_emit_same.
Qed.

(** The sweep treats every button on its own: entry [k] of the array
    and the events of button [i0 + k] are those of the loop body for that
    button. *)
Lemma check_from_lookup (now : Z) (cb : bool) (btns : list button_state_t) :
  forall (i0 k : nat) (btn : button_state_t),
    btns !! k = Some btn ->
    (check_from hz now cb i0 btns).1 !! k
      = Some (check_button hz now cb (i0 + k) btn).1 /\
    events_of (i0 + k) (check_from hz now cb i0 btns).2
      = (check_button hz now cb (i0 + k) btn).2.
Proof.
  induction btns as [|b rest IH]; intros i0 k btn Hk; [discriminate|].
  cbn [check_from fst snd]. rewrite events_of_app.
  destruct k as [|k].
  - injection Hk as ->. rewrite Nat.add_0_r. split; [reflexivity|].
    rewrite check_button_events_same.
    assert (Hrest : forall l j, (i0 < j)%nat ->
               events_of i0 (check_from hz now cb j l).2 = []).
    { clear. induction l as [|b l IHl]; intros j Hj; [reflexivity|].
      cbn [check_from snd]. rewrite events_of_app.
      rewrite check_button_events_other by lia.
      rewrite IHl by lia. reflexivity. }
    rewrite Hrest by lia. apply app_nil_r.
  - cbn in Hk. destruct (IH (S i0) k btn Hk) as [Hst Hev].
    replace (i0 + S k)%nat with (S i0 + k)%nat by lia.
    split; [exact Hst|].
    rewrite check_button_events_other by lia. exact Hev.
Qed.

Lemma step_callback (a : action) (st : buttons) :
  callback_registered (step hz a st).1 = callback_registered st.
Proof.
  destruct a as [ev now|now]; [|reflexivity].
  cbn [step]. unfold button_task_step.
  destruct (find_button_index (gpio_num ev)) as [j|]; [|reflexivity].
  destruct (button_states st !! j) as [btn|]; [|reflexivity].
  destruct (last_debounce_time st !! j) as [last|]; [|reflexivity].
  destruct (_ <? _); [|reflexivity].
  destruct (level ev =? 1); [|destruct (pressed btn)]; reflexivity.
Qed.

Lemma step_local (i : nat) (a : action) (st : buttons)
      (btn : button_state_t) :
  edge_on i a = false ->
  button_states st !! i = Some btn ->
  button_states (step hz a st).1 !! i
    = Some (local_step hz (callback_registered st) i a btn).1 /\
  events_of i (step hz a st).2
    = (local_step hz (callback_registered st) i a btn).2.
Proof.
  intros Hoff Hbtn. destruct a as [ev now|now]; cbn [step local_step].
  - apply not_edge_on_index in Hoff. unfold button_task_step.
    destruct (find_button_index (gpio_num ev)) as [j|]; [|split; auto].
    assert (Hne : j <> i) by congruence.
    destruct (button_states st !! j) as [bj|]; [|split; auto].
    destruct (last_debounce_time st !! j) as [last|]; [|split; auto].
    destruct (_ <? _); [|split; auto].
    destruct (level ev =? 1); [|destruct (pressed bj)];
      cbn [fst snd button_states].
    + split; [|reflexivity].
      rewrite list_lookup_insert_ne by exact Hne. exact Hbtn.
    + split.
      * rewrite list_lookup_insert_ne by exact Hne. exact Hbtn.
      * destruct (negb (event_sent bj)); [|reflexivity].
        apply events_of_emit_other. exact Hne.
    + split; [exact Hbtn | reflexivity].
  - unfold button_long_press_check. cbn [fst snd button_states].
    apply (check_from_lookup now (callback_registered st)
                             (button_states st) 0%nat i btn Hbtn).
Qed.

(** Once the long press has been reported, the held button is silent
    until it is released. *)
Lemma run_held_sent (i : nat) (start : Z) (acts : list action) :
  Forall (fun a => edge_on i a = false) acts ->
  forall st,
    held i start true st ->
    held i start true (run hz acts st).1 /\
    events_of i (run hz acts st).2 = [].
Proof.
  induction 1 as [|a rest Ha _ IH]; intros st Hheld; cbn [run fst snd].
  - split; [exact Hheld | reflexivity].
  - destruct Hheld as (btn & Hbtn & Hp & Hs & He).
    destruct (step_local i a st btn Ha Hbtn) as [Hst Hev].
    assert (Hloc : local_step hz (callback_registered st) i a btn = (btn, [])).
    { destruct a as [ev now|now]; [reflexivity|].
      cbn [local_step]. unfold check_button. rewrite Hp, He. reflexivity. }
    rewrite Hloc in Hst, Hev. cbn [fst snd] in Hst, Hev.
    destruct (IH (step hz a st).1) as [Hheld' Hev'].
    { exists btn. auto. }
    split; [exact Hheld'|].
    rewrite events_of_app, Hev, Hev'. reflexivity.
Qed.

(** While the button is held and nothing has been reported yet, the
    sweeps report exactly one long press, at the first sweep that finds
    the threshold crossed, or nothing if no sweep does. *)
Lemma run_held_unsent (i : nat) (start : Z) (acts : list action) :
  Forall (fun a => edge_on i a = false) acts ->
  forall st,
    callback_registered st = true ->
    held i start false st ->
    if existsb (long_press_seen hz start) acts then
      held i start true (run hz acts st).1 /\
      events_of i (run hz acts st).2 = [(i, BUTTON_PRESS_LONG)]
    else
      held i start false (run hz acts st).1 /\
      events_of i (run hz acts st).2 = [].
Proof.
  induction 1 as [|a rest Ha Hrest IH]; intros st Hcb Hheld;
    cbn [run fst snd existsb].
  - split; [exact Hheld | reflexivity].
  - destruct Hheld as (btn & Hbtn & Hp & Hs & He).
    destruct (step_local i a st btn Ha Hbtn) as [Hst Hev].
    rewrite events_of_app, Hev.
    destruct (long_press_seen hz start a) eqn:Hseen; cbn [orb].
    + destruct a as [ev now|now]; [discriminate|].
      cbn [long_press_seen] in Hseen.
      cbn [local_step] in Hst, Hev |- *. unfold check_button in Hst, Hev |- *.
      rewrite Hp, He, Hs, Hseen in *. cbn [andb negb fst snd] in *.
      destruct (run_held_sent i start rest Hrest
                              (step hz (Sweep now) st).1) as [Hheld' Hev'].
      { eexists. split; [exact Hst|]. auto. }
      split; [exact Hheld'|].
      rewrite Hev', Hcb. reflexivity.
    + assert (Hloc : local_step hz (callback_registered st) i a btn = (btn, [])).
      { destruct a as [ev now|now]; [reflexivity|].
        cbn [long_press_seen] in Hseen.
        cbn [local_step]. unfold check_button.
        rewrite Hp, He, Hs, Hseen. reflexivity. }
      rewrite Hloc in Hst |- *. cbn [fst snd app] in Hst |- *.
      apply IH.
      * rewrite step_callback. exact Hcb.
      * exists btn. auto.
Qed.

(** An accepted rising edge registers the press. *)
Lemma press_accepted (i : nat) (ev : gpio_event_t) (now last : Z)
      (st : buttons) :
  edge_on i (Edge ev now) = true ->
  level ev = 1 ->
  is_Some (button_states st !! i) ->
  last_debounce_time st !! i = Some last ->
  Tick.pdMS_TO_TICKS hz DEBOUNCE_MS < U32.sub now last ->
  held i now false (button_task_step hz ev now st).1 /\
  (button_task_step hz ev now st).2 = [].
Proof.
  intros Hon Hlvl [btn Hbtn] Hlast Hacc. apply edge_on_index in Hon.
  unfold button_task_step. rewrite Hon, Hbtn, Hlast.
  destruct (Z.ltb_spec (Tick.pdMS_TO_TICKS hz DEBOUNCE_MS) (U32.sub now last));
    [|lia].
  rewrite Hlvl. cbn [Z.eqb Pos.eqb fst snd]. split; [|reflexivity].
  eexists. cbn [button_states]. split.
  - apply list_lookup_insert_eq. apply lookup_lt_Some in Hbtn. exact Hbtn.
  - auto.
Qed.

(** The release of a button whose long press was already reported is
    silent, whether the edge passes the debounce test or not. *)
Lemma release_after_long (i : nat) (ev : gpio_event_t) (now start : Z)
      (st : buttons) :
  edge_on i (Edge ev now) = true ->
  level ev <> 1 ->
  held i start true st ->
  (button_task_step hz ev now st).2 = [].
Proof.
  intros Hon Hlvl (btn & Hbtn & Hp & Hs & He). apply edge_on_index in Hon.
  unfold button_task_step. rewrite Hon, Hbtn.
  destruct (last_debounce_time st !! i) as [last|]; [|reflexivity].
  destruct (_ <? _); [|reflexivity].
  destruct (Z.eqb_spec (level ev) 1); [contradiction|].
  rewrite Hp, He. reflexivity.
Qed.

(** The threshold of the sweep in ticks, as long as the product of the
    millisecond conversion fits in 32 bits. *)
Lemma long_press_seen_ticks (start now : Z) :
  0 < hz ->
  U32.sub now start * 1000 < U32.modulus ->
  long_press_seen hz start (Sweep now)
  = (LONG_PRESS_MS * hz <=? U32.sub now start * 1000).
Proof.
  intros Hhz Hfit. cbn [long_press_seen].
  unfold press_duration_ms, U32.div, U32.mul.
  pose proof (u32_sub_range now start) as Hr.
  rewrite u32_small by lia.
  unfold LONG_PRESS_MS.
  destruct (Z.leb_spec (500 * hz) (U32.sub now start * 1000)) as [Hge|Hlt].
  - apply Z.leb_le. apply Z.div_le_lower_bound; lia.
  - apply Z.leb_gt. apply Z.div_lt_upper_bound; lia.
Qed.

(** Where the millisecond conversion does not wrap, the classifier
    finds [LONG_PRESS_MS] reached exactly when 500 ms or more lie between
    the press and the sweep or release. *)
Lemma long_press_test_ticks (start now : Z) :
  0 < hz ->
  U32.sub now start * 1000 < U32.modulus ->
  (LONG_PRESS_MS <=? press_duration_ms hz now start)
  = at_least_ms hz 500 start now.
Proof.
  intros Hhz Hfit.
  exact (long_press_seen_ticks start now Hhz Hfit).
Qed.

Lemma long_press_seen_at_least (start : Z) (acts : list action) :
  0 < hz ->
  forallb (conversion_fits start) acts = true ->
  existsb (long_press_seen hz start) acts
  = existsb (sweep_at_least hz 500 start) acts.
Proof.
  intros Hhz. induction acts as [|a rest IH]; intros Hall; [reflexivity|].
  cbn [forallb] in Hall. apply andb_true_iff in Hall.
  destruct Hall as [Ha Hrest]. cbn [existsb]. rewrite (IH Hrest).
  f_equal. destruct a as [ev now|now]; [reflexivity|].
  cbn [conversion_fits] in Ha. apply Z.ltb_lt in Ha.
  cbn [long_press_seen sweep_at_least].
  apply long_press_test_ticks; assumption.
Qed.

(** As long as no iteration of either task is interrupted by the other,
    a press of button [i] accepted at tick [t0], held while sweeps and
    events of other buttons go by, at least one sweep finding it held for
    [LONG_PRESS_MS] or more, and then released, makes the callback fire
    exactly once for [i], with a Long event: the event comes from the
    sweep, before the release, and the release edge itself emits
    nothing. *)
Lemma long_press_uninterrupted_one_long
        (i : nat) (press release : gpio_event_t) (t0 t1 last : Z)
        (acts : list action) (st : buttons) :
  callback_registered st = true ->
  is_Some (button_states st !! i) ->
  last_debounce_time st !! i = Some last ->
  edge_on i (Edge press t0) = true ->
  level press = 1 ->
  Tick.pdMS_TO_TICKS hz DEBOUNCE_MS < U32.sub t0 last ->
  Forall (fun a => edge_on i a = false) acts ->
  existsb (long_press_seen hz t0) acts = true ->
  edge_on i (Edge release t1) = true ->
  level release <> 1 ->
  let while_held := run hz (Edge press t0 :: acts) st in
  events_of i (run hz (Edge press t0 :: acts ++ [Edge release t1]) st).2
    = [(i, BUTTON_PRESS_LONG)] /\
  events_of i while_held.2 = [(i, BUTTON_PRESS_LONG)] /\
  (step hz (Edge release t1) while_held.1).2 = [].
Proof.
  intros Hcb Hbtn Hlast Hon Hlvl Hacc Hacts Hseen Hrel Hrlvl while_held.
  destruct (press_accepted i press t0 last st Hon Hlvl Hbtn Hlast Hacc)
    as [Hheld Hnone].
  pose proof (run_held_unsent i t0 acts Hacts
                (button_task_step hz press t0 st).1) as Hrun.
  rewrite Hseen in Hrun.
  destruct Hrun as [Hheld' Hev'].
  { pose proof (step_callback (Edge press t0) st) as Hk.
    cbn [step] in Hk. rewrite Hk. exact Hcb. }
  { exact Hheld. }
  assert (Hwhile : events_of i while_held.2 = [(i, BUTTON_PRESS_LONG)]).
  { subst while_held. cbn [run step fst snd].
    rewrite Hnone. cbn [app]. exact Hev'. }
  assert (Hsilent : (step hz (Edge release t1) while_held.1).2 = []).
  { subst while_held. cbn [run step fst snd].
    apply (release_after_long i release t1 t0); assumption. }
  split; [|split; assumption].
  change (Edge press t0 :: acts ++ [Edge release t1])
    with ((Edge press t0 :: acts) ++ [Edge release t1]).
  rewrite run_app. cbn [snd]. rewrite events_of_app.
  fold while_held. rewrite Hwhile.
  cbn [run fst snd]. rewrite app_nil_r, Hsilent. reflexivity.
Qed.

End ButtonClassifier.

Lemma debounce_at_most_one_event_witness :
  let st := Button.button_register_callback Button.button_init in
  let press := Button.mkGpioEvent 10 1 in
  let release := Button.mkGpioEvent 10 0 in
  let mid := [Button.Sweep 1010; Button.Edge release 1020;
              Button.Edge (Button.mkGpioEvent 5 1) 1025] in
  let r1 := Button.step 1000 (Button.Edge press 1000) st in
  let rm := Button.run 1000 mid r1.1 in
  let r2 := Button.step 1000 (Button.Edge release 1030) rm.1 in
  (length r1.2 + length r2.2 <= 1)%nat /\
  Button.last_debounce_time rm.1 !! 0%nat = Some 1000 /\
  r2 = (rm.1, []).
Proof.
  intros st press release mid r1 rm r2.
  assert (Hhz : 0 < 1000) by lia.
  assert (Hfit : 50 * 1000 < U32.modulus) by reflexivity.
  assert (Hbtn : is_Some (Button.button_states st !! 0%nat))
    by (eexists; reflexivity).
  assert (Hwin : U32.sub 1030 1000 * 1000 <= 50 * 1000)
    by (vm_compute; discriminate).
  destruct (debounce_at_most_one_event 1000 0%nat press release 1000 1030 0
              mid st Hhz Hfit eq_refl eq_refl Hbtn eq_refl eq_refl Hwin)
    as (Hone & Hacc & _).
  destruct Hacc as (_ & Hm & Hr2); [vm_compute; reflexivity|].
  split; [exact Hone|]. split; [exact Hm | exact Hr2].
Defined.

(** C7. The claim fails when the sweep is switched out between its call
    of the callback and its store [event_sent = true] (the two tasks have
    the same priority and share [button_states] with no lock). Button 0
    (pin 10) is pressed and held; the sweep that finds it held for 500 ms
    reports Long and is switched out; [button_task] handles the release,
    which comes 1 ms later, finds [event_sent] still false and reports
    Long again; the sweep then stores [event_sent = true] for a button
    that is no longer pressed. The callback has fired twice for one
    press. This is so at a tick rate of 1 kHz and of 100 Hz. With the
    same edges and the same wake-up but no iteration interrupted, the
    callback fires once. *)
Theorem long_press_reported_twice :
  let st := Button.button_register_callback Button.button_init in
  let press := Button.mkGpioEvent 10 1 in
  let release := Button.mkGpioEvent 10 0 in
  let interrupted (t0 t1 t2 : Z) :=
    [Button.Receive press t0;
     Button.TaskRuns; Button.TaskRuns; Button.TaskRuns;
     Button.Wake t1;
     Button.SweepRuns; Button.SweepRuns; Button.SweepRuns; Button.SweepRuns;
     Button.Receive release t2;
     Button.TaskRuns; Button.TaskRuns; Button.TaskRuns;
     Button.TaskRuns; Button.TaskRuns; Button.TaskRuns;
     Button.SweepRuns;
     Button.SweepRuns; Button.SweepRuns; Button.SweepRuns; Button.SweepRuns] in
  let twice := [(0%nat, Button.BUTTON_PRESS_LONG);
                (0%nat, Button.BUTTON_PRESS_LONG)] in
  let after (t0 t2 : Z) :=
    Button.mkButtons
      (Button.mkButtonState 10 false t0 true
         :: map (fun g => Button.mkButtonState g false 0 false) [5; 4; 14; 13])
      [t2; 0; 0; 0; 0] true in
  Button.exec 1000 (interrupted 1000 1500 1501) (Button.resting st)
    = Some (Button.resting (after 1000 1501), twice) /\
  Button.exec 100 (interrupted 100 150 151) (Button.resting st)
    = Some (Button.resting (after 100 151), twice) /\
  option_map snd
    (Button.exec 1000
       (Button.schedule_of
          [Button.Edge press 1000; Button.Sweep 1500;
           Button.Edge release 1501])
       (Button.resting st))
    = Some [(0%nat, Button.BUTTON_PRESS_LONG)].
Proof.
  cbv zeta. split; [|split]; vm_compute; reflexivity.
Qed.

(** * Properties of the LED directives *)

Section LedDirectives.

(** From solid mode the directive starts the windback: the bar is set
    full in the colour of the first LED, the target is empty, and the
    requested colour and progress wait as pending. *)
Lemma led_set_progress_from_solid (progress : F32.float) (color : Z)
      (s : Led.led) :
  Led.solid_mode s = true ->
  let s1 := Led.led_set_progress Led.MutexTaken progress color s in
  Led.solid_mode s1 = false /\
  Led.current_progress s1 = F32.one /\
  Led.target_progress s1 = F32.zero /\
  Led.progress_color s1 = nth 0 (Led.led_colors s) 0 /\
  Led.pending_start_transition s1 = true /\
  Led.pending_start_color s1 = color /\
  Led.pending_start_progress s1 = F32.clamp01 progress.
Proof.
  intros Hsolid. cbn. unfold Led.led_set_progress_body. rewrite Hsolid.
  cbn. repeat split.
Qed.

(** C9. In progress-bar mode ([solid_mode] clear), [led_set_progress]
    never restarts a windback: [current_progress] and the
    pending-transition flag are left alone, and a second call with the
    same arguments changes nothing at all. When moreover a windback to
    progress mode is pending and the lock is obtained, the call stores
    the clamped progress as the pending target and leaves the current
    progress, the target, the progress colour, the pending colour and
    the pending flag as they were. *)
Theorem led_set_progress_keeps_windback
        (m : Led.mutex_result) (progress : F32.float) (color : Z)
        (s : Led.led) :
  Led.solid_mode s = false ->
  let s1 := Led.led_set_progress m progress color s in
  (Led.pending_start_transition s = true ->
   m <> Led.MutexBusy ->
     Led.pending_start_progress s1 = F32.clamp01 progress /\
     Led.current_progress s1 = Led.current_progress s /\
     Led.target_progress s1 = Led.target_progress s /\
     Led.progress_color s1 = Led.progress_color s /\
     Led.pending_start_color s1 = Led.pending_start_color s /\
     Led.pending_start_transition s1 = true) /\
  Led.solid_mode s1 = false /\
  Led.current_progress s1 = Led.current_progress s /\
  Led.pending_start_transition s1 = Led.pending_start_transition s /\
  Led.led_set_progress m progress color s1 = s1.
Proof.
  intros Hsolid s1. subst s1.
  unfold Led.led_set_progress, Led.guarded, Led.led_set_progress_body.
  rewrite Hsolid.
  split.
  - intros Hpend Hm. rewrite Hpend.
    destruct m; [| |contradiction]; cbn; repeat split; assumption.
  - destruct m; cbn;
      destruct (Led.pending_start_transition s) eqn:Hpend; cbn;
      rewrite ?Hsolid, ?Hpend; repeat split; try assumption; try reflexivity.
Qed.

Lemma led_set_progress_keeps_windback_witness :
  let half := F32.div (F32.of_Z 1) (F32.of_Z 2) in
  let s := Led.led_set_progress Led.MutexTaken half Led.LED_COLOR_GREEN
             (Led.led_clear_all Led.MutexTaken Led.led_init) in
  let s1 := Led.led_set_progress Led.MutexTaken F32.one
              Led.LED_COLOR_GREEN s in
  Led.pending_start_progress s1 = F32.one /\
  Led.current_progress s1 = F32.one /\
  Led.pending_start_transition s1 = true /\
  Led.led_set_progress Led.MutexTaken F32.one Led.LED_COLOR_GREEN s1 = s1.
Proof.
  intros half s s1.
  assert (Hm : Led.MutexTaken <> Led.MutexBusy) by discriminate.
  destruct (led_set_progress_keeps_windback Led.MutexTaken F32.one
              Led.LED_COLOR_GREEN s eq_refl) as [Hpending Hmode].
  destruct (Hpending eq_refl Hm) as (Hp & Hc & _ & _ & _ & Hflag).
  destruct Hmode as (_ & _ & _ & Hidem).
  split; [exact Hp|]. split; [exact Hc|]. split; [exact Hflag|exact Hidem].
Defined.

End LedDirectives.

(** * More of the timer: countdown, transitions, ignored presses *)

Section TimerSessions.

Import Timer.

(** X1. While a session is Running and the 32-bit product of the seconds
    conversion has not wrapped, [timer_get_remaining_seconds] is the
    session length minus the whole seconds elapsed, floored at 0; it never
    exceeds the session length, and outside Running it is 0. *)
Theorem remaining_seconds_countdown (hz now : Z) (t : timer) :
  0 < hz ->
  0 <= timer_duration_seconds t < U32.modulus ->
  let elapsed := U32.sub now (timer_start_time_ticks t) in
  (timer_state t = TIMER_STATE_RUNNING ->
     elapsed * 1000 < U32.modulus ->
     timer_get_remaining_seconds hz now t
       = Z.max 0 (timer_duration_seconds t - elapsed / hz)) /\
  (timer_state t <> TIMER_STATE_RUNNING ->
     timer_get_remaining_seconds hz now t = 0) /\
  0 <= timer_get_remaining_seconds hz now t <= timer_duration_seconds t.
Proof.
  intros Hhz Hd elapsed.
  assert (He : 0 <= elapsed < U32.modulus) by apply u32_sub_range.
  assert (Hsec : 0 <= ticks_to_seconds hz elapsed).
  { unfold ticks_to_seconds, U32.div.
    apply Z.div_pos; [|lia]. apply Z.div_pos; [|lia].
    apply u32_range. }
  assert (Hsub : forall s, 0 <= s < timer_duration_seconds t ->
                 U32.sub (timer_duration_seconds t) s
                   = timer_duration_seconds t - s).
  { intros s Hs. unfold U32.sub. apply u32_small. lia. }
  split; [|split].
  - intros Hst Hfit. unfold timer_get_remaining_seconds. rewrite Hst.
    fold elapsed. rewrite ticks_to_seconds_exact by lia.
    assert (0 <= elapsed / hz) by (apply Z.div_pos; lia).
    destruct (Z.leb_spec (timer_duration_seconds t) (elapsed / hz)).
    + lia.
    + rewrite Hsub by lia. lia.
  - intros Hst. unfold timer_get_remaining_seconds.
    destruct (timer_state t); try reflexivity. congruence.
  - unfold timer_get_remaining_seconds.
    destruct (timer_state t); try lia.
    fold elapsed.
    destruct (Z.leb_spec (timer_duration_seconds t)
                         (ticks_to_seconds hz elapsed)).
    + lia.
    + rewrite Hsub by lia. lia.
Qed.

Lemma remaining_seconds_countdown_witness :
  let t := snd (timer_start 100 15 timer_init) in
  timer_get_remaining_seconds 1000 61100 t = 839 /\
  timer_get_remaining_seconds 1000 61100 timer_init = 0.
Proof.
  cbv zeta.
  pose proof (remaining_seconds_countdown 1000 61100
                (snd (timer_start 100 15 timer_init))) as H.
  pose proof (remaining_seconds_countdown 1000 61100 timer_init) as H0.
  cbv zeta in H, H0.
  destruct H as [H _]; [lia | vm_compute; split; [discriminate | reflexivity] |].
  destruct H0 as [_ [H0 _]];
    [lia | vm_compute; split; [discriminate | reflexivity] |].
  split.
  - rewrite H; [reflexivity | reflexivity | reflexivity].
  - apply H0. discriminate.
Defined.

(** X2. One [timer_update] moves the state at most one step along
    Running -> Completed -> Alerting -> Idle, stamping the tick of the
    step; it never starts a session, never skips a state however late the
    tick comes, changes nothing in Idle and GracePeriod, and never touches
    the session duration or the start tick. *)
Theorem timer_update_one_step (hz now : Z) (t : timer) :
  let t' := timer_update hz now t in
  timer_duration_seconds t' = timer_duration_seconds t /\
  timer_start_time_ticks t' = timer_start_time_ticks t /\
  (timer_state t' = timer_state t \/
   (timer_state t = TIMER_STATE_RUNNING /\
    timer_state t' = TIMER_STATE_COMPLETED /\
    grace_period_start_ticks t' = now) \/
   (timer_state t = TIMER_STATE_COMPLETED /\
    timer_state t' = TIMER_STATE_ALERTING /\
    alert_start_ticks t' = now) \/
   (timer_state t = TIMER_STATE_ALERTING /\
    timer_state t' = TIMER_STATE_IDLE)) /\
  (timer_state t = TIMER_STATE_IDLE \/
   timer_state t = TIMER_STATE_GRACE_PERIOD -> t' = t).
Proof.
  cbv zeta. unfold timer_update.
  destruct (timer_state t) eqn:Hst.
  - repeat split; auto.
  - unfold smooth_progress, running_target.
    destruct (Z.leb_spec (total_duration_ticks hz t)
                         (U32.sub now (timer_start_time_ticks t)));
      cbn [timer_state timer_duration_seconds timer_start_time_ticks
           grace_period_start_ticks alert_start_ticks].
    + repeat split; auto.
      intros [Hx|Hx]; discriminate.
    + repeat split; auto.
      intros [Hx|Hx]; congruence.
  - destruct (Z.leb_spec GRACE_PERIOD_SECONDS
                (ticks_to_seconds hz
                   (U32.sub now (grace_period_start_ticks t))));
      cbn [timer_state timer_duration_seconds timer_start_time_ticks
           grace_period_start_ticks alert_start_ticks].
    + repeat split; auto 6.
      intros [Hx|Hx]; discriminate.
    + repeat split; auto.
      intros [Hx|Hx]; congruence.
  - repeat split; auto.
  - destruct (Z.leb_spec ALERT_DURATION_SECONDS
                (ticks_to_seconds hz
                   (U32.sub now (alert_start_ticks t))));
      cbn [timer_state timer_duration_seconds timer_start_time_ticks
           grace_period_start_ticks alert_start_ticks].
    + repeat split; auto 6.
      intros [Hx|Hx]; discriminate.
    + repeat split; auto.
Qed.

Lemma timer_update_one_step_witness :
  timer_update 1000 5000 timer_init = timer_init.
Proof.
  refine (proj2 (proj2 (proj2 (timer_update_one_step 1000 5000 timer_init)))
                _).
  left. reflexivity.
Defined.

(** X3. [timer_handle_button] ignores a button id outside 0-4 in every
    state, and a long press while a session is Running: the timer record
    is left as it was. *)
Theorem timer_handle_button_ignored (now b : Z) (is_long_press : bool)
        (t : timer) :
  NUM_BUTTONS <= b \/
  (is_long_press = true /\ timer_state t = TIMER_STATE_RUNNING) ->
  timer_handle_button now b is_long_press t = t.
Proof.
  intros [Hb|[-> Hst]]; unfold timer_handle_button.
  - destruct (Z.leb_spec NUM_BUTTONS b); [reflexivity | lia].
  - destruct (NUM_BUTTONS <=? b); [reflexivity|].
    rewrite Hst. reflexivity.
Qed.

Lemma timer_handle_button_ignored_witness :
  timer_handle_button 500 5 false timer_init = timer_init /\
  let t := snd (timer_start 100 30 timer_init) in
  timer_handle_button 500 2 true t = t.
Proof.
  split.
  - apply (timer_handle_button_ignored 500 5 false timer_init).
    left. unfold NUM_BUTTONS. lia.
  - cbv zeta.
    apply (timer_handle_button_ignored 500 2 true
             (snd (timer_start 100 30 timer_init))).
    right. split; reflexivity.
Defined.

(** X4. [timer_start] with a preset replaces whatever session is active:
    from Running, Completed, GracePeriod or Alerting the result is the
    same fresh Running session (start tick [now], grace and alert stamps
    0, both progress values 0) whatever the old record held; from Idle the
    grace and alert stamps are the ones the record already had. *)
Theorem timer_start_replaces_session (now d : Z) (t : timer) :
  In d timer_durations ->
  (timer_state t <> TIMER_STATE_IDLE ->
     timer_start now d t =
       (true, mkTimer TIMER_STATE_RUNNING (d * 60) now 0 0
                      F32.zero F32.zero)) /\
  (timer_state t = TIMER_STATE_IDLE ->
     timer_start now d t =
       (true, mkTimer TIMER_STATE_RUNNING (d * 60) now
                      (grace_period_start_ticks t) (alert_start_ticks t)
                      F32.zero F32.zero)).
Proof.
  intros Hin.
  assert (Hd : U32.mul d 60 = d * 60).
  { assert (Hcases : d = 1 \/ d = 15 \/ d = 30 \/ d = 45 \/ d = 60).
    { cbv in Hin. intuition auto. }
    destruct Hcases as [->|[->|[->|[->| ->]]]]; reflexivity. }
  split; intros Hst; rewrite timer_start_preset by exact Hin; rewrite Hd.
  - rewrite timer_stop_not_idle by exact Hst. reflexivity.
  - rewrite timer_stop_idle by exact Hst. reflexivity.
Qed.

Lemma timer_start_replaces_session_witness :
  let t := mkTimer TIMER_STATE_ALERTING 900 100 900100 960100
                   F32.one F32.one in
  timer_start 970000 30 t =
    (true, mkTimer TIMER_STATE_RUNNING 1800 970000 0 0 F32.zero F32.zero) /\
  timer_start 970000 30 timer_init =
    (true, mkTimer TIMER_STATE_RUNNING 1800 970000 0 0 F32.zero F32.zero).
Proof.
  cbv zeta. split.
  - refine (proj1 (timer_start_replaces_session 970000 30
                     (mkTimer TIMER_STATE_ALERTING 900 100 900100 960100
                              F32.one F32.one) _) _).
    + cbv. auto.
    + discriminate.
  - refine (proj2 (timer_start_replaces_session 970000 30 timer_init _) _).
    + cbv. auto.
    + reflexivity.
Defined.

(** X5. At a tick rate of at most 1 kHz a preset session of [d] minutes
    started at tick [start] completes at the first [timer_update] whose
    tick is [d * 60 * hz] or more ticks after [start] (modulo 2^32), and
    stays Running at every earlier one: the millisecond conversion does
    not wrap for any preset. *)
Theorem preset_session_completes_on_time (hz start now d : Z)
        (t0 : timer) :
  0 < hz <= 1000 ->
  In d timer_durations ->
  let t := snd (timer_start start d t0) in
  let elapsed := U32.sub now start in
  timer_get_state (timer_update hz now t) =
    if d * 60 * hz <=? elapsed then TIMER_STATE_COMPLETED
    else TIMER_STATE_RUNNING.
Proof.
  intros Hhz Hin t elapsed.
  pose proof (total_duration_ticks_preset hz start d t0 Hhz Hin) as Htot.
  fold t in Htot.
  assert (Hst : timer_state t = TIMER_STATE_RUNNING).
  { unfold t. rewrite timer_start_preset by exact Hin. reflexivity. }
  assert (Hs : timer_start_time_ticks t = start).
  { unfold t. rewrite timer_start_preset by exact Hin. reflexivity. }
  rewrite timer_update_running by exact Hst.
  unfold timer_get_state, smooth_progress, running_target.
  rewrite Htot, Hs. fold elapsed.
  destruct (d * 60 * hz <=? elapsed); cbn [timer_state];
    [reflexivity | exact Hst].
Qed.

Lemma preset_session_completes_on_time_witness :
  timer_get_state
    (timer_update 1000 900099 (snd (timer_start 100 15 timer_init)))
    = TIMER_STATE_RUNNING /\
  timer_get_state
    (timer_update 1000 900100 (snd (timer_start 100 15 timer_init)))
    = TIMER_STATE_COMPLETED.
Proof.
  split.
  - refine (preset_session_completes_on_time 1000 100 900099 15
              timer_init _ _); [lia | cbv; auto].
  - refine (preset_session_completes_on_time 1000 100 900100 15
              timer_init _ _); [lia | cbv; auto].
Defined.

(** X6. When the alert times out, [timer_update] returns to Idle with
    both progress values 0 but keeps the finished session's duration and
    its start, grace and alert ticks; in that Idle state [timer_stop] and
    [timer_reset] change nothing, the remaining time reads 0, and the next
    successful [timer_start] carries the old grace and alert ticks into
    the new session. *)
Theorem alert_expiry_keeps_session_fields (hz now now' d : Z) (t : timer) :
  timer_state t = TIMER_STATE_ALERTING ->
  ALERT_DURATION_SECONDS
    <= ticks_to_seconds hz (U32.sub now (alert_start_ticks t)) ->
  In d timer_durations ->
  let t' := timer_update hz now t in
  t' = mkTimer TIMER_STATE_IDLE (timer_duration_seconds t)
               (timer_start_time_ticks t) (grace_period_start_ticks t)
               (alert_start_ticks t) F32.zero F32.zero /\
  timer_stop t' = t' /\
  timer_reset t' = t' /\
  timer_get_remaining_seconds hz now' t' = 0 /\
  timer_start now' d t' =
    (true, mkTimer TIMER_STATE_RUNNING (U32.mul d 60) now'
                   (grace_period_start_ticks t) (alert_start_ticks t)
                   F32.zero F32.zero).
Proof.
  intros Hst Hexp Hin t'.
  assert (Ht' : t' = mkTimer TIMER_STATE_IDLE (timer_duration_seconds t)
               (timer_start_time_ticks t) (grace_period_start_ticks t)
               (alert_start_ticks t) F32.zero F32.zero).
  { unfold t', timer_update. rewrite Hst.
    destruct (Z.leb_spec ALERT_DURATION_SECONDS
                (ticks_to_seconds hz (U32.sub now (alert_start_ticks t))));
      [reflexivity | lia]. }
  rewrite Ht'. repeat split.
  rewrite timer_start_preset by exact Hin. reflexivity.
Qed.

Lemma alert_expiry_keeps_session_fields_witness :
  let t := mkTimer TIMER_STATE_ALERTING 900 100 900100 960100
                   F32.one F32.one in
  timer_update 1000 1020100 t =
    mkTimer TIMER_STATE_IDLE 900 100 900100 960100 F32.zero F32.zero /\
  timer_start 1030000 15 (timer_update 1000 1020100 t) =
    (true, mkTimer TIMER_STATE_RUNNING (U32.mul 15 60) 1030000
                   900100 960100 F32.zero F32.zero).
Proof.
  cbv zeta.
  pose proof (alert_expiry_keeps_session_fields 1000 1020100 1030000 15
                (mkTimer TIMER_STATE_ALERTING 900 100 900100 960100
                         F32.one F32.one)) as H.
  cbv zeta in H.
  destruct H as [H1 [_ [_ [_ H5]]]];
    [reflexivity | vm_compute; discriminate | cbv; auto |].
  split; [exact H1 | exact H5].
Defined.

(** X7. A whole unattended session, as a sequence of calls: a preset of
    [d] minutes started at tick [start], then one update once
    [d * 60 * hz] ticks have elapsed, one once a further 60 s have elapsed
    and one once yet another 60 s have elapsed, pass through Completed and
    Alerting and end in Idle with the progress back at 0 (tick rate at
    most 1 kHz, the gaps between the updates short enough for the seconds
    conversion not to wrap). *)
Theorem unattended_session_returns_to_idle (hz start n1 n2 n3 d : Z) :
  0 < hz <= 1000 ->
  In d timer_durations ->
  d * 60 * hz <= U32.sub n1 start ->
  60 * hz <= U32.sub n2 n1 -> U32.sub n2 n1 * 1000 < U32.modulus ->
  60 * hz <= U32.sub n3 n2 -> U32.sub n3 n2 * 1000 < U32.modulus ->
  timer_get_state
    (run hz [CallStart start d; CallUpdate n1] timer_init)
    = TIMER_STATE_COMPLETED /\
  timer_get_state
    (run hz [CallStart start d; CallUpdate n1; CallUpdate n2] timer_init)
    = TIMER_STATE_ALERTING /\
  timer_get_state
    (run hz [CallStart start d; CallUpdate n1; CallUpdate n2; CallUpdate n3]
         timer_init)
    = TIMER_STATE_IDLE /\
  timer_get_progress
    (run hz [CallStart start d; CallUpdate n1; CallUpdate n2; CallUpdate n3]
         timer_init)
    = F32.zero.
Proof.
  intros Hhz Hin H1 H2 H2w H3 H3w.
  unfold run. cbn [fold_left exec].
  set (t0 := snd (timer_start start d timer_init)).
  pose proof (total_duration_ticks_preset hz start d timer_init Hhz Hin)
    as Htot.
  fold t0 in Htot.
  assert (Ht0 : t0 = mkTimer TIMER_STATE_RUNNING (U32.mul d 60) start 0 0
                             F32.zero F32.zero).
  { unfold t0. rewrite timer_start_preset by exact Hin. reflexivity. }
  assert (Hu1 : timer_update hz n1 t0 =
                mkTimer TIMER_STATE_COMPLETED (U32.mul d 60) start n1 0
                        (F32.clamp01
                           (F32.add F32.zero
                              (F32.mul (F32.sub F32.one F32.zero)
                                       TRANSITION_SPEED)))
                        F32.one).
  { clearbody t0. subst t0.
    rewrite timer_update_running by reflexivity.
    unfold smooth_progress, running_target. rewrite Htot.
    cbn [timer_start_time_ticks].
    destruct (Z.leb_spec (d * 60 * hz) (U32.sub n1 start)); [|lia].
    reflexivity. }
  rewrite Hu1.
  assert (Hu2 : forall cp,
             timer_update hz n2
               (mkTimer TIMER_STATE_COMPLETED (U32.mul d 60) start n1 0
                        cp F32.one)
             = mkTimer TIMER_STATE_ALERTING (U32.mul d 60) start n1 n2
                       F32.one F32.one).
  { intros cp. unfold timer_update.
    cbn [timer_state grace_period_start_ticks timer_duration_seconds
         timer_start_time_ticks alert_start_ticks].
    unfold GRACE_PERIOD_SECONDS.
    rewrite window_expired_iff
      by (try apply u32_sub_range; lia).
    destruct (Z.leb_spec (60 * hz) (U32.sub n2 n1)); [reflexivity | lia]. }
  rewrite Hu2.
  assert (Hu3 : timer_update hz n3
               (mkTimer TIMER_STATE_ALERTING (U32.mul d 60) start n1 n2
                        F32.one F32.one)
             = mkTimer TIMER_STATE_IDLE (U32.mul d 60) start n1 n2
                       F32.zero F32.zero).
  { unfold timer_update.
    cbn [timer_state grace_period_start_ticks timer_duration_seconds
         timer_start_time_ticks alert_start_ticks].
    unfold ALERT_DURATION_SECONDS.
    rewrite window_expired_iff
      by (try apply u32_sub_range; lia).
    destruct (Z.leb_spec (60 * hz) (U32.sub n3 n2)); [reflexivity | lia]. }
  rewrite Hu3.
  repeat split.
Qed.

Lemma unattended_session_returns_to_idle_witness :
  timer_get_state
    (run 1000 [CallStart 100 15; CallUpdate 900100; CallUpdate 960100;
               CallUpdate 1020100] timer_init)
    = TIMER_STATE_IDLE.
Proof.
  refine (proj1 (proj2 (proj2
            (unattended_session_returns_to_idle 1000 100 900100 960100
               1020100 15 _ _ _ _ _ _ _)))).
  - lia.
  - cbv; auto.
  - vm_compute; discriminate.
  - vm_compute; discriminate.
  - vm_compute; reflexivity.
  - vm_compute; discriminate.
  - vm_compute; reflexivity.
Defined.

End TimerSessions.

(** * More of the button classifier: lookup, taps, invariants *)

Section ButtonTraces.

Import Button.

Variable hz : Z.

Lemma find_from_Some (gpios : list Z) (g : Z) :
  forall (i0 i : nat),
    find_from i0 gpios g = Some i ->
    exists k : nat, i = (i0 + k)%nat /\ gpios !! k = Some g.
Proof.
  induction gpios as [|x rest IH]; intros i0 i; simpl.
  - discriminate.
  - destruct (Z.eqb_spec x g) as [->|Hne].
    + intros [= <-]. exists 0%nat. split; [lia | reflexivity].
    + intros H. destruct (IH _ _ H) as (k & -> & Hk).
      exists (S k). split; [lia | exact Hk].
Qed.

Lemma find_from_None (gpios : list Z) (g : Z) :
  forall i0 : nat, ~ In g gpios -> find_from i0 gpios g = None.
Proof.
  induction gpios as [|x rest IH]; intros i0 Hnot; simpl.
  - reflexivity.
  - destruct (Z.eqb_spec x g) as [->|Hne].
    + exfalso. apply Hnot. left. reflexivity.
    + apply IH. intros Hin. apply Hnot. right. exact Hin.
Qed.

Lemma find_button_index_lt (g : Z) (i : nat) :
  find_button_index g = Some i -> (i < NUM_BUTTONS)%nat.
Proof.
  intros H. apply find_from_Some in H. destruct H as (k & -> & Hk).
  apply lookup_lt_Some in Hk. exact Hk.
Qed.

(** X8. [find_button_index] inverts the pin table: the index of pin
    [button_gpios[i]] is [i], an index it returns is below [NUM_BUTTONS]
    and names the pin it was given (as a [uint8_t]), and for a pin that is
    not in the table it returns -1, so that [button_task] drops the edge
    with the state untouched and no event. *)
Theorem find_button_index_round_trip (i : nat) (g : Z) :
  (button_gpios !! i = Some g -> find_button_index g = Some i) /\
  (find_button_index g = Some i ->
     button_gpios !! i = Some (g mod 256) /\ (i < NUM_BUTTONS)%nat) /\
  (~ In (g mod 256) button_gpios ->
     find_button_index g = None /\
     forall (lvl now : Z) (st : buttons),
       button_task_step hz (mkGpioEvent g lvl) now st = (st, [])).
Proof.
  split; [|split].
  - intros H.
    do 5 (destruct i as [|i]; [injection H as <-; reflexivity|]).
    discriminate.
  - intros H. split; [|exact (find_button_index_lt g i H)].
    apply find_from_Some in H. destruct H as (k & -> & Hk). exact Hk.
  - intros Hnot.
    assert (Hnone : find_button_index g = None)
      by (apply find_from_None; exact Hnot).
    split; [exact Hnone|].
    intros lvl now st. unfold button_task_step. cbn [gpio_num].
    rewrite Hnone. reflexivity.
Qed.

Lemma run_callback (acts : list action) :
  forall st, callback_registered (run hz acts st).1 = callback_registered st.
Proof.
  induction acts as [|a rest IH]; intros st; cbn [run fst].
  - reflexivity.
  - rewrite IH. apply step_callback.
Qed.

(** An accepted rising edge becomes the debounce reference. *)
Lemma press_stamp (i : nat) (ev : gpio_event_t) (now last : Z)
      (st : buttons) :
  edge_on i (Edge ev now) = true ->
  is_Some (button_states st !! i) ->
  last_debounce_time st !! i = Some last ->
  Tick.pdMS_TO_TICKS hz DEBOUNCE_MS < U32.sub now last ->
  last_debounce_time (button_task_step hz ev now st).1 !! i = Some now.
Proof.
  intros Hon [btn Hbtn] Hlast Hacc. apply edge_on_index in Hon.
  unfold button_task_step. rewrite Hon, Hbtn, Hlast.
  destruct (Z.ltb_spec (Tick.pdMS_TO_TICKS hz DEBOUNCE_MS) (U32.sub now last));
    [|lia].
  apply lookup_lt_Some in Hlast.
  destruct (level ev =? 1); [|destruct (pressed btn)];
    cbn [fst last_debounce_time];
    apply list_lookup_insert_eq; exact Hlast.
Qed.

(** An accepted falling edge ends the press and classifies it, unless a
    sweep has already reported it. *)
Lemma release_accepted (i : nat) (ev : gpio_event_t) (now start last : Z)
      (sent : bool) (st : buttons) :
  edge_on i (Edge ev now) = true ->
  level ev <> 1 ->
  callback_registered st = true ->
  held i start sent st ->
  last_debounce_time st !! i = Some last ->
  Tick.pdMS_TO_TICKS hz DEBOUNCE_MS < U32.sub now last ->
  (button_task_step hz ev now st).2
    = (if sent then []
       else [(i, if LONG_PRESS_MS <=? press_duration_ms hz now start
                 then BUTTON_PRESS_LONG else BUTTON_PRESS_SHORT)]) /\
  exists btn,
    button_states (button_task_step hz ev now st).1 !! i = Some btn /\
    pressed btn = false /\ event_sent btn = false.
Proof.
  intros Hon Hlvl Hcb (btn & Hbtn & Hp & Hs & He) Hlast Hacc.
  apply edge_on_index in Hon.
  unfold button_task_step. rewrite Hon, Hbtn, Hlast.
  destruct (Z.ltb_spec (Tick.pdMS_TO_TICKS hz DEBOUNCE_MS) (U32.sub now last));
    [|lia].
  destruct (Z.eqb_spec (level ev) 1); [contradiction|].
  rewrite Hp, He, Hs, Hcb. cbn [fst snd button_states]. split.
  - destruct sent; reflexivity.
  - eexists. split.
    + apply list_lookup_insert_eq. apply lookup_lt_Some in Hbtn. exact Hbtn.
    + split; reflexivity.
Qed.

(** The events of a sweep come from buttons that the array holds as
    pressed and not yet reported, and are Long. *)
Lemma check_from_event_source (now : Z) (cb : bool)
      (btns : list button_state_t) :
  forall (i0 j : nat) (ty : button_press_type_t),
    In (j, ty) (check_from hz now cb i0 btns).2 ->
    cb = true /\ ty = BUTTON_PRESS_LONG /\
    exists (k : nat) (btn : button_state_t),
      j = (i0 + k)%nat /\ btns !! k = Some btn /\
      pressed btn = true /\ event_sent btn = false.
Proof.
  induction btns as [|b rest IH]; intros i0 j ty; cbn [check_from fst snd].
  - intros [].
  - intros Hin. apply in_app_or in Hin. destruct Hin as [Hin|Hin].
    + unfold check_button in Hin.
      destruct (pressed b) eqn:Hp; [|destruct Hin].
      destruct (event_sent b) eqn:He; [destruct Hin|].
      cbn [andb negb] in Hin.
      destruct (LONG_PRESS_MS <=? _); [|destruct Hin].
      cbn [snd] in Hin. unfold emit in Hin.
      destruct cb; [|destruct Hin].
      destruct Hin as [[= <- <-]|[]].
      split; [reflexivity|]. split; [reflexivity|].
      exists 0%nat, b. repeat split; auto; lia.
    + destruct (IH _ _ _ Hin) as (Hcb & Hty & k & btn & -> & Hk & Hp & He).
      split; [exact Hcb|]. split; [exact Hty|].
      exists (S k), btn. repeat split; auto; lia.
Qed.

(** An event names a button that the state before the step holds as
    pressed. *)
Lemma step_event_pressed (a : action) (st : buttons) (j : nat)
      (ty : button_press_type_t) :
  In (j, ty) (step hz a st).2 ->
  exists btn, button_states st !! j = Some btn /\ pressed btn = true.
Proof.
  destruct a as [ev now|now]; cbn [step].
  - unfold button_task_step.
    destruct (find_button_index (gpio_num ev)) as [idx|]; [|intros []].
    destruct (button_states st !! idx) as [btn|] eqn:Hbtn; [|intros []].
    destruct (last_debounce_time st !! idx) as [last|]; [|intros []].
    destruct (_ <? _); [|intros []].
    destruct (level ev =? 1); [intros []|].
    destruct (pressed btn) eqn:Hp; [|intros []].
    cbn [snd]. destruct (negb (event_sent btn)); [|intros []].
    unfold emit. destruct (callback_registered st); [|intros []].
    intros [[= <- <-]|[]]. exists btn. auto.
  - unfold button_long_press_check. cbn [snd].
    intros Hin. apply check_from_event_source in Hin.
    destruct Hin as (_ & _ & k & btn & -> & Hk & Hp & _).
    exists btn. auto.
Qed.

(** X10. The callback fires only for a button that the classifier holds
    as pressed and not yet reported, and only once a callback is
    registered: a falling edge of a button that is not registered as
    pressed, a rising edge, or a sweep over released buttons emits
    nothing. An event of a sweep is always Long; an event of
    [button_task] comes from a falling edge of the button it names. *)
Theorem events_only_for_pressed_buttons (a : action) (st : buttons)
        (j : nat) (ty : button_press_type_t) :
  In (j, ty) (step hz a st).2 ->
  callback_registered st = true /\
  (exists btn,
      button_states st !! j = Some btn /\
      pressed btn = true /\ event_sent btn = false) /\
  match a with
  | Sweep _ => ty = BUTTON_PRESS_LONG
  | Edge ev _ => level ev <> 1 /\ find_button_index (gpio_num ev) = Some j
  end.
Proof.
  destruct a as [ev now|now]; cbn [step].
  - unfold button_task_step.
    destruct (find_button_index (gpio_num ev)) as [idx|]; [|intros []].
    destruct (button_states st !! idx) as [btn|] eqn:Hbtn; [|intros []].
    destruct (last_debounce_time st !! idx) as [last|]; [|intros []].
    destruct (_ <? _); [|intros []].
    destruct (Z.eqb_spec (level ev) 1); [intros []|].
    destruct (pressed btn) eqn:Hp; [|intros []].
    cbn [snd]. destruct (event_sent btn) eqn:He; [intros []|].
    cbn [negb]. unfold emit.
    destruct (callback_registered st); [|intros []].
    intros [[= <- <-]|[]].
    split; [reflexivity|]. split; [|split; [assumption | reflexivity]].
    exists btn. auto.
  - unfold button_long_press_check. cbn [snd].
    intros Hin. apply check_from_event_source in Hin.
    destruct Hin as (Hcb & Hty & k & btn & -> & Hk & Hp & He).
    split; [exact Hcb|]. split; [|exact Hty].
    exists btn. auto.
Qed.

(** X11. A release edge that arrives within the debounce window of its
    press is dropped, so the button stays registered as pressed although
    it has been let go: the next sweep that finds 500 ms elapsed since
    the press reports a Long press, and the button is still held as
    pressed afterwards. *)
Theorem tap_within_debounce_reported_long
        (i : nat) (press release : gpio_event_t) (t0 t1 last : Z)
        (acts : list action) (st : buttons) :
  callback_registered st = true ->
  is_Some (button_states st !! i) ->
  last_debounce_time st !! i = Some last ->
  edge_on i (Edge press t0) = true ->
  level press = 1 ->
  Tick.pdMS_TO_TICKS hz DEBOUNCE_MS < U32.sub t0 last ->
  edge_on i (Edge release t1) = true ->
  U32.sub t1 t0 <= Tick.pdMS_TO_TICKS hz DEBOUNCE_MS ->
  Forall (fun a => edge_on i a = false) acts ->
  existsb (long_press_seen hz t0) acts = true ->
  let r := run hz (Edge press t0 :: Edge release t1 :: acts) st in
  events_of i r.2 = [(i, BUTTON_PRESS_LONG)] /\
  held i t0 true r.1.
Proof.
  intros Hcb Hsome Hlast Hpress Hlvl Hacc Hrel Hwin Hacts Hseen r.
  subst r. cbn [run fst snd]. cbn [step].
  destruct (press_accepted hz i press t0 last st Hpress Hlvl Hsome Hlast Hacc)
    as [Hheld Hnil].
  pose proof (press_stamp i press t0 last st Hpress Hsome Hlast Hacc)
    as Hstamp.
  pose proof (step_callback hz (Edge press t0) st) as Hcb1.
  cbn [step] in Hcb1. rewrite Hcb in Hcb1.
  set (st1 := (button_task_step hz press t0 st).1) in *.
  rewrite Hnil. cbn [app].
  rewrite (button_task_step_ignored hz i release t1 t0 st1 Hrel Hstamp Hwin).
  cbn [fst snd app].
  pose proof (run_held_unsent hz i t0 acts Hacts st1 Hcb1 Hheld) as Hrun.
  rewrite Hseen in Hrun. destruct Hrun as [Hh Hev].
  split; [exact Hev | exact Hh].
Qed.

Lemma check_button_frame (now : Z) (cb : bool) (i : nat)
      (btn : button_state_t) :
  gpio (check_button hz now cb i btn).1 = gpio btn /\
  pressed (check_button hz now cb i btn).1 = pressed btn /\
  press_start_time (check_button hz now cb i btn).1 = press_start_time btn.
Proof.
  unfold check_button.
  destruct (pressed btn && negb (event_sent btn)); [|auto].
  destruct (LONG_PRESS_MS <=? _); auto.
Qed.

Lemma check_from_frame (now : Z) (cb : bool) (btns : list button_state_t) :
  forall i0 : nat,
    map gpio (check_from hz now cb i0 btns).1 = map gpio btns /\
    map pressed (check_from hz now cb i0 btns).1 = map pressed btns.
Proof.
  induction btns as [|b rest IH]; intros i0; cbn [check_from fst map].
  - auto.
  - destruct (IH (S i0)) as [Hg Hp].
    destruct (check_button_frame now cb i0 b) as (Hg1 & Hp1 & _).
    rewrite Hg, Hp, Hg1, Hp1. auto.
Qed.

Lemma step_layout (a : action) (st : buttons) :
  layout st -> layout (step hz a st).1.
Proof.
  intros (Hl1 & Hl2 & Hg). destruct a as [ev now|now]; cbn [step].
  - unfold button_task_step.
    destruct (find_button_index (gpio_num ev)) as [idx|];
      [|repeat split; assumption].
    destruct (button_states st !! idx) as [btn|] eqn:Hbtn;
      [|repeat split; assumption].
    destruct (last_debounce_time st !! idx) as [last|];
      [|repeat split; assumption].
    destruct (_ <? _); [|repeat split; assumption].
    assert (Hgi : <[idx := gpio btn]> (map gpio (button_states st))
                  = map gpio (button_states st)).
    { apply list_insert_id. rewrite list_lookup_fmap, Hbtn. reflexivity. }
    destruct (level ev =? 1); [|destruct (pressed btn)];
      cbn [fst]; unfold layout; cbn [button_states last_debounce_time];
      rewrite ?length_insert;
      (split; [exact Hl1|]); (split; [exact Hl2|]); try exact Hg.
    + change (map gpio) with (fmap (M:=list) gpio).
      rewrite list_fmap_insert. cbn [gpio].
      change (fmap (M:=list) gpio) with (map gpio). rewrite Hgi. exact Hg.
    + change (map gpio) with (fmap (M:=list) gpio).
      rewrite list_fmap_insert. cbn [gpio].
      change (fmap (M:=list) gpio) with (map gpio). rewrite Hgi. exact Hg.
  - unfold button_long_press_check, layout.
    cbn [fst button_states last_debounce_time].
    destruct (check_from_frame now (callback_registered st)
                               (button_states st) 0%nat) as [Hg' _].
    split; [|split; [exact Hl2 | rewrite Hg'; exact Hg]].
    rewrite <- (length_map gpio), Hg', length_map. exact Hl1.
Qed.

(** X12. The two tasks keep the layout of their arrays: after any
    interleaving of edges and sweeps, with whatever pins, levels and
    ticks, the state and debounce arrays still have [NUM_BUTTONS] entries,
    entry [i] is still bound to pin [button_gpios[i]], and the callback
    registration is unchanged. [button_init] establishes the layout. *)
Theorem run_keeps_layout (acts : list action) (st : buttons) :
  layout button_init /\
  (layout st ->
     layout (run hz acts st).1 /\
     callback_registered (run hz acts st).1 = callback_registered st).
Proof.
  split; [repeat split|].
  intros Hl. split; [|apply run_callback].
  revert st Hl.
  induction acts as [|a rest IH]; intros st Hl; cbn [run fst].
  - exact Hl.
  - apply IH. apply step_layout. exact Hl.
Qed.

End ButtonTraces.

Lemma find_button_index_round_trip_witness :
  Button.find_button_index 14 = Some 3%nat /\
  Button.button_gpios !! 4%nat = Some (13 mod 256) /\
  Button.find_button_index 7 = None /\
  Button.button_task_step 1000 (Button.mkGpioEvent 7 1) 5000
    (Button.button_register_callback Button.button_init)
  = (Button.button_register_callback Button.button_init, []).
Proof.
  split; [|split; [|split]].
  - apply (proj1 (find_button_index_round_trip 1000 3 14)). reflexivity.
  - apply (proj1 (proj2 (find_button_index_round_trip 1000 4 13))).
    reflexivity.
  - apply (proj2 (proj2 (find_button_index_round_trip 1000 0 7))).
    cbv. intuition discriminate.
  - apply (proj2 (proj2 (find_button_index_round_trip 1000 0 7))).
    cbv. intuition discriminate.
Defined.

Lemma events_only_for_pressed_buttons_witness :
  let st :=
    (Button.step 1000 (Button.Edge (Button.mkGpioEvent 4 1) 1000)
       (Button.button_register_callback Button.button_init)).1 in
  Button.callback_registered st = true /\
  exists btn,
    Button.button_states st !! 2%nat = Some btn /\
    Button.pressed btn = true /\ Button.event_sent btn = false.
Proof.
  cbv zeta.
  pose proof (events_only_for_pressed_buttons 1000 (Button.Sweep 1600)
    (Button.step 1000 (Button.Edge (Button.mkGpioEvent 4 1) 1000)
       (Button.button_register_callback Button.button_init)).1
    2 Button.BUTTON_PRESS_LONG) as H.
  destruct H as (H1 & H2 & _).
  - vm_compute. left. reflexivity.
  - split; [exact H1 | exact H2].
Defined.

Lemma tap_within_debounce_reported_long_witness :
  let st := Button.button_register_callback Button.button_init in
  Button.events_of 0
    (Button.run 1000
       [Button.Edge (Button.mkGpioEvent 10 1) 1000;
        Button.Edge (Button.mkGpioEvent 10 0) 1030;
        Button.Sweep 1400; Button.Sweep 1500] st).2
  = [(0%nat, Button.BUTTON_PRESS_LONG)].
Proof.
  cbv zeta.
  refine (proj1 (tap_within_debounce_reported_long 1000 0
            (Button.mkGpioEvent 10 1) (Button.mkGpioEvent 10 0)
            1000 1030 0 [Button.Sweep 1400; Button.Sweep 1500]
            (Button.button_register_callback Button.button_init)
            _ _ _ _ _ _ _ _ _ _)).
  - reflexivity.
  - eexists. reflexivity.
  - reflexivity.
  - reflexivity.
  - reflexivity.
  - vm_compute. reflexivity.
  - reflexivity.
  - vm_compute. discriminate.
  - repeat constructor.
  - reflexivity.
Defined.

Lemma run_keeps_layout_witness :
  Button.layout
    (Button.run 1000
       [Button.Edge (Button.mkGpioEvent 10 1) 1000; Button.Sweep 1600]
       Button.button_init).1.
Proof.
  refine (proj1 (proj2 (run_keeps_layout 1000
            [Button.Edge (Button.mkGpioEvent 10 1) 1000; Button.Sweep 1600]
            Button.button_init) _)).
  repeat split.
Defined.

(** * The button tasks, schedule by schedule *)

Section ButtonSchedules.

Import Button.

Variable hz : Z.

Lemma exec_app (l1 l2 : list move) (s : system) :
  exec hz (l1 ++ l2) s =
    match exec hz l1 s with
    | Some (s1, e1) =>
        match exec hz l2 s1 with
        | Some (s2, e2) => Some (s2, e1 ++ e2)
        | None => None
        end
    | None => None
    end.
Proof.
  revert s. induction l1 as [|m rest IH]; intros s; cbn [app exec].
  - destruct (exec hz l2 s) as [[s2 e2]|]; reflexivity.
  - destruct (exec_move hz m s) as [[s1 e1]|]; [|reflexivity].
    rewrite IH.
    destruct (exec hz rest s1) as [[s2 e2]|]; [|reflexivity].
    destruct (exec hz l2 s2) as [[s3 e3]|]; [|reflexivity].
    rewrite app_assoc. reflexivity.
Qed.

(** A blocked [button_task] and a sleeping sweep stay where they are. *)
Lemma exec_task_waiting (n : nat) (st : buttons) (spc : sweep_pc) :
  exec hz (replicate n TaskRuns) (mkSystem st TaskWaiting spc)
  = Some (mkSystem st TaskWaiting spc, []).
Proof.
  induction n as [|n IH]; [reflexivity|].
  cbn [replicate exec exec_move task shared sweep task_step fst snd].
  rewrite IH. reflexivity.
Qed.

Lemma exec_sweep_sleeping (n : nat) (st : buttons) (tpc : task_pc) :
  exec hz (replicate n SweepRuns) (mkSystem st tpc SweepSleeping)
  = Some (mkSystem st tpc SweepSleeping, []).
Proof.
  induction n as [|n IH]; [reflexivity|].
  cbn [replicate exec exec_move task shared sweep sweep_step fst snd].
  rewrite IH. reflexivity.
Qed.

Lemma exec_wake (now : Z) (ms : list move) (st : buttons) :
  exec hz (Wake now :: ms) (resting st)
  = exec hz ms (mkSystem st TaskWaiting (sweep_at now 0)).
Proof.
  cbn [exec exec_move resting task sweep shared].
  destruct (exec hz ms _) as [[s2 e2]|]; reflexivity.
Qed.

Lemma exec_task_runs (n : nat) (s : system) :
  exec hz (replicate (S n) TaskRuns) s =
    let r := task_step hz (task s) (shared s) in
    match exec hz (replicate n TaskRuns)
               (mkSystem r.1.1 r.1.2 (sweep s)) with
    | Some (s2, e2) => Some (s2, r.2 ++ e2)
    | None => None
    end.
Proof. reflexivity. Qed.

Lemma exec_sweep_runs (n : nat) (s : system) :
  exec hz (replicate (S n) SweepRuns) s =
    let r := sweep_step hz (sweep s) (shared s) in
    match exec hz (replicate n SweepRuns)
               (mkSystem r.1.1 (task s) r.1.2) with
    | Some (s2, e2) => Some (s2, r.2 ++ e2)
    | None => None
    end.
Proof. reflexivity. Qed.

Lemma store_store (i : nat) (f g : button_state_t -> button_state_t)
      (st : buttons) :
  store i f (store i g st) = store i (fun btn => f (g btn)) st.
Proof.
  unfold store.
  destruct (button_states st !! i) as [btn|] eqn:Hbtn;
    cbn [button_states last_debounce_time callback_registered].
  - rewrite list_lookup_insert_eq by (apply lookup_lt_Some in Hbtn; exact Hbtn).
    rewrite list_insert_insert_eq. reflexivity.
  - rewrite Hbtn. reflexivity.
Qed.

(** An iteration of [button_task] that nothing interrupts is one
    [button_task_step]. *)
Lemma serial_edge (ev : gpio_event_t) (now : Z) (st : buttons) :
  exec hz (serial (Edge ev now)) (resting st)
  = Some (resting (button_task_step hz ev now st).1,
          (button_task_step hz ev now st).2).
Proof.
  unfold serial, resting. cbn [exec exec_move task shared sweep].
  unfold receive, button_task_step.
  destruct (find_button_index (gpio_num ev)) as [idx|];
    [|cbn [fst snd]; rewrite exec_task_waiting; reflexivity].
  destruct (button_states st !! idx) as [btn|] eqn:Hbtn;
    [|cbn [fst snd]; rewrite exec_task_waiting; reflexivity].
  destruct (last_debounce_time st !! idx) as [last|];
    [|cbn [fst snd]; rewrite exec_task_waiting; reflexivity].
  destruct (_ <? _);
    [|cbn [fst snd]; rewrite exec_task_waiting; reflexivity].
  cbn [fst snd].
  destruct (level ev =? 1).
  - do 3 (rewrite exec_task_runs;
          cbn [task shared sweep task_step fst snd]).
    rewrite exec_task_waiting. rewrite !store_store.
    unfold store. cbn [button_states last_debounce_time callback_registered].
    rewrite Hbtn. reflexivity.
  - rewrite exec_task_runs.
    cbn [task shared sweep task_step fst snd button_states]. rewrite Hbtn.
    destruct (pressed btn) eqn:Hp; cbn [fst snd];
      [|rewrite exec_task_waiting; reflexivity].
    rewrite exec_task_runs.
    cbn [task shared sweep task_step fst snd button_states]. rewrite Hbtn.
    cbn [fst snd].
    rewrite exec_task_runs.
    cbn [task shared sweep task_step fst snd button_states]. rewrite Hbtn.
    destruct (event_sent btn) eqn:He; cbn [fst snd negb].
    + do 2 (rewrite exec_task_runs;
            cbn [task shared sweep task_step fst snd]).
      rewrite exec_task_waiting. rewrite store_store.
      unfold store. cbn [button_states last_debounce_time callback_registered].
      rewrite Hbtn. unfold set_pressed, set_event_sent.
      cbn [gpio pressed press_start_time event_sent]. rewrite app_nil_r.
      reflexivity.
    + do 3 (rewrite exec_task_runs;
            cbn [task shared sweep task_step fst snd]).
      rewrite exec_task_waiting. rewrite store_store.
      unfold store. cbn [button_states last_debounce_time callback_registered].
      rewrite Hbtn. unfold set_pressed, set_event_sent.
      cbn [gpio pressed press_start_time event_sent].
      rewrite !app_nil_r. reflexivity.
Qed.

(** A sweep that nothing interrupts, from button [length pre] on, does
    what the loop body does for each of the remaining buttons. *)
Lemma sweep_serial (now : Z) (cb : bool) (deb : list Z)
      (suf : list button_state_t) :
  forall (pre : list button_state_t) (n : nat),
    (length pre + length suf = NUM_BUTTONS)%nat ->
    (5 * length suf <= n)%nat ->
    exec hz (replicate n SweepRuns)
         (mkSystem (mkButtons (pre ++ suf) deb cb) TaskWaiting
                   (sweep_at now (length pre)))
    = Some (resting
              (mkButtons (pre ++ (check_from hz now cb (length pre) suf).1)
                         deb cb),
            (check_from hz now cb (length pre) suf).2).
Proof.
  induction suf as [|b rest IH]; intros pre n Hlen Hn.
  - cbn [length] in Hlen. rewrite Nat.add_0_r in Hlen. rewrite Hlen.
    cbn [check_from fst snd]. apply exec_sweep_sleeping.
  - cbn [length] in Hlen, Hn.
    assert (Hlt : (length pre < NUM_BUTTONS)%nat) by lia.
    assert (Hpc : sweep_at now (length pre)
                  = SweepTestPressed now (length pre)).
    { unfold sweep_at. destruct (Nat.ltb_spec (length pre) NUM_BUTTONS);
        [reflexivity | lia]. }
    assert (Hb : forall b', (pre ++ b' :: rest) !! length pre = Some b')
      by (intros b'; apply list_lookup_middle; reflexivity).
    assert (Hnext : forall b' m,
               (5 * length rest <= m)%nat ->
               exec hz (replicate m SweepRuns)
                    (mkSystem (mkButtons (pre ++ b' :: rest) deb cb)
                              TaskWaiting (sweep_next now (length pre)))
               = Some (resting
                         (mkButtons
                            (pre ++ b' ::
                               (check_from hz now cb (S (length pre)) rest).1)
                            deb cb),
                       (check_from hz now cb (S (length pre)) rest).2)).
    { intros b' m Hm.
      pose proof (IH (pre ++ [b']) m) as H.
      rewrite length_app in H. cbn [length] in H.
      rewrite Nat.add_1_r in H. rewrite <- !app_assoc in H.
      cbn [app] in H. apply H; lia. }
    rewrite Hpc. cbn [check_from fst snd]. unfold check_button.
    destruct n as [|[|[|[|[|n]]]]]; try lia.
    rewrite exec_sweep_runs.
    cbn [task shared sweep sweep_step fst snd button_states]. rewrite Hb.
    destruct (pressed b) eqn:Hp; cbn [fst snd andb].
    2:{ rewrite Hnext by lia. reflexivity. }
    rewrite exec_sweep_runs.
    cbn [task shared sweep sweep_step fst snd button_states]. rewrite Hb.
    destruct (event_sent b) eqn:He; cbn [fst snd negb].
    1:{ rewrite Hnext by lia. reflexivity. }
    rewrite exec_sweep_runs.
    cbn [task shared sweep sweep_step fst snd button_states]. rewrite Hb.
    cbn [fst snd].
    destruct (LONG_PRESS_MS <=? _); cbn [fst snd].
    2:{ rewrite Hnext by lia. reflexivity. }
    do 2 (rewrite exec_sweep_runs;
          cbn [task shared sweep sweep_step fst snd callback_registered]).
    unfold store. cbn [button_states last_debounce_time callback_registered].
    rewrite Hb.
    replace (<[length pre := set_event_sent true b]> (pre ++ b :: rest))
      with (pre ++ set_event_sent true b :: rest).
    2:{ replace (length pre) with (length pre + 0)%nat at 1 by lia.
        rewrite insert_app_r. reflexivity. }
    rewrite Hnext by lia.
    unfold set_event_sent. rewrite Hp. reflexivity.
Qed.

(** An iteration of the sweep that nothing interrupts is one
    [button_long_press_check]. *)
Lemma serial_sweep (now : Z) (st : buttons) :
  length (button_states st) = NUM_BUTTONS ->
  exec hz (serial (Sweep now)) (resting st)
  = Some (resting (button_long_press_check hz now st).1,
          (button_long_press_check hz now st).2).
Proof.
  intros Hlen. destruct st as [btns deb cb]. cbn [button_states] in Hlen.
  unfold serial. rewrite exec_wake.
  assert (Hn : (5 * length btns <= 5 * NUM_BUTTONS)%nat)
    by (rewrite Hlen; apply Nat.le_refl).
  exact (sweep_serial now cb deb btns [] (5 * NUM_BUTTONS) Hlen Hn).
Qed.

Lemma serial_step (a : action) (st : buttons) :
  layout st ->
  exec hz (serial a) (resting st)
  = Some (resting (step hz a st).1, (step hz a st).2).
Proof.
  intros (Hlen & _). destruct a as [ev now|now]; cbn [step].
  - apply serial_edge.
  - apply serial_sweep. exact Hlen.
Qed.

(** On the schedules in which no iteration is interrupted, the two tasks
    do what [run] says. *)
Lemma serial_refines (acts : list action) :
  forall st : buttons,
    layout st ->
    exec hz (schedule_of acts) (resting st)
    = Some (resting (run hz acts st).1, (run hz acts st).2).
Proof.
  induction acts as [|a rest IH]; intros st Hl.
  - reflexivity.
  - unfold schedule_of. cbn [map concat]. fold (schedule_of rest).
    rewrite exec_app, (serial_step a st Hl).
    rewrite (IH _ (step_layout hz a st Hl)).
    reflexivity.
Qed.

(** X9. In every schedule in which no iteration of either task is
    interrupted by the other (each edge is handled, and each sweep made,
    from beginning to end before the other task runs), an accepted press
    of button [i] at tick [t0] followed by an accepted release at tick
    [t1] makes the callback fire exactly once for that button, whatever
    sweeps and edges of other buttons come in between: with a Long event
    if a sweep came 500 ms or more after the press or the release does
    ([(t - t0) * 1000 >= 500 * hz]), with a Short event otherwise;
    afterwards both tasks are back at rest and the button is registered
    as released. Accepted means more than 50 ms after the debounce
    reference; the products of the millisecond conversion are taken to
    fit in 32 bits. *)
Theorem press_release_exactly_one_event
        (i : nat) (press release : gpio_event_t) (t0 t1 last : Z)
        (acts : list action) (st : buttons) :
  0 < hz -> 50 * hz < U32.modulus ->
  layout st ->
  callback_registered st = true ->
  last_debounce_time st !! i = Some last ->
  edge_on i (Edge press t0) = true ->
  level press = 1 ->
  50 * hz < U32.sub t0 last * 1000 ->
  Forall (fun a => edge_on i a = false) acts ->
  forallb (conversion_fits t0) (acts ++ [Edge release t1]) = true ->
  edge_on i (Edge release t1) = true ->
  level release <> 1 ->
  50 * hz < U32.sub t1 t0 * 1000 ->
  exists (st' : buttons) (evs : list event),
    exec hz (schedule_of (Edge press t0 :: acts ++ [Edge release t1]))
         (resting st)
    = Some (resting st', evs) /\
    events_of i evs
    = [(i, if existsb (sweep_at_least hz 500 t0) acts
              || at_least_ms hz 500 t0 t1
           then BUTTON_PRESS_LONG else BUTTON_PRESS_SHORT)] /\
    exists btn,
      button_states st' !! i = Some btn /\
      pressed btn = false /\ event_sent btn = false.
Proof.
  intros Hhz Hfit Hl Hcb Hlast Hpress Hlvl Hacc0 Hacts Hfits Hrel Hrlvl
         Hracc0.
  rewrite (serial_refines _ st Hl).
  eexists. eexists. split; [reflexivity|].
  assert (Hsome : is_Some (button_states st !! i)).
  { apply lookup_lt_is_Some. destruct Hl as (Hlen & _). rewrite Hlen.
    apply (find_button_index_lt (gpio_num press)).
    apply (edge_on_index i press t0 Hpress). }
  pose proof (debounce_test_passed hz _ Hhz Hfit Hacc0) as Hacc.
  pose proof (debounce_test_passed hz _ Hhz Hfit Hracc0) as Hracc.
  rewrite forallb_app in Hfits. apply andb_true_iff in Hfits.
  destruct Hfits as [Hfa Hfr].
  cbn [forallb conversion_fits] in Hfr. rewrite andb_true_r in Hfr.
  apply Z.ltb_lt in Hfr.
  rewrite <- (long_press_seen_at_least hz t0 acts Hhz Hfa).
  rewrite <- (long_press_test_ticks hz t0 t1 Hhz Hfr).
  cbn [run fst snd]. cbn [step].
  destruct (press_accepted hz i press t0 last st Hpress Hlvl Hsome Hlast Hacc)
    as [Hheld Hnil].
  pose proof (press_stamp hz i press t0 last st Hpress Hsome Hlast Hacc)
    as Hstamp.
  pose proof (step_callback hz (Edge press t0) st) as Hcb1.
  cbn [step] in Hcb1. rewrite Hcb in Hcb1.
  set (st1 := (button_task_step hz press t0 st).1) in *.
  rewrite Hnil. cbn [app].
  rewrite run_app. cbn [fst snd]. rewrite events_of_app.
  pose proof (run_held_unsent hz i t0 acts Hacts st1 Hcb1 Hheld) as Hrun.
  pose proof (run_debounce_frame hz i acts st1 Hacts) as Hframe.
  rewrite Hstamp in Hframe.
  pose proof (run_callback hz acts st1) as Hcb2. rewrite Hcb1 in Hcb2.
  set (st2 := (run hz acts st1).1) in *.
  cbn [run fst snd step]. rewrite app_nil_r.
  destruct (existsb (long_press_seen hz t0) acts).
  - destruct Hrun as [Hheld2 Hev]. rewrite Hev.
    destruct (release_accepted hz i release t1 t0 t0 true st2
                Hrel Hrlvl Hcb2 Hheld2 Hframe Hracc) as [Hout Hbtn].
    rewrite Hout. cbn [orb]. split; [reflexivity | exact Hbtn].
  - destruct Hrun as [Hheld2 Hev]. rewrite Hev.
    destruct (release_accepted hz i release t1 t0 t0 false st2
                Hrel Hrlvl Hcb2 Hheld2 Hframe Hracc) as [Hout Hbtn].
    rewrite Hout. cbn [orb app]. split; [|exact Hbtn].
    unfold events_of. cbn [List.filter fst]. rewrite Nat.eqb_refl.
    reflexivity.
Qed.

End ButtonSchedules.

Lemma press_release_exactly_one_event_witness :
  let st := Button.button_register_callback Button.button_init in
  let press := Button.mkGpioEvent 4 1 in
  let release := Button.mkGpioEvent 4 0 in
  exists (st' : Button.buttons) (evs : list Button.event),
    Button.exec 1000
      (Button.schedule_of
         (Button.Edge press 1000
            :: [Button.Sweep 1050; Button.Sweep 1100]
            ++ [Button.Edge release 1120]))
      (Button.resting st)
    = Some (Button.resting st', evs) /\
    Button.events_of 2 evs = [(2%nat, Button.BUTTON_PRESS_SHORT)].
Proof.
  cbv zeta.
  destruct (press_release_exactly_one_event 1000 2
              (Button.mkGpioEvent 4 1) (Button.mkGpioEvent 4 0)
              1000 1120 0 [Button.Sweep 1050; Button.Sweep 1100]
              (Button.button_register_callback Button.button_init))
    as (st' & evs & Hexec & Hev & _).
  - lia.
  - reflexivity.
  - repeat split.
  - reflexivity.
  - reflexivity.
  - reflexivity.
  - reflexivity.
  - vm_compute. reflexivity.
  - repeat constructor.
  - reflexivity.
  - reflexivity.
  - cbn. discriminate.
  - vm_compute. reflexivity.
  - exists st', evs. split; [exact Hexec | exact Hev].
Defined.

(** When an iteration is interrupted, the callback can fire twice for one
    press, once Short and once Long:
    button 0 is released 499 ms after the press, [button_task] reports
    Short and is switched out before it stores [pressed = false]; the
    sweep that wakes 1 ms later finds the button pressed, unreported and
    held for 500 ms, and reports Long. *)
Lemma release_overtaken_by_sweep :
  let st := Button.button_register_callback Button.button_init in
  let press := Button.mkGpioEvent 10 1 in
  let release := Button.mkGpioEvent 10 0 in
  option_map snd
    (Button.exec 1000
       [Button.Receive press 1000;
        Button.TaskRuns; Button.TaskRuns; Button.TaskRuns;
        Button.Receive release 1499;
        Button.TaskRuns; Button.TaskRuns; Button.TaskRuns; Button.TaskRuns;
        Button.Wake 1500;
        Button.SweepRuns; Button.SweepRuns; Button.SweepRuns;
        Button.SweepRuns; Button.SweepRuns;
        Button.SweepRuns; Button.SweepRuns; Button.SweepRuns;
        Button.SweepRuns;
        Button.TaskRuns; Button.TaskRuns]
       (Button.resting st))
  = Some [(0%nat, Button.BUTTON_PRESS_SHORT);
          (0%nat, Button.BUTTON_PRESS_LONG)].
Proof. vm_compute. reflexivity. Qed.

(** * More of the LED state: clamp, windback, modes *)

Section FloatClamp.

Lemma compare_one_antisym (m : positive) (e : Z) :
  SFcompare F32.one (S754_finite false m e)
  = option_map CompOpp (SFcompare (S754_finite false m e) F32.one).
Proof.
  unfold F32.one, SFcompare. cbn [option_map].
  rewrite (Z.compare_antisym e (-23)).
  destruct (e ?= -23) eqn:He; cbn [CompOpp]; try reflexivity.
  f_equal. rewrite Pos.compare_cont_antisym. reflexivity.
Qed.

(** X13. The clamp idiom [if (x < 0.0f) x = 0.0f; if (x > 1.0f) x = 1.0f;]
    of the timer, the LED directives and the colour library: every float
    that is not a NaN ends in [0, 1] (infinities included), a value already
    in [0, 1] is unchanged, clamping twice is clamping once, and a NaN
    passes through as a NaN, both comparisons being false. *)
Theorem clamp01_range (x : F32.float) :
  (x <> S754_nan ->
     SFleb F32.zero (F32.clamp01 x) = true /\
     SFleb (F32.clamp01 x) F32.one = true) /\
  (SFleb F32.zero x = true -> SFleb x F32.one = true ->
     F32.clamp01 x = x) /\
  F32.clamp01 (F32.clamp01 x) = F32.clamp01 x /\
  F32.clamp01 S754_nan = S754_nan.
Proof.
  assert (Hfin : forall m e,
             let x := S754_finite false m e in
             (SFleb F32.zero (F32.clamp01 x) = true /\
              SFleb (F32.clamp01 x) F32.one = true) /\
             (SFleb x F32.one = true -> F32.clamp01 x = x) /\
             F32.clamp01 (F32.clamp01 x) = F32.clamp01 x).
  { intros m e x0.
    assert (Hcl : F32.clamp01 x0
                  = if SFltb F32.one x0 then F32.one else x0)
      by reflexivity.
    assert (Hone : F32.clamp01 F32.one = F32.one) by reflexivity.
    assert (Hz : SFleb F32.zero x0 = true) by reflexivity.
    unfold SFltb in Hcl. unfold SFleb at 3.
    pose proof (compare_one_antisym m e) as Hanti. fold x0 in Hanti.
    rewrite Hanti in Hcl.
    destruct (SFcompare x0 F32.one) as [[| |]|] eqn:Hc;
      cbn [option_map CompOpp] in Hcl.
    - rewrite Hcl. unfold SFleb at 2. rewrite Hc. auto.
    - rewrite Hcl. unfold SFleb at 2. rewrite Hc. auto.
    - rewrite Hcl, Hone. repeat split; try reflexivity. discriminate.
    - exfalso. unfold x0, F32.one, SFcompare in Hc.
      destruct (e ?= -23); discriminate. }
  destruct x as [[|]|[|]| |[|] m e];
    try (split; [intros Hn; first [contradiction | split; reflexivity]|];
         split; [intros H1 H2;
                 first [reflexivity | discriminate H1 | discriminate H2]|];
         split; reflexivity).
  destruct (Hfin m e) as (H1 & H2 & H3).
  split; [intros _; exact H1|]. split; [intros _; exact H2|].
  split; [exact H3 | reflexivity].
Qed.

Lemma clamp01_range_witness :
  (SFleb F32.zero (F32.clamp01 (F32.of_Z 7)) = true /\
   SFleb (F32.clamp01 (F32.of_Z 7)) F32.one = true) /\
  F32.clamp01 F32.half = F32.half.
Proof.
  split.
  - apply (proj1 (clamp01_range (F32.of_Z 7))). discriminate.
  - apply (proj1 (proj2 (clamp01_range F32.half))); reflexivity.
Defined.

End FloatClamp.

Section LedAnimation.

Import Led.

Ltac led_fields :=
  cbn [led_colors target_intensity current_intensity target_progress
       current_progress progress_color pulsing_enabled solid_mode
       pending_solid_mode pending_solid_color pending_start_transition
       pending_start_color pending_start_progress pulsing_color
       pulse_time_ms andb negb].

Ltac led_fields_all :=
  cbn [led_colors target_intensity current_intensity target_progress
       current_progress progress_color pulsing_enabled solid_mode
       pending_solid_mode pending_solid_color pending_start_transition
       pending_start_color pending_start_progress pulsing_color
       pulse_time_ms andb negb] in *.

Lemma run_ops_app (l1 l2 : list op) (s : led) :
  run_ops (l1 ++ l2) s = run_ops l2 (run_ops l1 s).
Proof. unfold run_ops. apply fold_left_app. Qed.

(** The levels of a bar that winds back from full: above the commit
    threshold [0.01f] for 227 steps, at or below it at step 228. *)
Lemma unwound_above (k : nat) :
  (k < 227)%nat -> SFleb (unwound (S k)) c0_01 = false.
Proof.
  intros Hk.
  assert (Hall : forallb (fun k => negb (SFleb (unwound (S k)) c0_01))
                         (seq 0 227) = true) by (vm_compute; reflexivity).
  rewrite forallb_forall in Hall.
  specialize (Hall k). rewrite in_seq in Hall.
  apply negb_true_iff. apply Hall. lia.
Qed.

Lemma unwound_below : SFleb (unwound 228) c0_01 = true.
Proof. vm_compute. reflexivity. Qed.

(** One frame of a bar that is winding back. *)
Lemma frame_winding_back (k : nat) (shown color : Z) (progress : F32.float)
      (s : led) :
  winding_back k shown color progress s ->
  let s' := led_task_step MutexTaken s in
  (SFleb (unwound (S k)) c0_01 = false ->
     winding_back (S k) shown color progress s') /\
  (SFleb (unwound (S k)) c0_01 = true ->
     pending_start_transition s' = false /\
     solid_mode s' = false /\
     pulsing_enabled s' = false /\
     progress_color s' = color /\
     current_progress s' = F32.zero /\
     target_progress s' = progress).
Proof.
  intros (Hso & Hpu & Hps & Hst & Hc & Hp & Ht & Hcur & Hsh).
  destruct s. led_fields_all. subst.
  unfold led_task_step, animate_progress. led_fields.
  change (F32.clamp01
            (F32.add (unwound k)
               (F32.mul (F32.sub F32.zero (unwound k)) TRANSITION_SPEED)))
    with (unwound (S k)).
  split; intros Hle; rewrite Hle; led_fields.
  - repeat split.
  - repeat split.
Qed.

(** [led_set_progress] during a windback only replaces the pending
    progress. *)
Lemma set_progress_winding_back (k : nat) (shown color c : Z)
      (progress p : F32.float) (m : mutex_result) (s : led) :
  winding_back k shown color progress s ->
  winding_back k shown color
    (latest_progress progress [SetProgress m p c])
    (led_set_progress m p c s).
Proof.
  intros (Hso & Hpu & Hps & Hst & Hc & Hp & Ht & Hcur & Hsh).
  destruct s. led_fields_all. subst.
  unfold led_set_progress, guarded, led_set_progress_body.
  destruct m; led_fields; cbn [latest_progress fold_left];
    repeat split.
Qed.

Lemma latest_progress_cons (p : F32.float) (o : op) (ops : list op) :
  latest_progress p (o :: ops)
  = latest_progress (latest_progress p [o]) ops.
Proof. reflexivity. Qed.

Lemma run_winding_back (shown color : Z) (ops : list op) :
  forall (k : nat) (progress : F32.float) (s : led),
    forallb is_progress_op ops = true ->
    (k + length (List.filter is_frame ops) <= 227)%nat ->
    winding_back k shown color progress s ->
    winding_back (k + length (List.filter is_frame ops)) shown color
                 (latest_progress progress ops) (run_ops ops s).
Proof.
  induction ops as [|o rest IH]; intros k progress s Hops Hk Hw.
  - cbn [List.filter length]. rewrite Nat.add_0_r. exact Hw.
  - cbn [forallb] in Hops. apply andb_true_iff in Hops.
    destruct Hops as [Ho Hrest].
    change (run_ops (o :: rest) s) with (run_ops rest (apply_op o s)).
    rewrite latest_progress_cons.
    cbn [List.filter] in Hk |- *.
    destruct o as [m|m c|m i c|m x|m p c|m c e|m]; try discriminate Ho.
    + destruct m; cbn [is_frame] in Hk |- *.
      * cbn [length] in Hk |- *.
        replace (k + S (length (List.filter is_frame rest)))%nat
          with (S k + length (List.filter is_frame rest))%nat by lia.
        apply IH; [exact Hrest | lia |].
        apply (frame_winding_back k shown color progress s Hw).
        apply unwound_above. lia.
      * apply IH; [exact Hrest | exact Hk | exact Hw].
      * apply IH; [exact Hrest | exact Hk | exact Hw].
    + cbn [is_frame] in Hk |- *.
      apply IH; [exact Hrest | exact Hk |].
      apply set_progress_winding_back. exact Hw.
Qed.

(** X14. The windback from solid mode to the progress bar always
    completes: after a [led_set_progress] issued in solid mode, the 228th
    frame of [led_task] commits the switch, however many further
    [led_set_progress] calls come in between. Until then the bar shows the
    colour of the first LED and falls from full; at the commit the bar
    restarts from 0 in the colour of the FIRST call, with the progress of
    the LATEST call as its target. *)
Theorem windback_commits_on_frame_228 (m0 : mutex_result) (p0 : F32.float)
        (c0 : Z) (ops : list op) (s : led) :
  m0 <> MutexBusy ->
  solid_mode s = true ->
  forallb is_progress_op ops = true ->
  (length (List.filter is_frame ops) <= 227)%nat ->
  let s1 := run_ops (SetProgress m0 p0 c0 :: ops) s in
  let s2 := led_task_step MutexTaken s1 in
  (pending_start_transition s1 = true /\
   solid_mode s1 = false /\
   progress_color s1 = nth 0 (led_colors s) 0 /\
   target_progress s1 = F32.zero /\
   current_progress s1 = unwound (length (List.filter is_frame ops))) /\
  (length (List.filter is_frame ops) = 227%nat ->
     pending_start_transition s2 = false /\
     solid_mode s2 = false /\
     pulsing_enabled s2 = false /\
     progress_color s2 = c0 /\
     current_progress s2 = F32.zero /\
     target_progress s2 = latest_progress (F32.clamp01 p0) ops).
Proof.
  intros Hm Hsolid Hops Hk s1 s2.
  assert (Hw0 : winding_back 0 (nth 0 (led_colors s) 0) c0 (F32.clamp01 p0)
                             (led_set_progress m0 p0 c0 s)).
  { unfold led_set_progress, guarded, led_set_progress_body.
    rewrite Hsolid.
    destruct m0; [| |contradiction]; repeat split. }
  pose proof (run_winding_back (nth 0 (led_colors s) 0) c0 ops 0
                (F32.clamp01 p0) (led_set_progress m0 p0 c0 s)
                Hops Hk Hw0) as Hw.
  cbn [Nat.add] in Hw.
  change (run_ops ops (led_set_progress m0 p0 c0 s)) with s1 in Hw.
  split.
  - destruct Hw as (Hso & Hpu & Hps & Hst & Hc & Hp & Ht & Hcur & Hsh).
    auto.
  - intros H227. rewrite H227 in Hw.
    apply (frame_winding_back 227 _ _ _ s1 Hw).
    exact unwound_below.
Qed.

Lemma windback_commits_on_frame_228_witness :
  let ops := repeat (Frame MutexTaken) 227 in
  let s1 :=
    run_ops (SetProgress MutexTaken F32.half LED_COLOR_GREEN :: ops)
            (led_clear_all MutexTaken led_init) in
  pending_start_transition s1 = true /\
  pending_start_transition (led_task_step MutexTaken s1) = false /\
  progress_color (led_task_step MutexTaken s1) = LED_COLOR_GREEN.
Proof.
  cbv zeta.
  pose proof (windback_commits_on_frame_228 MutexTaken F32.half
                LED_COLOR_GREEN (repeat (Frame MutexTaken) 227)
                (led_clear_all MutexTaken led_init)) as H.
  cbv zeta in H.
  destruct H as [(H1 & _) H2].
  - discriminate.
  - reflexivity.
  - vm_compute. reflexivity.
  - vm_compute. lia.
  - destruct H2 as (H3 & _ & _ & H4 & _).
    + vm_compute. reflexivity.
    + split; [exact H1 | split; [exact H3 | exact H4]].
Defined.

Lemma op_stalled (shown : Z) (o : op) (s : led) :
  is_progress_op o = true -> stalled shown s -> stalled shown (apply_op o s).
Proof.
  intros Ho (Hso & Hst & Ht & Hc & Hsh & Hor).
  destruct s. led_fields_all. subst.
  destruct o as [m|m c|m i c|m x|m p c|m c e|m]; try discriminate Ho;
    cbn [apply_op].
  - destruct m; [|repeat split; auto ..].
    unfold led_task_step. led_fields.
    destruct pulsing_enabled0; led_fields.
    + repeat split; auto.
    + destruct Hor as [Hor|Hor]; [discriminate|]. subst.
      unfold animate_progress. led_fields.
      change (F32.clamp01
                (F32.add F32.one
                   (F32.mul (F32.sub F32.one F32.one) TRANSITION_SPEED)))
        with F32.one.
      change (SFleb F32.one c0_01) with false. led_fields.
      repeat split; auto.
  - unfold led_set_progress, guarded, led_set_progress_body.
    destruct m; led_fields; repeat split; auto.
Qed.

(** X15. A [led_set_pulsing (color, true)] issued while a start windback
    is pending leaves the pending start in place with the bar and its
    target both full; from then on [led_set_progress] only updates the
    pending progress, the windback never starts, and no number of frames
    commits the start: the bar stays full in the old colour until another
    directive ([led_set_color], [led_clear_all], [led_set_led_color])
    intervenes. *)
Theorem pending_start_stalls_after_pulsing (m : mutex_result) (color : Z)
        (ops : list op) (s : led) :
  m <> MutexBusy ->
  pending_start_transition s = true ->
  forallb is_progress_op ops = true ->
  let s' := run_ops (SetPulsing m color true :: ops) s in
  pending_start_transition s' = true /\
  current_progress s' = F32.one /\
  target_progress s' = F32.one /\
  progress_color s' = progress_color s.
Proof.
  intros Hm Hst Hops s'.
  assert (H0 : stalled (progress_color s) (led_set_pulsing m color true s)).
  { unfold led_set_pulsing, guarded.
    destruct m; [| |contradiction]; repeat split; auto. }
  assert (Hrun : forall ops s0,
             forallb is_progress_op ops = true ->
             stalled (progress_color s) s0 ->
             stalled (progress_color s) (run_ops ops s0)).
  { clear. induction ops as [|o rest IH]; intros s0 Hops Hs0.
    - exact Hs0.
    - cbn [forallb] in Hops. apply andb_true_iff in Hops.
      destruct Hops as [Ho Hrest].
      change (run_ops (o :: rest) s0) with (run_ops rest (apply_op o s0)).
      apply IH; [exact Hrest|]. apply op_stalled; assumption. }
  destruct (Hrun ops _ Hops H0) as (_ & H1 & H2 & H3 & H4 & _).
  auto.
Qed.

Lemma pending_start_stalls_after_pulsing_witness :
  let s :=
    led_set_progress MutexTaken F32.half LED_COLOR_GREEN
      (led_clear_all MutexTaken led_init) in
  let ops :=
    SetProgress MutexTaken F32.half LED_COLOR_GREEN
      :: repeat (Frame MutexTaken) 500 in
  pending_start_transition
    (run_ops (SetPulsing MutexTaken LED_COLOR_RED true :: ops) s) = true.
Proof.
  cbv zeta.
  refine (proj1 (pending_start_stalls_after_pulsing MutexTaken LED_COLOR_RED
            (SetProgress MutexTaken F32.half LED_COLOR_GREEN
               :: repeat (Frame MutexTaken) 500)
            (led_set_progress MutexTaken F32.half LED_COLOR_GREEN
               (led_clear_all MutexTaken led_init)) _ _ _)).
  - discriminate.
  - reflexivity.
  - vm_compute. reflexivity.
Defined.

Lemma fill_length (color : Z) (colors : list Z) :
  length (fill color colors) = length colors.
Proof. unfold fill. apply length_map. Qed.

Lemma apply_op_modes_ok (o : op) (s : led) :
  modes_ok s -> modes_ok (apply_op o s).
Proof.
  intros [Hlen Hex]. destruct s. led_fields_all.
  destruct o as [m|m c|m i c|m x|m p c|m c e|m]; cbn [apply_op].
  - destruct m; [|split; assumption ..].
    unfold led_task_step. led_fields.
    destruct pulsing_enabled0, solid_mode0; try discriminate Hex;
      led_fields; unfold modes_ok; led_fields; try (split; [exact Hlen|]);
      try reflexivity.
    unfold animate_progress. led_fields.
    destruct pending_solid_mode0; led_fields;
      repeat match goal with
             | |- context [if ?b then _ else _] => destruct b; led_fields
             end;
      rewrite ?fill_length; auto.
  - unfold led_set_color, guarded, led_set_color_body, modes_ok.
    destruct m, solid_mode0; led_fields; rewrite ?fill_length;
      split; auto.
  - unfold led_set_led_color, guarded, modes_ok.
    destruct (_ <=? _); [split; assumption|].
    destruct m; led_fields; rewrite ?length_insert; split; auto.
  - unfold led_set_intensity, guarded, modes_ok.
    destruct m; led_fields; split; auto.
  - unfold led_set_progress, guarded, led_set_progress_body, modes_ok.
    destruct m, solid_mode0, pending_start_transition0; led_fields;
      split; auto.
  - unfold led_set_pulsing, guarded, modes_ok.
    destruct m; led_fields; rewrite ?andb_false_r; split; auto.
  - unfold led_clear_all, guarded, modes_ok.
    destruct m; led_fields; rewrite ?fill_length; split; auto.
Qed.

(** X16. Whatever directives are called, with whatever arguments and
    mutex outcomes, and however they interleave with the frames of
    [led_task], the colour array keeps its [NUM_LEDS] entries and pulsing
    and solid mode are never on together; the state that [led_init]
    leaves is such a state. *)
Theorem display_modes_exclusive (ops : list op) (s : led) :
  modes_ok led_init /\
  (modes_ok s ->
     length (led_colors (run_ops ops s)) = NUM_LEDS /\
     (pulsing_enabled (run_ops ops s) = true ->
        solid_mode (run_ops ops s) = false) /\
     (solid_mode (run_ops ops s) = true ->
        pulsing_enabled (run_ops ops s) = false)).
Proof.
  split; [split; reflexivity|].
  intros Hok.
  assert (H : modes_ok (run_ops ops s)).
  { revert s Hok. induction ops as [|o rest IH]; intros s Hok.
    - exact Hok.
    - change (run_ops (o :: rest) s) with (run_ops rest (apply_op o s)).
      apply IH. apply apply_op_modes_ok. exact Hok. }
  destruct H as [Hlen Hex]. split; [exact Hlen|].
  destruct (pulsing_enabled (run_ops ops s)), (solid_mode (run_ops ops s));
    try discriminate Hex; split; auto.
Qed.

Lemma display_modes_exclusive_witness :
  let s :=
    run_ops [SetPulsing MutexTaken LED_COLOR_RED true; Frame MutexTaken;
             SetLedColor MutexTaken 3 LED_COLOR_GREEN] led_init in
  length (led_colors s) = NUM_LEDS /\
  (solid_mode s = true -> pulsing_enabled s = false).
Proof.
  cbv zeta.
  pose proof (display_modes_exclusive
                [SetPulsing MutexTaken LED_COLOR_RED true; Frame MutexTaken;
                 SetLedColor MutexTaken 3 LED_COLOR_GREEN] led_init) as H.
  destruct H as [_ H]. destruct H as (H1 & _ & H3).
  - split; reflexivity.
  - split; [exact H1 | exact H3].
Defined.

Lemma apply_op_target_intensity (o : op) (s : led) :
  target_intensity (apply_op o s)
  = latest_intensity (target_intensity s) [o].
Proof.
  destruct s.
  destruct o as [m|m c|m i c|m x|m p c|m c e|m];
    cbn [apply_op latest_intensity fold_left].
  - destruct m; try reflexivity.
    unfold led_task_step. led_fields.
    destruct pulsing_enabled0, solid_mode0; led_fields; try reflexivity.
    unfold animate_progress. led_fields.
    repeat match goal with
           | |- context [if ?b then _ else _] => destruct b; led_fields
           end; reflexivity.
  - unfold led_set_color, guarded, led_set_color_body.
    destruct m, solid_mode0; reflexivity.
  - unfold led_set_led_color, guarded.
    destruct (_ <=? _); [reflexivity|]. destruct m; reflexivity.
  - unfold led_set_intensity, guarded. destruct m; reflexivity.
  - unfold led_set_progress, guarded, led_set_progress_body.
    destruct m, solid_mode0, pending_start_transition0; reflexivity.
  - unfold led_set_pulsing, guarded. destruct m; reflexivity.
  - unfold led_clear_all, guarded. destruct m; reflexivity.
Qed.

(** X17. The brightness setting survives everything else:
    [led_get_intensity] returns the value of the latest
    [led_set_intensity] that obtained the mutex, clamped into [0, 1],
    whatever other directives and frames have run since (mode changes and
    windbacks reset the displayed intensity, never the setting); when
    [led_get_intensity] itself cannot obtain the mutex it returns 0.0
    instead. *)
Theorem intensity_setting_persists (m : mutex_result) (ops : list op)
        (s : led) :
  led_get_intensity m (run_ops ops s)
  = match m with
    | MutexBusy => F32.zero
    | _ => latest_intensity (target_intensity s) ops
    end.
Proof.
  assert (H : target_intensity (run_ops ops s)
              = latest_intensity (target_intensity s) ops).
  { revert s. induction ops as [|o rest IH]; intros s.
    - reflexivity.
    - change (run_ops (o :: rest) s) with (run_ops rest (apply_op o s)).
      rewrite IH, apply_op_target_intensity. reflexivity. }
  unfold led_get_intensity. rewrite H. destruct m; reflexivity.
Qed.

(** X18. [led_set_led_color] checks its index before anything else: an
    index of [NUM_LEDS] or more changes nothing. A valid index, with the
    mutex obtained, sets that one entry of the colour array and no other,
    and switches to solid mode at once, without the windback of
    [led_set_color] and without clearing a pending start. *)
Theorem led_set_led_color_bounds (m : mutex_result) (led_index color : Z)
        (s : led) :
  0 <= led_index < 256 ->
  let s' := led_set_led_color m led_index color s in
  (Z.of_nat NUM_LEDS <= led_index -> s' = s) /\
  (led_index < Z.of_nat (length (led_colors s)) ->
   led_index < Z.of_nat NUM_LEDS ->
   m <> MutexBusy ->
     led_colors s' !! Z.to_nat led_index = Some color /\
     (forall j : nat, j <> Z.to_nat led_index ->
        led_colors s' !! j = led_colors s !! j) /\
     length (led_colors s') = length (led_colors s) /\
     solid_mode s' = true /\
     pulsing_enabled s' = false /\
     pending_start_transition s' = pending_start_transition s).
Proof.
  intros Hidx s'. subst s'. unfold led_set_led_color.
  rewrite Z.mod_small by exact Hidx.
  split.
  - intros Hge. destruct (Z.leb_spec (Z.of_nat NUM_LEDS) led_index);
      [reflexivity | lia].
  - intros Hlen Hlt Hm.
    destruct (Z.leb_spec (Z.of_nat NUM_LEDS) led_index); [lia|].
    unfold guarded. destruct m; [| |contradiction]; led_fields.
    + split; [apply list_lookup_insert_eq; lia|].
      split; [intros j Hj; apply list_lookup_insert_ne; congruence|].
      split; [apply length_insert|]. auto.
    + split; [apply list_lookup_insert_eq; lia|].
      split; [intros j Hj; apply list_lookup_insert_ne; congruence|].
      split; [apply length_insert|]. auto.
Qed.

Lemma led_set_led_color_bounds_witness :
  led_set_led_color MutexTaken 10 LED_COLOR_RED led_init = led_init /\
  led_colors (led_set_led_color MutexTaken 9 LED_COLOR_RED led_init)
    !! 9%nat = Some LED_COLOR_RED.
Proof.
  split.
  - refine (proj1 (led_set_led_color_bounds MutexTaken 10 LED_COLOR_RED
                     led_init _) _); [lia | vm_compute; discriminate].
  - refine (proj1 (proj2 (led_set_led_color_bounds MutexTaken 9
                            LED_COLOR_RED led_init _) _ _ _)).
    + lia.
    + vm_compute. reflexivity.
    + vm_compute. reflexivity.
    + discriminate.
Defined.

(** X19. In progress mode with no start pending, a [led_set_color]
    followed by a [led_set_progress] before the windback has finished is
    cancelled: the state is the one that [led_set_progress] alone would
    have left, except that the colour of the cancelled request is still
    remembered in [pending_solid_color]; no frame will switch to solid
    mode. *)
Theorem set_progress_cancels_pending_solid
        (m m' : mutex_result) (k color : Z) (progress : F32.float)
        (s : led) :
  solid_mode s = false ->
  pending_start_transition s = false ->
  m <> MutexBusy -> m' <> MutexBusy ->
  let direct := led_set_progress m progress color s in
  let s' := led_set_progress m progress color (led_set_color m' k s) in
  pending_solid_mode (led_set_color m' k s) = true /\
  s' = mkLed (led_colors direct) (target_intensity direct)
             (current_intensity direct) (target_progress direct)
             (current_progress direct) (progress_color direct)
             (pulsing_enabled direct) (solid_mode direct)
             (pending_solid_mode direct) k
             (pending_start_transition direct) (pending_start_color direct)
             (pending_start_progress direct) (pulsing_color direct)
             (pulse_time_ms direct) /\
  pending_solid_mode s' = false /\
  target_progress s' = F32.clamp01 progress /\
  progress_color s' = color.
Proof.
  intros Hso Hst Hm Hm'. destruct s. led_fields_all. subst.
  unfold led_set_progress, led_set_color, guarded, led_set_progress_body,
    led_set_color_body.
  destruct m; [| |contradiction]; (destruct m'; [| |contradiction]);
    led_fields; repeat split.
Qed.

Lemma set_progress_cancels_pending_solid_witness :
  let s := led_set_pulsing MutexTaken LED_COLOR_GREEN false led_init in
  pending_solid_mode
    (led_set_progress MutexTaken F32.half LED_COLOR_GREEN
       (led_set_color MutexTaken LED_COLOR_RED s)) = false.
Proof.
  cbv zeta.
  refine (proj1 (proj2 (proj2
    (set_progress_cancels_pending_solid MutexTaken MutexTaken LED_COLOR_RED
       LED_COLOR_GREEN F32.half
       (led_set_pulsing MutexTaken LED_COLOR_GREEN false led_init)
       _ _ _ _)))).
  - reflexivity.
  - reflexivity.
  - discriminate.
  - discriminate.
Defined.

Lemma frame_pulsing (s : led) :
  pulsing_enabled s = true ->
  pulsing_enabled (led_task_step MutexTaken s) = true /\
  current_progress (led_task_step MutexTaken s) = F32.one /\
  pulse_time_ms (led_task_step MutexTaken s)
    = U32.add (pulse_time_ms s) 10.
Proof.
  intros Hp. destruct s. led_fields_all. subst.
  unfold led_task_step. led_fields. repeat split.
Qed.

(** X20. The pulse clock: while pulsing is enabled every frame of
    [led_task] advances [pulse_time_ms] by 10, modulo 2^32, and holds the
    bar at full, so [n] frames advance it by [10 * n]; a frame that finds
    pulsing disabled resets the clock to 0, so every pulse starts from
    phase 0. *)
Theorem pulse_clock (n : nat) (s : led) :
  (pulsing_enabled s = true ->
     let s' := run_ops (repeat (Frame MutexTaken) n) s in
     pulsing_enabled s' = true /\
     U32.u32 (pulse_time_ms s')
       = U32.u32 (pulse_time_ms s + 10 * Z.of_nat n) /\
     ((0 < n)%nat -> current_progress s' = F32.one)) /\
  (pulsing_enabled s = false ->
     pulse_time_ms (led_task_step MutexTaken s) = 0).
Proof.
  split.
  - revert s. induction n as [|n IH]; intros s Hp s'; subst s'.
    + cbn [repeat]. change (run_ops [] s) with s.
      split; [exact Hp|]. split; [|lia].
      rewrite Z.add_0_r. reflexivity.
    + cbn [repeat].
      change (run_ops (Frame MutexTaken :: repeat (Frame MutexTaken) n) s)
        with (run_ops (repeat (Frame MutexTaken) n)
                      (led_task_step MutexTaken s)).
      destruct (frame_pulsing s Hp) as (Hp1 & Hc1 & Ht1).
      destruct (IH _ Hp1) as (Hp2 & Ht2 & Hc2).
      split; [exact Hp2|]. split.
      * rewrite Ht2, Ht1. unfold U32.add, U32.u32.
        rewrite Zplus_mod_idemp_l. f_equal. lia.
      * intros _. destruct n as [|n'].
        -- exact Hc1.
        -- apply Hc2. lia.
  - intros Hp. destruct s. led_fields_all. subst.
    unfold led_task_step. led_fields. reflexivity.
Qed.

Lemma pulse_clock_witness :
  let s := led_set_pulsing MutexTaken LED_COLOR_RED true led_init in
  U32.u32 (pulse_time_ms (run_ops (repeat (Frame MutexTaken) 3) s))
    = U32.u32 (pulse_time_ms s + 10 * Z.of_nat 3) /\
  pulse_time_ms (led_task_step MutexTaken led_init) = 0.
Proof.
  cbv zeta. split.
  - refine (proj1 (proj2 (proj1 (pulse_clock 3
              (led_set_pulsing MutexTaken LED_COLOR_RED true led_init)) _))).
    reflexivity.
  - refine (proj2 (pulse_clock 0 led_init) _). reflexivity.
Defined.

End LedAnimation.

(** * The colour word: channels, packing, intensity scaling *)

Section ColourWord.

Import Rounding.

Lemma byte_bits (x i : Z) :
  0 <= i -> Z.testbit (Z.land x 255) i = (i <? 8) && Z.testbit x i.
Proof.
  intros Hi. change 255 with (Z.ones 8).
  rewrite Z.land_spec, Z.testbit_ones_nonneg by lia.
  apply andb_comm.
Qed.

Lemma byte_range (x : Z) : 0 <= Z.land x 255 < 256.
Proof.
  change 255 with (Z.ones 8). rewrite Z.land_ones by lia.
  apply Z.mod_pos_bound. lia.
Qed.

Lemma shl_bits (a n i : Z) :
  0 <= n -> 0 <= i ->
  Z.testbit (U32.shl a n) i = (i <? 32) && Z.testbit a (i - n).
Proof.
  intros Hn Hi. unfold U32.shl, U32.u32, U32.modulus.
  rewrite Z.testbit_mod_pow2 by lia.
  rewrite Z.shiftl_spec by lia. reflexivity.
Qed.

Lemma small_bits (v i : Z) :
  0 <= v < 256 -> 8 <= i -> Z.testbit v i = false.
Proof.
  intros Hv Hi. destruct (Z.eq_dec v 0) as [->|Hne].
  - apply Z.testbit_0_l.
  - apply Z.bits_above_log2; [lia|].
    assert (Z.log2 v < 8) by (apply Z.log2_lt_pow2; lia). lia.
Qed.

Lemma pack_extract (color : Z) :
  Z.lor (Z.lor (U32.shl (Z.land (Z.shiftr color 16) 255) 16)
               (U32.shl (Z.land (Z.shiftr color 8) 255) 8))
        (Z.land color 255)
  = color mod 2 ^ 24.
Proof.
  apply Z.bits_inj'. intros i Hi.
  rewrite !Z.lor_spec, !shl_bits, Z.testbit_mod_pow2 by lia.
  rewrite (byte_bits color i) by lia.
  destruct (Z.ltb_spec i 8).
  - rewrite !(Z.testbit_neg_r _ (i - _)) by lia.
    destruct (Z.ltb_spec i 32); [|lia].
    destruct (Z.ltb_spec i 24); [|lia].
    cbn [andb orb]. reflexivity.
  - destruct (Z.ltb_spec i 16).
    + rewrite (Z.testbit_neg_r _ (i - 16)) by lia.
      rewrite byte_bits, Z.shiftr_spec by lia.
      replace (i - 8 + 8) with i by lia.
      destruct (Z.ltb_spec i 32); [|lia].
      destruct (Z.ltb_spec i 24); [|lia].
      destruct (Z.ltb_spec (i - 8) 8); [|lia].
      cbn [andb orb]. rewrite orb_false_r. reflexivity.
    + rewrite !byte_bits, !Z.shiftr_spec by lia.
      replace (i - 8 + 8) with i by lia.
      replace (i - 16 + 16) with i by lia.
      destruct (Z.ltb_spec (i - 8) 8); [lia|].
      destruct (Z.ltb_spec i 24).
      * destruct (Z.ltb_spec i 32); [|lia].
        destruct (Z.ltb_spec (i - 16) 8); [|lia].
        cbn [andb orb]. rewrite !orb_false_r. reflexivity.
      * destruct (Z.ltb_spec (i - 16) 8); [lia|].
        cbn [andb orb]. rewrite !andb_false_r. reflexivity.
Qed.

Lemma shl_small (v n : Z) :
  0 <= v < 256 -> 0 <= n <= 16 -> U32.shl v n = v * 2 ^ n.
Proof.
  intros Hv Hn. unfold U32.shl. rewrite Z.shiftl_mul_pow2 by lia.
  apply u32_small. unfold U32.modulus.
  assert (2 ^ n <= 2 ^ 16) by (apply Z.pow_le_mono_r; lia).
  assert (0 < 2 ^ n) by (apply Z.pow_pos_nonneg; lia).
  change (2 ^ 16) with 65536 in *. change (2 ^ 32) with 4294967296.
  nia.
Qed.

Lemma extract_pack (r g b : Z) :
  0 <= r < 256 -> 0 <= g < 256 -> 0 <= b < 256 ->
  let w := Z.lor (Z.lor (U32.shl g 16) (U32.shl r 8)) b in
  Z.land (Z.shiftr w 16) 255 = g /\
  Z.land (Z.shiftr w 8) 255 = r /\
  Z.land w 255 = b /\
  0 <= w < 2 ^ 24.
Proof.
  intros Hr Hg Hb w.
  assert (Hbits : forall i, 0 <= i ->
            Z.testbit w i =
              if i <? 8 then Z.testbit b i
              else if i <? 16 then Z.testbit r (i - 8)
              else Z.testbit g (i - 16)).
  { intros i Hi. unfold w. rewrite !Z.lor_spec, !shl_bits by lia.
    destruct (Z.ltb_spec i 8).
    - rewrite !(Z.testbit_neg_r _ (i - _)) by lia.
      rewrite !andb_false_r. reflexivity.
    - rewrite (small_bits b i) by lia. rewrite orb_false_r.
      destruct (Z.ltb_spec i 16).
      + rewrite (Z.testbit_neg_r _ (i - 16)) by lia.
        rewrite andb_false_r. cbn [orb].
        destruct (Z.ltb_spec i 32); [reflexivity | lia].
      + rewrite (small_bits r (i - 8)) by lia.
        rewrite andb_false_r, orb_false_r.
        destruct (Z.ltb_spec i 32); [reflexivity|].
        rewrite (small_bits g (i - 16)) by lia. reflexivity. }
  assert (Hw : 0 <= w).
  { unfold w. rewrite !Z.lor_nonneg. unfold U32.shl.
    pose proof (u32_range (Z.shiftl g 16)).
    pose proof (u32_range (Z.shiftl r 8)). lia. }
  repeat split.
  - apply Z.bits_inj'. intros i Hi.
    rewrite byte_bits, Z.shiftr_spec, Hbits by lia.
    destruct (Z.ltb_spec i 8).
    + destruct (Z.ltb_spec (i + 16) 8); [lia|].
      destruct (Z.ltb_spec (i + 16) 16); [lia|].
      replace (i + 16 - 16) with i by lia. reflexivity.
    + rewrite (small_bits g i) by lia. reflexivity.
  - apply Z.bits_inj'. intros i Hi.
    rewrite byte_bits, Z.shiftr_spec, Hbits by lia.
    destruct (Z.ltb_spec i 8).
    + destruct (Z.ltb_spec (i + 8) 8); [lia|].
      destruct (Z.ltb_spec (i + 8) 16); [|lia].
      replace (i + 8 - 8) with i by lia. reflexivity.
    + rewrite (small_bits r i) by lia. reflexivity.
  - apply Z.bits_inj'. intros i Hi.
    rewrite byte_bits, Hbits by lia.
    destruct (Z.ltb_spec i 8); [reflexivity|].
    rewrite (small_bits b i) by lia. reflexivity.
  - exact Hw.
  - destruct (Z.eq_dec w 0) as [->|Hne]; [reflexivity|].
    apply Z.log2_lt_pow2; [lia|].
    destruct (Z.lt_ge_cases (Z.log2 w) 24) as [Hlt|Hge]; [exact Hlt|].
    exfalso.
    assert (Hset : Z.testbit w (Z.log2 w) = true)
      by (apply Z.bit_log2; lia).
    rewrite Hbits in Hset by lia.
    destruct (Z.ltb_spec (Z.log2 w) 8); [lia|].
    destruct (Z.ltb_spec (Z.log2 w) 16); [lia|].
    rewrite (small_bits g (Z.log2 w - 16)) in Hset by lia.
    discriminate.
Qed.

(** X21. The GRB colour word and its three bytes: packing the bytes that
    [extract_rgb_from_grb] reads from a word gives back the low 24 bits of
    the word (the top byte is dropped), and reading the bytes of a packed
    word gives back the three bytes; a packed word is below 2^24. *)
Theorem grb_round_trip (color r g b : Z) :
  (let '(r0, g0, b0) := Led.extract_rgb_from_grb color in
   Led.pack_grb r0 g0 b0 = color mod 2 ^ 24) /\
  (0 <= r < 256 -> 0 <= g < 256 -> 0 <= b < 256 ->
     Led.extract_rgb_from_grb (Led.pack_grb r g b) = (r, g, b) /\
     0 <= Led.pack_grb r g b < 2 ^ 24).
Proof.
  split.
  - unfold Led.extract_rgb_from_grb, Led.pack_grb. apply pack_extract.
  - intros Hr Hg Hb.
    destruct (extract_pack r g b Hr Hg Hb) as (H1 & H2 & H3 & H4).
    unfold Led.extract_rgb_from_grb, Led.pack_grb.
    rewrite H1, H2, H3. split; [reflexivity | exact H4].
Qed.

Lemma grb_round_trip_witness :
  Led.extract_rgb_from_grb (Led.pack_grb 18 52 86) = (18, 52, 86).
Proof.
  refine (proj1 (proj2 (grb_round_trip 0 18 52 86) _ _ _)); lia.
Defined.

(** The byte values, for exhaustive checks. *)
Lemma byte_cases (v : Z) :
  0 <= v < 256 -> In v (map Z.of_nat (seq 0 256)).
Proof.
  intros Hv. apply in_map_iff. exists (Z.to_nat v).
  split; [lia|]. apply in_seq. lia.
Qed.

Lemma channel_at (k : F32.float) (f : Z -> Z) :
  forallb (fun v =>
             match F32.to_u32 (F32.add (F32.mul (F32.of_Z v) k) F32.half) with
             | Some out => out =? f v
             | None => false
             end) (map Z.of_nat (seq 0 256)) = true ->
  forall v, 0 <= v < 256 ->
    F32.to_u32 (F32.add (F32.mul (F32.of_Z v) k) F32.half) = Some (f v).
Proof.
  intros Hall v Hv. rewrite forallb_forall in Hall.
  specialize (Hall v (byte_cases v Hv)).
  destruct (F32.to_u32 _) as [out|]; [|discriminate].
  apply Z.eqb_eq in Hall. rewrite Hall. reflexivity.
Qed.

Lemma channel_full (v : Z) :
  0 <= v < 256 ->
  F32.to_u32 (F32.add (F32.mul (F32.of_Z v) F32.one) F32.half) = Some v.
Proof.
  apply (channel_at F32.one (fun v => v)). vm_compute. reflexivity.
Qed.

Lemma channel_off (sign : bool) (v : Z) :
  0 <= v < 256 ->
  F32.to_u32 (F32.add (F32.mul (F32.of_Z v) (S754_zero sign)) F32.half)
  = Some 0.
Proof.
  destruct sign.
  - apply (channel_at (S754_zero true) (fun _ => 0)). vm_compute. reflexivity.
  - apply (channel_at (S754_zero false) (fun _ => 0)). vm_compute. reflexivity.
Qed.

Lemma clamp01_at_least_one (x : F32.float) :
  SFleb F32.one x = true -> F32.clamp01 x = F32.one.
Proof.
  destruct x as [[|]|[|]| |[|] m e]; try (intros H; discriminate H);
    try reflexivity.
  intros H.
  assert (Hcl : F32.clamp01 (S754_finite false m e)
                = if SFltb F32.one (S754_finite false m e) then F32.one
                  else S754_finite false m e) by reflexivity.
  rewrite Hcl. unfold SFltb. unfold SFleb in H.
  destruct (SFcompare F32.one (S754_finite false m e)) as [[| |]|] eqn:Hc;
    try discriminate H; [|reflexivity].
  unfold F32.one, SFcompare in Hc.
  destruct (Z.compare_spec (-23) e) as [He|He|He]; try discriminate Hc.
  injection Hc as Hc. apply Pos.compare_eq in Hc. subst. reflexivity.
Qed.

Lemma clamp01_at_most_zero (x : F32.float) :
  SFleb x F32.zero = true -> exists sign, F32.clamp01 x = S754_zero sign.
Proof.
  destruct x as [[|]|[|]| |[|] m e]; try (intros H; discriminate H).
  - exists true. reflexivity.
  - exists false. reflexivity.
  - exists false. reflexivity.
  - exists false. reflexivity.
Qed.

Lemma apply_color_intensity_full (color : Z) (intensity : F32.float) :
  SFleb F32.one intensity = true ->
  ColorLib.apply_color_intensity color intensity = Some (color mod 2 ^ 24).
Proof.
  intros H. unfold ColorLib.apply_color_intensity.
  rewrite (clamp01_at_least_one _ H). cbv zeta.
  rewrite !channel_full by apply byte_range.
  rewrite pack_extract. reflexivity.
Qed.

Lemma apply_color_intensity_off (color : Z) (intensity : F32.float) :
  SFleb intensity F32.zero = true ->
  ColorLib.apply_color_intensity color intensity = Some 0.
Proof.
  intros H. unfold ColorLib.apply_color_intensity.
  destruct (clamp01_at_most_zero _ H) as [sign ->]. cbv zeta.
  rewrite !channel_off by apply byte_range.
  reflexivity.
Qed.

(** X22. [apply_color_intensity] at the ends of the range: an intensity
    of 1.0 or more (an infinity included) returns the colour unchanged but
    for its top byte, which is dropped; an intensity of 0.0 or less
    returns black, whatever the colour; a NaN intensity passes both
    clamps and reaches the conversion to [uint32_t], which C leaves
    undefined. *)
Theorem apply_color_intensity_extremes (color : Z) (intensity : F32.float) :
  (SFleb F32.one intensity = true ->
     ColorLib.apply_color_intensity color intensity
       = Some (color mod 2 ^ 24)) /\
  (SFleb intensity F32.zero = true ->
     ColorLib.apply_color_intensity color intensity = Some 0) /\
  ColorLib.apply_color_intensity color S754_nan = None.
Proof.
  split; [|split].
  - apply apply_color_intensity_full.
  - apply apply_color_intensity_off.
  - unfold ColorLib.apply_color_intensity. cbv zeta.
    change (F32.clamp01 S754_nan) with S754_nan.
    assert (Hnan : forall x, F32.mul x S754_nan = S754_nan).
    { intros x. destruct x as [?|?| |? ? ?]; reflexivity. }
    rewrite !Hnan. reflexivity.
Qed.

Lemma apply_color_intensity_extremes_witness :
  ColorLib.apply_color_intensity 0xAB123456 (F32.of_Z 3) = Some 0x123456 /\
  ColorLib.apply_color_intensity 0xAB123456 F32.zero = Some 0.
Proof.
  split.
  - refine (proj1 (apply_color_intensity_extremes 0xAB123456 (F32.of_Z 3)) _).
    reflexivity.
  - refine (proj1 (proj2
              (apply_color_intensity_extremes 0xAB123456 F32.zero)) _).
    reflexivity.
Defined.

Lemma representable_scaled (v k : Z) :
  0 <= v < 2 ^ 24 -> 0 <= k -> representable (v * 2 ^ k).
Proof.
  intros Hv Hk. unfold representable.
  assert (Hp : 0 < 2 ^ k) by (apply pow2_pos; lia).
  split; [nia|].
  destruct (Z.eq_dec v 0) as [->|Hne].
  - rewrite Z.mul_0_l. apply Z.mod_0_l.
    apply Z.pow_nonzero; [lia | apply expo_nonneg].
  - assert (Hlog : Z.log2 (v * 2 ^ k) = Z.log2 v + k)
      by (rewrite Z.log2_mul_pow2 by lia; lia).
    assert (Hl : Z.log2 v < 24) by (apply Z.log2_lt_pow2; lia).
    unfold expo. rewrite Hlog.
    set (j := Z.max 0 (Z.log2 v + k - 23)).
    assert (Hj : 0 <= j <= k) by (unfold j; lia).
    replace (2 ^ k) with (2 ^ (k - j) * 2 ^ j)
      by (rewrite <- Z.pow_add_r by lia; f_equal; lia).
    rewrite Z.mul_assoc. apply Z.mod_mul.
    apply Z.pow_nonzero; lia.
Qed.

Lemma of_byte_value (v : Z) :
  0 <= v < 256 ->
  wellformed (F32.of_Z v) /\ units (F32.of_Z v) = v * 2 ^ 149.
Proof.
  intros Hv.
  assert (H100 : 256 < 2 ^ 100) by reflexivity.
  destruct (of_Z_value v ltac:(lia)) as [Hg Hu].
  split; [exact Hg|]. rewrite Hu.
  rewrite <- (Z.mul_1_r (v * 2 ^ 149)) at 1.
  apply round32_id; [|lia].
  apply representable_scaled; [|lia].
  assert (256 < 2 ^ 24) by reflexivity. lia.
Qed.

Lemma wellformed_half : wellformed F32.half.
Proof. reflexivity. Qed.

Lemma units_half : units F32.half = 2 ^ 148.
Proof. reflexivity. Qed.

(** The conversion to [uint32_t] of a non-negative float takes the whole
    part of its value. *)
Lemma to_u32_value (x : F32.float) :
  wellformed x -> units x < 2 ^ 32 * 2 ^ 149 ->
  F32.to_u32 x = Some (units x / 2 ^ 149).
Proof.
  intros Hg Hlt.
  destruct (wellformed_cases x Hg) as [->|(m & e & -> & He & Hemax)].
  - reflexivity.
  - assert (Hlo : -149 <= e) by lia.
    unfold units in *. unfold F32.to_u32.
    assert (Hval :
              (if 0 <=? e then Z.pos m * 2 ^ e else Z.pos m / 2 ^ (- e))
              = Z.pos m * 2 ^ (e + 149) / 2 ^ 149).
    { destruct (Z.leb_spec 0 e).
      - rewrite Z.pow_add_r by lia. rewrite Z.mul_assoc.
        rewrite Z.div_mul by (apply Z.pow_nonzero; lia). reflexivity.
      - replace (2 ^ 149) with (2 ^ (- e) * 2 ^ (e + 149))
          by (rewrite <- Z.pow_add_r by lia; f_equal; lia).
        rewrite Z.div_mul_cancel_r; [reflexivity | |];
          apply Z.pow_nonzero; lia. }
    rewrite Hval.
    assert (Hq : Z.pos m * 2 ^ (e + 149) / 2 ^ 149 < U32.modulus).
    { apply Z.div_lt_upper_bound; [apply pow2_pos; lia|].
      unfold U32.modulus. lia. }
    destruct (Z.ltb_spec (Z.pos m * 2 ^ (e + 149) / 2 ^ 149) U32.modulus);
      [reflexivity | lia].
Qed.

(** A byte scaled by a factor in [0, 1] and rounded by the addition of
    [0.5f] converts to a byte that is not larger. *)
Lemma channel_dimmed (k : F32.float) (v : Z) :
  wellformed k -> units k <= 2 ^ 149 -> 0 <= v < 256 ->
  exists out,
    F32.to_u32 (F32.add (F32.mul (F32.of_Z v) k) F32.half) = Some out /\
    0 <= out <= v.
Proof.
  intros Hk Hle Hv.
  destruct (of_byte_value v Hv) as [Hgv Huv].
  pose proof (units_nonneg k) as Hk0.
  assert (Hp149 : 0 < 2 ^ 149) by (apply pow2_pos; lia).
  assert (Hprod : units (F32.of_Z v) * units k <= v * 2 ^ 149 * 2 ^ 149).
  { rewrite Huv. apply Z.mul_le_mono_nonneg_l; [nia | exact Hle]. }
  assert (Hbig : 256 * 2 ^ 149 * 2 ^ 149 < 2 ^ 399) by reflexivity.
  destruct (mul_value (F32.of_Z v) k Hgv Hk ltac:(nia)) as [Hgm Hum].
  set (p := F32.mul (F32.of_Z v) k) in *.
  assert (Hp : units p <= v * 2 ^ 149).
  { rewrite Hum.
    apply Z.le_trans with (round32 (v * 2 ^ 149 * 2 ^ 149) (2 ^ 149)).
    - apply round32_mono; [lia | exact Hprod].
    - pose proof (round32_id (v * 2 ^ 149) (2 ^ 149)) as Hid.
      rewrite Hid; [lia | | lia].
      apply representable_scaled; [|lia].
      assert (256 < 2 ^ 24) by reflexivity. lia. }
  pose proof (units_nonneg p) as Hp0.
  assert (H250 : 256 * 2 ^ 149 + 2 ^ 148 < 2 ^ 250) by reflexivity.
  destruct (add_value p F32.half Hgm wellformed_half
              ltac:(rewrite units_half; nia)) as [Hga Hua].
  set (a := F32.add p F32.half) in *.
  rewrite units_half in Hua.
  assert (Ha : units a <= (2 * v + 1) * 2 ^ 148).
  { rewrite Hua.
    apply Z.le_trans with (round32 ((2 * v + 1) * 2 ^ 148 * 1) 1).
    - apply round32_mono; [lia|].
      change (2 ^ 149) with (2 * 2 ^ 148) in Hp. lia.
    - rewrite round32_id; [lia | | lia].
      apply representable_scaled; [|lia].
      assert (513 < 2 ^ 24) by reflexivity. lia. }
  pose proof (units_nonneg a) as Ha0.
  assert (Hfit : units a < 2 ^ 32 * 2 ^ 149).
  { assert (513 * 2 ^ 148 < 2 ^ 32 * 2 ^ 149) by reflexivity. nia. }
  exists (units a / 2 ^ 149). split.
  - apply to_u32_value; assumption.
  - split.
    + apply Z.div_pos; lia.
    + apply Z.lt_succ_r. apply Z.div_lt_upper_bound; [lia|].
      change (2 ^ 149) with (2 * 2 ^ 148).
      assert (0 < 2 ^ 148) by (apply pow2_pos; lia). nia.
Qed.

Lemma clamp01_valid (x : F32.float) :
  valid_binary F32.prec F32.emax x = true -> x <> S754_nan ->
  F32.clamp01 x = S754_zero true \/
  (wellformed (F32.clamp01 x) /\ units (F32.clamp01 x) <= 2 ^ 149).
Proof.
  intros Hvalid Hnan.
  destruct x as [[|]|[|]| |[|] m e].
  - left. reflexivity.
  - right. split; [exact I | cbn; lia].
  - right. split; [exact I | cbn; lia].
  - right. change (F32.clamp01 (S754_infinity false)) with F32.one.
    split; [apply wellformed_one | rewrite units_one; lia].
  - contradiction.
  - right. split; [exact I | cbn; lia].
  - right. assert (Hg : wellformed (S754_finite false m e)) by exact Hvalid.
    unfold F32.clamp01, F32.ltb, F32.gtb.
    rewrite (ltb_value _ F32.zero Hg wellformed_zero).
    change (units F32.zero) with 0.
    pose proof (units_nonneg (S754_finite false m e)) as H0.
    destruct (Z.ltb_spec (units (S754_finite false m e)) 0); [lia|].
    rewrite (ltb_value F32.one _ wellformed_one Hg), units_one.
    destruct (Z.ltb_spec (2 ^ 149) (units (S754_finite false m e))).
    + split; [apply wellformed_one | rewrite units_one; lia].
    + split; [exact Hg | lia].
Qed.

(** X23. [apply_color_intensity] never brightens: for every colour word
    and every binary32 intensity that is not a NaN (negative values and
    infinities included) the conversions are defined and the result is a
    24-bit word, each of whose bytes is at most the corresponding byte of
    the input colour. *)
Theorem apply_color_intensity_never_brightens (color : Z)
        (intensity : F32.float) :
  valid_binary F32.prec F32.emax intensity = true ->
  intensity <> S754_nan ->
  exists out,
    ColorLib.apply_color_intensity color intensity = Some out /\
    0 <= out < 2 ^ 24 /\
    (Led.extract_rgb_from_grb out).1.1 <= (Led.extract_rgb_from_grb color).1.1 /\
    (Led.extract_rgb_from_grb out).1.2 <= (Led.extract_rgb_from_grb color).1.2 /\
    (Led.extract_rgb_from_grb out).2 <= (Led.extract_rgb_from_grb color).2.
Proof.
  intros Hvalid Hnan.
  assert (Hch : forall v, 0 <= v < 256 ->
            exists out,
              F32.to_u32 (F32.add (F32.mul (F32.of_Z v)
                                           (F32.clamp01 intensity))
                                  F32.half) = Some out /\
              0 <= out <= v).
  { intros v Hv.
    destruct (clamp01_valid intensity Hvalid Hnan) as [->|[Hg Hu]].
    - exists 0. split; [apply channel_off; exact Hv | lia].
    - apply channel_dimmed; assumption. }
  unfold ColorLib.apply_color_intensity. cbv zeta.
  pose proof (byte_range (Z.shiftr color 16)) as Hgr.
  pose proof (byte_range (Z.shiftr color 8)) as Hrr.
  pose proof (byte_range color) as Hbr.
  destruct (Hch _ Hgr) as (g' & -> & Hg').
  destruct (Hch _ Hrr) as (r' & -> & Hr').
  destruct (Hch _ Hbr) as (b' & -> & Hb').
  destruct (extract_pack r' g' b' ltac:(lia) ltac:(lia) ltac:(lia))
    as (H1 & H2 & H3 & H4).
  eexists. split; [reflexivity|]. split; [exact H4|].
  unfold Led.extract_rgb_from_grb. cbn [fst snd].
  rewrite H1, H2, H3. lia.
Qed.

Lemma apply_color_intensity_never_brightens_witness :
  exists out,
    ColorLib.apply_color_intensity 0x804020 F32.half = Some out /\
    0 <= out < 2 ^ 24.
Proof.
  destruct (apply_color_intensity_never_brightens 0x804020 F32.half)
    as (out & H1 & H2 & _).
  - reflexivity.
  - discriminate.
  - exists out. split; [exact H1 | exact H2].
Defined.

End ColourWord.

(** * From the classifier to the timer *)

Section TapToSession.

Import Button.

Variable hz : Z.

Lemma events_of_all (i : nat) (evs : list event) :
  (forall e, In e evs -> e.1 = i) -> events_of i evs = evs.
Proof.
  induction evs as [|e rest IH]; intros Hall.
  - reflexivity.
  - unfold events_of in *. cbn [List.filter].
    rewrite (Hall e (or_introl eq_refl)), Nat.eqb_refl.
    f_equal. apply IH. intros e' He'. apply Hall. right. exact He'.
Qed.

Lemma step_events_only_pressed (i : nat) (a : action) (st : buttons) :
  only_pressed i st ->
  events_of i (step hz a st).2 = (step hz a st).2.
Proof.
  intros Honly. apply events_of_all. intros [j ty] Hin. cbn [fst].
  destruct (step_event_pressed hz a st j ty Hin) as (btn & Hb & Hp).
  destruct (Nat.eq_dec j i) as [Heq|Hne]; [exact Heq|].
  rewrite (Honly j btn Hne Hb) in Hp. discriminate.
Qed.

Lemma sweep_only_pressed (i : nat) (now : Z) (st : buttons) :
  only_pressed i st -> only_pressed i (step hz (Sweep now) st).1.
Proof.
  intros Honly j btn' Hne Hb'. cbn [step] in Hb'.
  unfold button_long_press_check in Hb'. cbn [fst button_states] in Hb'.
  destruct (check_from_frame hz now (callback_registered st)
              (button_states st) 0%nat) as [_ Hp].
  assert (Hl : (pressed <$> (check_from hz now (callback_registered st) 0
                               (button_states st)).1) !! j
               = Some (pressed btn')).
  { rewrite list_lookup_fmap, Hb'. reflexivity. }
  change (fmap (M:=list) pressed) with (map pressed) in Hl.
  rewrite Hp in Hl.
  change (map pressed) with (fmap (M:=list) pressed) in Hl.
  rewrite list_lookup_fmap in Hl.
  destruct (button_states st !! j) as [btn|] eqn:Hb; [|discriminate].
  cbn in Hl. injection Hl as <-. apply (Honly j btn Hne Hb).
Qed.

(** Sweeps that come before the long-press threshold, with no other
    button pressed, are silent and change nothing for button [i]. *)
Lemma short_sweeps_silent (i : nat) (start : Z) (acts : list action) :
  forallb (short_sweep hz start) acts = true ->
  forall st,
    held i start false st ->
    only_pressed i st ->
    (run hz acts st).2 = [] /\
    held i start false (run hz acts st).1 /\
    last_debounce_time (run hz acts st).1 = last_debounce_time st /\
    callback_registered (run hz acts st).1 = callback_registered st.
Proof.
  induction acts as [|a rest IH]; intros Hall st Hheld Honly.
  - cbn [run fst snd]. auto.
  - cbn [forallb] in Hall. apply andb_true_iff in Hall.
    destruct Hall as [Ha Hrest].
    destruct a as [ev now|now]; [discriminate Ha|].
    cbn [short_sweep] in Ha. apply negb_true_iff in Ha.
    destruct Hheld as (btn & Hb & Hp & Hs & He).
    destruct (step_local hz i (Sweep now) st btn eq_refl Hb) as [Hst Hev].
    assert (Hcheck : check_button hz now (callback_registered st) i btn
                     = (btn, [])).
    { unfold check_button. rewrite Hp, He, Hs, Ha. reflexivity. }
    cbn [local_step] in Hst, Hev. rewrite Hcheck in Hst, Hev.
    cbn [fst snd] in Hst, Hev.
    rewrite (step_events_only_pressed i (Sweep now) st Honly) in Hev.
    assert (Hheld1 : held i start false (step hz (Sweep now) st).1).
    { exists btn. auto. }
    destruct (IH Hrest _ Hheld1 (sweep_only_pressed i now st Honly))
      as (Hev2 & Hheld2 & Hdeb & Hcb).
    cbn [run fst snd]. rewrite Hev, Hev2.
    split; [reflexivity|]. split; [exact Hheld2|].
    split; [rewrite Hdeb; reflexivity | rewrite Hcb; reflexivity].
Qed.

(** Sweeps that come less than 500 ms after the press are sweeps that
    the classifier finds below [LONG_PRESS_MS]. *)
Lemma sweep_before_short (start : Z) (acts : list action) :
  0 < hz -> 500 * hz <= U32.modulus ->
  forallb (sweep_before hz 500 start) acts = true ->
  forallb (short_sweep hz start) acts = true.
Proof.
  intros Hhz Hfit. induction acts as [|a rest IH]; intros Hall;
    [reflexivity|].
  cbn [forallb] in Hall. apply andb_true_iff in Hall.
  destruct Hall as [Ha Hrest]. cbn [forallb]. rewrite (IH Hrest).
  rewrite andb_true_r.
  destruct a as [ev now|now]; [discriminate Ha|].
  cbn [sweep_before] in Ha. cbn [short_sweep].
  rewrite long_press_test_ticks; [exact Ha | exact Hhz |].
  apply negb_true_iff in Ha. unfold at_least_ms in Ha.
  apply Z.leb_gt in Ha. lia.
Qed.

(** X24. End to end, in every schedule in which no iteration of either
    button task is interrupted by the other: with every button released
    and the timer Idle, an accepted press of button [i] at tick [t0],
    sweeps that all come less than 500 ms after it, and an accepted
    release at a tick [t1] less than 500 ms after it
    ([(t1 - t0) * 1000 < 500 * hz]) make the callback fire exactly once
    in all, with a Short event for [i], and leave both tasks at rest;
    [button_event_handler] turns that event into a Running session of
    the table duration of button [i], started at the tick at which the
    handler runs. Accepted means more than 50 ms after the debounce
    reference. *)
Theorem short_tap_starts_session
        (i : nat) (press release : gpio_event_t) (t0 t1 last tnow : Z)
        (acts : list action) (st : buttons) (t : Timer.timer) :
  0 < hz -> 500 * hz <= U32.modulus ->
  layout st ->
  callback_registered st = true ->
  all_released st ->
  last_debounce_time st !! i = Some last ->
  edge_on i (Edge press t0) = true ->
  level press = 1 ->
  50 * hz < U32.sub t0 last * 1000 ->
  forallb (sweep_before hz 500 t0) acts = true ->
  edge_on i (Edge release t1) = true ->
  level release <> 1 ->
  50 * hz < U32.sub t1 t0 * 1000 ->
  U32.sub t1 t0 * 1000 < 500 * hz ->
  Timer.timer_state t = Timer.TIMER_STATE_IDLE ->
  (exists st' : buttons,
      exec hz (schedule_of (Edge press t0 :: acts ++ [Edge release t1]))
           (resting st)
      = Some (resting st', [(i, BUTTON_PRESS_SHORT)])) /\
  Main.deliver tnow [(i, BUTTON_PRESS_SHORT)] t =
    Timer.mkTimer Timer.TIMER_STATE_RUNNING
                  (U32.mul (nth i Timer.timer_durations 0) 60) tnow
                  (Timer.grace_period_start_ticks t)
                  (Timer.alert_start_ticks t)
                  F32.zero F32.zero.
Proof.
  intros Hhz Hfit500 Hl Hcb Hall Hlast Hpress Hlvl Hacc0 Hacts0 Hrel Hrlvl
         Hracc0 Hshort0 Hidle.
  assert (Hfit : 50 * hz < U32.modulus) by lia.
  pose proof (find_button_index_lt _ i (edge_on_index i press t0 Hpress))
    as Hlt.
  assert (Hsome : is_Some (button_states st !! i)).
  { apply lookup_lt_is_Some. destruct Hl as (Hlen & _). rewrite Hlen.
    exact Hlt. }
  pose proof (debounce_test_passed hz _ Hhz Hfit Hacc0) as Hacc.
  pose proof (debounce_test_passed hz _ Hhz Hfit Hracc0) as Hracc.
  pose proof (sweep_before_short t0 acts Hhz Hfit500 Hacts0) as Hacts.
  assert (Hshort : (LONG_PRESS_MS <=? press_duration_ms hz t1 t0) = false).
  { rewrite long_press_test_ticks by lia.
    unfold at_least_ms. apply Z.leb_gt. exact Hshort0. }
  split.
  - rewrite (serial_refines hz _ st Hl).
    eexists. f_equal. f_equal.
    cbn [run fst snd]. cbn [step].
    destruct (press_accepted hz i press t0 last st Hpress Hlvl Hsome Hlast
                Hacc) as [Hheld Hnil].
    pose proof (press_stamp hz i press t0 last st Hpress Hsome Hlast Hacc)
      as Hstamp.
    pose proof (step_callback hz (Edge press t0) st) as Hcb1.
    cbn [step] in Hcb1. rewrite Hcb in Hcb1.
    assert (Honly : only_pressed i (button_task_step hz press t0 st).1).
    { intros j btn Hne Hb.
      pose proof (edge_on_index i press t0 Hpress) as Hidx.
      destruct Hsome as [b0 Hb0].
      unfold button_task_step in Hb. rewrite Hidx, Hb0, Hlast in Hb.
      destruct (Z.ltb_spec (Tick.pdMS_TO_TICKS hz DEBOUNCE_MS)
                           (U32.sub t0 last)); [|lia].
      rewrite Hlvl in Hb. cbn [Z.eqb Pos.eqb fst button_states] in Hb.
      rewrite list_lookup_insert_ne in Hb by congruence.
      unfold all_released in Hall. rewrite List.Forall_forall in Hall.
      apply Hall. apply list_elem_of_In.
      apply (list_elem_of_lookup_2 _ j). exact Hb. }
    set (st1 := (button_task_step hz press t0 st).1) in *.
    rewrite Hnil. cbn [app].
    rewrite (run_app hz). cbn [fst snd].
    destruct (short_sweeps_silent i t0 acts Hacts st1 Hheld Honly)
      as (Hquiet & Hheld2 & Hdeb & Hcb2).
    rewrite Hquiet. cbn [app].
    rewrite Hcb1 in Hcb2.
    assert (Hstamp2 : last_debounce_time (run hz acts st1).1 !! i = Some t0)
      by (rewrite Hdeb; exact Hstamp).
    cbn [run fst snd step]. rewrite app_nil_r.
    destruct (release_accepted hz i release t1 t0 t0 false
                (run hz acts st1).1 Hrel Hrlvl Hcb2 Hheld2 Hstamp2 Hracc)
      as [Hout _].
    rewrite Hout, Hshort. reflexivity.
  - unfold Main.deliver. cbn [fold_left fst snd].
    unfold Main.button_event_handler.
    unfold NUM_BUTTONS in Hlt.
    unfold Timer.timer_handle_button, Timer.NUM_BUTTONS.
    destruct (Z.leb_spec 5 (Z.of_nat i)); [lia|].
    rewrite Hidle. cbn [negb]. rewrite Nat2Z.id.
    assert (Hin : In (nth i Timer.timer_durations 0) Timer.timer_durations).
    { apply nth_In. cbn [Timer.timer_durations length]. exact Hlt. }
    rewrite timer_start_preset by exact Hin. cbn [snd].
    rewrite timer_stop_idle by exact Hidle. reflexivity.
Qed.

End TapToSession.

Lemma short_tap_starts_session_witness :
  let st := Button.button_register_callback Button.button_init in
  (exists st' : Button.buttons,
      Button.exec 1000
        (Button.schedule_of
           (Button.Edge (Button.mkGpioEvent 4 1) 1000
              :: [Button.Sweep 1050; Button.Sweep 1100]
              ++ [Button.Edge (Button.mkGpioEvent 4 0) 1120]))
        (Button.resting st)
      = Some (Button.resting st', [(2%nat, Button.BUTTON_PRESS_SHORT)])) /\
  Main.deliver 1121 [(2%nat, Button.BUTTON_PRESS_SHORT)] Timer.timer_init =
    Timer.mkTimer Timer.TIMER_STATE_RUNNING 1800 1121 0 0 F32.zero F32.zero.
Proof.
  cbv zeta.
  refine (short_tap_starts_session 1000 2
            (Button.mkGpioEvent 4 1) (Button.mkGpioEvent 4 0)
            1000 1120 0 1121 [Button.Sweep 1050; Button.Sweep 1100]
            (Button.button_register_callback Button.button_init)
            Timer.timer_init _ _ _ _ _ _ _ _ _ _ _ _ _ _ _).
  - lia.
  - vm_compute. discriminate.
  - repeat split.
  - reflexivity.
  - repeat constructor.
  - reflexivity.
  - reflexivity.
  - reflexivity.
  - vm_compute. reflexivity.
  - vm_compute. reflexivity.
  - reflexivity.
  - cbn. discriminate.
  - vm_compute. reflexivity.
  - vm_compute. reflexivity.
  - reflexivity.
Defined.

(** * The frame on the strip *)

Section LedFrames.

Import Rounding.
Import Led.

Variable pulse : Z -> Z -> Z -> Z -> option Z.

Ltac frame_fields :=
  cbn [led_colors target_intensity current_intensity target_progress
       current_progress progress_color pulsing_enabled solid_mode
       pending_solid_mode pending_solid_color pending_start_transition
       pending_start_color pending_start_progress pulsing_color
       pulse_time_ms andb negb].

Ltac frame_fields_all :=
  cbn [led_colors target_intensity current_intensity target_progress
       current_progress progress_color pulsing_enabled solid_mode
       pending_solid_mode pending_solid_color pending_start_transition
       pending_start_color pending_start_progress pulsing_color
       pulse_time_ms andb negb] in *.

Lemma frame_lookup (s : led) (i : nat) :
  (i < NUM_LEDS)%nat ->
  led_task_frame pulse s !! i
  = Some (render_led pulse (pulsing_enabled s) (solid_mode s)
                     (led_task_step MutexTaken s) i).
Proof.
  intros Hi. unfold led_task_frame. cbv zeta.
  change (map ?f ?l) with (fmap (M:=list) f l).
  rewrite list_lookup_fmap, lookup_seq_lt by exact Hi. reflexivity.
Qed.

(** With the intensity at rest at 1.0, a frame in solid mode leaves the
    colours and the intensity as they are. *)
Lemma step_solid_at_rest (s : led) :
  solid_mode s = true ->
  current_intensity s = F32.one -> target_intensity s = F32.one ->
  led_colors (led_task_step MutexTaken s) = led_colors s /\
  current_intensity (led_task_step MutexTaken s) = F32.one.
Proof.
  intros Hso Hci Hti. destruct s. frame_fields_all. subst.
  unfold led_task_step. frame_fields.
  destruct pulsing_enabled0; frame_fields; split; reflexivity.
Qed.

(** The same in progress-bar mode with nothing pending: the bar makes
    one smoothing step. *)
Lemma step_bar_at_rest (s : led) :
  solid_mode s = false -> pulsing_enabled s = false ->
  pending_solid_mode s = false ->
  current_intensity s = F32.one -> target_intensity s = F32.one ->
  let cp := F32.clamp01
              (F32.add (current_progress s)
                 (F32.mul (F32.sub (target_progress s) (current_progress s))
                          TRANSITION_SPEED)) in
  (pending_start_transition s && SFleb cp c0_01 = false ->
   led_task_step MutexTaken s =
     mkLed (led_colors s) F32.one F32.one (target_progress s) cp
           (progress_color s) false false false (pending_solid_color s)
           (pending_start_transition s) (pending_start_color s)
           (pending_start_progress s) (pulsing_color s) 0).
Proof.
  intros Hso Hpu Hps Hci Hti cp Hno.
  destruct s. frame_fields_all. subst.
  unfold led_task_step, animate_progress. frame_fields.
  fold cp. rewrite Hno. reflexivity.
Qed.

Lemma byte_at (k : F32.float) (f : Z -> Z) :
  forallb (fun v =>
             match F32.to_u8 (F32.mul (F32.of_Z v) k) with
             | Some out => out =? f v
             | None => false
             end) (map Z.of_nat (seq 0 256)) = true ->
  forall v, 0 <= v < 256 ->
    F32.to_u8 (F32.mul (F32.of_Z v) k) = Some (f v).
Proof.
  intros Hall v Hv. rewrite forallb_forall in Hall.
  specialize (Hall v (byte_cases v Hv)).
  destruct (F32.to_u8 _) as [out|]; [|discriminate].
  apply Z.eqb_eq in Hall. rewrite Hall. reflexivity.
Qed.

Lemma byte_full (v : Z) :
  0 <= v < 256 -> F32.to_u8 (F32.mul (F32.of_Z v) F32.one) = Some v.
Proof. apply (byte_at F32.one (fun v => v)). vm_compute. reflexivity. Qed.

Lemma byte_half (v : Z) :
  0 <= v < 256 -> F32.to_u8 (F32.mul (F32.of_Z v) F32.half) = Some (v / 2).
Proof.
  apply (byte_at F32.half (fun v => v / 2)). vm_compute. reflexivity.
Qed.

(** X25. In solid mode with the intensity at rest at 1.0 (its initial
    value, which the main loop never changes) the frame that [led_task]
    writes shows every LED in its own stored colour, top byte dropped;
    after [led_clear_all] every LED of the frame is off. *)
Theorem solid_frame_shows_stored_colours (s : led) (i : nat) :
  solid_mode s = true ->
  current_intensity s = F32.one -> target_intensity s = F32.one ->
  (i < NUM_LEDS)%nat ->
  led_task_frame pulse s !! i
    = Some (Some (nth i (led_colors s) 0 mod 2 ^ 24)) /\
  led_task_frame pulse (led_clear_all MutexTaken s) !! i = Some (Some 0).
Proof.
  intros Hso Hci Hti Hi.
  assert (Hgen : forall s0,
             solid_mode s0 = true ->
             current_intensity s0 = F32.one ->
             target_intensity s0 = F32.one ->
             led_task_frame pulse s0 !! i
             = Some (Some (nth i (led_colors s0) 0 mod 2 ^ 24))).
  { intros s0 Hso0 Hci0 Hti0.
    rewrite frame_lookup by exact Hi.
    destruct (step_solid_at_rest s0 Hso0 Hci0 Hti0) as [Hcol Hint].
    unfold render_led. rewrite Hso0, Hcol, Hint.
    rewrite apply_color_intensity_full by reflexivity. reflexivity. }
  split; [apply Hgen; assumption|].
  rewrite Hgen; [| reflexivity | exact Hci | exact Hti].
  cbn [led_clear_all guarded led_colors].
  f_equal. f_equal.
  assert (Hnth : forall (l : list Z) (k : nat),
             nth k (fill LED_COLOR_OFF l) 0 = 0).
  { induction l as [|x l IH]; intros [|k]; cbn; auto. }
  rewrite Hnth. reflexivity.
Qed.

Lemma position_le_ten (i : nat) :
  (i < NUM_LEDS)%nat ->
  SFleb (F32.of_Z (Z.of_nat i + 1))
        (F32.mul F32.one (F32.of_Z (Z.of_nat NUM_LEDS))) = true.
Proof.
  intros Hi. unfold NUM_LEDS in *.
  do 10 (destruct i as [|i]; [vm_compute; reflexivity|]). lia.
Qed.

Lemma position_above_zero (i : nat) :
  (i < NUM_LEDS)%nat ->
  SFleb (F32.of_Z (Z.of_nat i + 1))
        (F32.mul F32.zero (F32.of_Z (Z.of_nat NUM_LEDS))) = false /\
  SFltb (F32.sub (F32.of_Z (Z.of_nat i + 1)) F32.one)
        (F32.mul F32.zero (F32.of_Z (Z.of_nat NUM_LEDS))) = false.
Proof.
  intros Hi. unfold NUM_LEDS in *.
  do 10 (destruct i as [|i]; [vm_compute; split; reflexivity|]). lia.
Qed.

(** X26. The two ends of the progress bar, with the intensity at rest at
    1.0 and nothing pending: a bar whose level and target are both 1.0 is
    drawn with every LED in the progress colour (top byte dropped), a bar
    whose level and target are both 0.0 with every LED off. *)
Theorem bar_frame_full_and_empty (s : led) (i : nat) :
  solid_mode s = false -> pulsing_enabled s = false ->
  pending_solid_mode s = false -> pending_start_transition s = false ->
  current_intensity s = F32.one -> target_intensity s = F32.one ->
  (i < NUM_LEDS)%nat ->
  (current_progress s = F32.one -> target_progress s = F32.one ->
     led_task_frame pulse s !! i
       = Some (Some (progress_color s mod 2 ^ 24))) /\
  (current_progress s = F32.zero -> target_progress s = F32.zero ->
     led_task_frame pulse s !! i = Some (Some 0)).
Proof.
  intros Hso Hpu Hps Hst Hci Hti Hi.
  pose proof (step_bar_at_rest s Hso Hpu Hps Hci Hti) as Hstep.
  cbv zeta in Hstep. rewrite Hst in Hstep. cbn [andb] in Hstep.
  specialize (Hstep eq_refl).
  split; intros Hcur Htgt; rewrite frame_lookup by exact Hi;
    rewrite Hstep, Hso, Hpu, Hcur, Htgt; unfold render_led;
    frame_fields.
  - change (F32.clamp01
              (F32.add F32.one
                 (F32.mul (F32.sub F32.one F32.one) TRANSITION_SPEED)))
      with F32.one.
    unfold progress_pixel, led_brightness. frame_fields.
    rewrite (position_le_ten i Hi).
    change (SFltb F32.one F32.half) with false. rewrite andb_false_r.
    change (SFltb F32.zero F32.one) with true. cbv iota.
    unfold extract_rgb_from_grb.
    rewrite !byte_full by apply byte_range.
    unfold pack_grb. rewrite pack_extract.
    rewrite apply_color_intensity_full by reflexivity.
    rewrite Z.mod_mod by (apply Z.pow_nonzero; lia). reflexivity.
  - change (F32.clamp01
              (F32.add F32.zero
                 (F32.mul (F32.sub F32.zero F32.zero) TRANSITION_SPEED)))
      with F32.zero.
    unfold progress_pixel, led_brightness. frame_fields.
    destruct (position_above_zero i Hi) as [H1 H2]. rewrite H1, H2.
    change (SFltb F32.zero F32.zero) with false.
    rewrite andb_false_r. cbn [andb]. cbv iota.
    change (SFltb F32.zero F32.zero) with false. cbv iota.
    rewrite apply_color_intensity_full by reflexivity. reflexivity.
Qed.

(** The first smoothing step of a bar that starts from 0 towards a target
    in (0, 1] stays below a quarter of an LED. *)
Lemma first_step_small (t : F32.float) :
  wellformed t -> units t <= 2 ^ 149 ->
  let cp := F32.clamp01
              (F32.add F32.zero
                 (F32.mul (F32.sub t F32.zero) TRANSITION_SPEED)) in
  let num := F32.mul cp (F32.of_Z (Z.of_nat NUM_LEDS)) in
  wellformed num /\ units num <= 2 ^ 147.
Proof.
  intros Ht Hle cp num.
  pose proof (units_nonneg t) as Ht0.
  assert (Hp149 : 0 < 2 ^ 149) by (apply pow2_pos; lia).
  assert (H250 : 2 ^ 149 < 2 ^ 250) by (apply Z.pow_lt_mono_r; lia).
  destruct (sub_value t F32.zero Ht wellformed_zero (units_nonneg _)
              ltac:(lia)) as [Hgd Hud].
  change (units F32.zero) with 0 in Hud. rewrite Z.sub_0_r in Hud.
  rewrite (round32_wellformed t Ht) in Hud.
  set (d := F32.sub t F32.zero) in *.
  assert (Hsp : units F32.c0_02 = 10737418 * 2 ^ 120) by apply units_speed.
  assert (Hmulb : units d * units F32.c0_02 < 2 ^ 399).
  { rewrite Hud, Hsp.
    assert (units t * (10737418 * 2 ^ 120)
            <= 2 ^ 149 * (10737418 * 2 ^ 120))
      by (apply Z.mul_le_mono_nonneg_r; lia).
    assert (2 ^ 149 * (10737418 * 2 ^ 120) < 2 ^ 399) by reflexivity.
    lia. }
  destruct (mul_value d F32.c0_02 Hgd wellformed_speed Hmulb) as [Hgp Hup].
  set (p := F32.mul d F32.c0_02) in *.
  assert (Hp : units p <= 10737418 * 2 ^ 120).
  { rewrite Hup, Hud.
    apply Z.le_trans
      with (round32 (units F32.c0_02 * 2 ^ 149) (2 ^ 149)).
    - apply round32_mono; [lia|]. rewrite Z.mul_comm.
      apply Z.mul_le_mono_nonneg_l; [apply units_nonneg | exact Hle].
    - rewrite round32_id; [lia | | lia].
      apply wellformed_representable. exact wellformed_speed. }
  pose proof (units_nonneg p) as Hp0.
  assert (Hsmall : 10737418 * 2 ^ 120 < 2 ^ 149) by reflexivity.
  destruct (add_value F32.zero p wellformed_zero Hgp
              ltac:(change (units F32.zero) with 0; lia)) as [Hga Hua].
  change (units F32.zero) with 0 in Hua. rewrite Z.add_0_l in Hua.
  rewrite (round32_wellformed p Hgp) in Hua.
  set (a := F32.add F32.zero p) in *.
  assert (Hcp : cp = a).
  { unfold cp. change TRANSITION_SPEED with F32.c0_02. fold d. fold p.
    fold a. unfold F32.clamp01, F32.ltb, F32.gtb.
    rewrite (ltb_value a F32.zero Hga wellformed_zero).
    change (units F32.zero) with 0.
    destruct (Z.ltb_spec (units a) 0); [lia|].
    rewrite (ltb_value F32.one a wellformed_one Hga), units_one.
    destruct (Z.ltb_spec (2 ^ 149) (units a)); [lia | reflexivity]. }
  destruct (of_byte_value (Z.of_nat NUM_LEDS)
              ltac:(unfold NUM_LEDS; lia)) as [Hg10 Hu10].
  assert (Hprod : units a * units (F32.of_Z (Z.of_nat NUM_LEDS))
                  <= 2 ^ 147 * 2 ^ 149).
  { rewrite Hu10, Hua. unfold NUM_LEDS.
    change (Z.of_nat 10) with 10.
    assert (10737418 * 2 ^ 120 * (10 * 2 ^ 149) <= 2 ^ 147 * 2 ^ 149)
      by (vm_compute; discriminate).
    assert (units p * (10 * 2 ^ 149)
            <= 10737418 * 2 ^ 120 * (10 * 2 ^ 149))
      by (apply Z.mul_le_mono_nonneg_r; lia).
    lia. }
  assert (H399 : 2 ^ 147 * 2 ^ 149 < 2 ^ 399) by reflexivity.
  unfold num. rewrite Hcp.
  destruct (mul_value a (F32.of_Z (Z.of_nat NUM_LEDS)) Hga Hg10
              ltac:(lia)) as [Hgn Hun].
  split; [exact Hgn|]. rewrite Hun.
  apply Z.le_trans with (round32 (2 ^ 147 * 2 ^ 149) (2 ^ 149)).
  - apply round32_mono; [lia | exact Hprod].
  - rewrite round32_id; [lia | | lia]. apply representable_pow2. lia.
Qed.

(** X27. Immediate feedback at the start of a session: for a bar at level
    0 whose target has just been set to a value in (0, 1] (intensity at
    rest at 1.0, nothing pending), the very next frame shows the first LED
    at half brightness, each byte of the progress colour halved and
    rounded down, and the nine others off, however small the target is. *)
Theorem first_frame_lights_first_led (s : led) (i : nat) :
  solid_mode s = false -> pulsing_enabled s = false ->
  pending_solid_mode s = false -> pending_start_transition s = false ->
  current_intensity s = F32.one -> target_intensity s = F32.one ->
  current_progress s = F32.zero ->
  wellformed (target_progress s) ->
  SFltb F32.zero (target_progress s) = true ->
  SFleb (target_progress s) F32.one = true ->
  (i < NUM_LEDS)%nat ->
  led_task_frame pulse s !! i
  = Some (Some (if Nat.eqb i 0 then
                  let '(r, g, b) := extract_rgb_from_grb (progress_color s) in
                  pack_grb (r / 2) (g / 2) (b / 2)
                else 0)).
Proof.
  intros Hso Hpu Hps Hst Hci Hti Hcur Hwf Hpos Hle1 Hi.
  rewrite (ltb_value _ _ wellformed_zero Hwf) in Hpos.
  change (units F32.zero) with 0 in Hpos. apply Z.ltb_lt in Hpos.
  rewrite (leb_value _ _ Hwf wellformed_one), units_one in Hle1.
  apply Z.leb_le in Hle1.
  pose proof (step_bar_at_rest s Hso Hpu Hps Hci Hti) as Hstep.
  cbv zeta in Hstep. rewrite Hst in Hstep. cbn [andb] in Hstep.
  specialize (Hstep eq_refl). rewrite Hcur in Hstep.
  destruct (first_step_small (target_progress s) Hwf Hle1) as [Hgn Hun].
  cbv zeta in Hgn, Hun.
  set (cp := F32.clamp01
               (F32.add F32.zero
                  (F32.mul (F32.sub (target_progress s) F32.zero)
                           TRANSITION_SPEED))) in *.
  set (num := F32.mul cp (F32.of_Z (Z.of_nat NUM_LEDS))) in *.
  pose proof (units_nonneg num) as Hn0.
  assert (H147 : 2 ^ 147 < 2 ^ 148) by (apply Z.pow_lt_mono_r; lia).
  assert (H148 : 2 ^ 148 < 2 ^ 149) by (apply Z.pow_lt_mono_r; lia).
  assert (H250 : 2 ^ 149 < 2 ^ 250) by (apply Z.pow_lt_mono_r; lia).
  assert (Hp149 : 0 < 2 ^ 149) by (apply pow2_pos; lia).
  assert (Hbright :
            led_brightness
              (mkLed (led_colors s) F32.one F32.one (target_progress s) cp
                     (progress_color s) false false false
                     (pending_solid_color s) false (pending_start_color s)
                     (pending_start_progress s) (pulsing_color s) 0) i
            = if Nat.eqb i 0 then F32.half else F32.zero).
  { unfold led_brightness. frame_fields. fold num.
    destruct i as [|i'].
    - change (F32.of_Z (Z.of_nat 0 + 1)) with F32.one.
      change (F32.sub F32.one F32.one) with F32.zero.
      rewrite (leb_value _ _ wellformed_one Hgn), units_one.
      destruct (Z.leb_spec (2 ^ 149) (units num)); [lia|].
      rewrite (ltb_value _ _ wellformed_zero Hwf).
      change (units F32.zero) with 0.
      destruct (Z.ltb_spec 0 (units (target_progress s))); [|lia].
      cbn [Nat.eqb andb].
      rewrite (ltb_value _ _ wellformed_zero Hgn).
      change (units F32.zero) with 0.
      destruct (Z.ltb_spec 0 (units num)).
      + destruct (sub_value num F32.zero Hgn wellformed_zero
                    (units_nonneg _) ltac:(lia)) as [Hgd Hud].
        change (units F32.zero) with 0 in Hud. rewrite Z.sub_0_r in Hud.
        rewrite (round32_wellformed num Hgn) in Hud.
        set (d := F32.sub num F32.zero) in *.
        assert (Hcl : F32.clamp01 d = d).
        { unfold F32.clamp01, F32.ltb, F32.gtb.
          rewrite (ltb_value d F32.zero Hgd wellformed_zero).
          change (units F32.zero) with 0.
          destruct (Z.ltb_spec (units d) 0); [lia|].
          rewrite (ltb_value F32.one d wellformed_one Hgd), units_one.
          destruct (Z.ltb_spec (2 ^ 149) (units d)); [lia | reflexivity]. }
        rewrite Hcl.
        rewrite (ltb_value d F32.half Hgd wellformed_half), units_half.
        destruct (Z.ltb_spec (units d) (2 ^ 148)); [reflexivity | lia].
      + reflexivity.
    - assert (Hi' : 1 <= Z.of_nat (S i') < 10) by (unfold NUM_LEDS in Hi; lia).
      destruct (of_byte_value (Z.of_nat (S i') + 1) ltac:(lia))
        as [Hgpos Hupos].
      set (pos := F32.of_Z (Z.of_nat (S i') + 1)) in *.
      rewrite (leb_value _ _ Hgpos Hgn), Hupos.
      destruct (Z.leb_spec ((Z.of_nat (S i') + 1) * 2 ^ 149) (units num));
        [nia|].
      destruct (sub_value pos F32.one Hgpos wellformed_one
                  ltac:(rewrite units_one, Hupos; nia)
                  ltac:(rewrite Hupos;
                        assert (11 * 2 ^ 149 < 2 ^ 250) by reflexivity; nia))
        as [Hgs Hus].
      rewrite units_one, Hupos in Hus.
      replace ((Z.of_nat (S i') + 1) * 2 ^ 149 - 2 ^ 149)
        with (Z.of_nat (S i') * 2 ^ 149 * 1) in Hus by lia.
      rewrite round32_id in Hus;
        [| apply representable_scaled;
           [assert (10 < 2 ^ 24) by reflexivity; lia | lia] | lia].
      rewrite (ltb_value _ _ Hgs Hgn), Hus.
      destruct (Z.ltb_spec (Z.of_nat (S i') * 2 ^ 149) (units num)); [nia|].
      cbn [Nat.eqb andb]. reflexivity. }
  rewrite frame_lookup by exact Hi.
  rewrite Hstep, Hso, Hpu. unfold render_led. frame_fields.
  unfold progress_pixel. rewrite Hbright. frame_fields.
  destruct i as [|i']; cbn [Nat.eqb].
  - change (SFltb F32.zero F32.half) with true. cbv iota.
    unfold extract_rgb_from_grb.
    pose proof (byte_range (Z.shiftr (progress_color s) 16)) as Hg.
    pose proof (byte_range (Z.shiftr (progress_color s) 8)) as Hr.
    pose proof (byte_range (progress_color s)) as Hb.
    rewrite !byte_half by apply byte_range.
    rewrite apply_color_intensity_full by reflexivity.
    assert (Hdiv : forall v, 0 <= v < 256 -> 0 <= v / 2 < 256).
    { intros v Hv. split; [apply Z.div_pos; lia|].
      apply Z.div_lt_upper_bound; lia. }
    destruct (extract_pack _ _ _ (Hdiv _ Hr) (Hdiv _ Hg) (Hdiv _ Hb))
      as (_ & _ & _ & Hrange).
    unfold pack_grb. rewrite Z.mod_small by exact Hrange. reflexivity.
  - change (SFltb F32.zero F32.zero) with false. cbv iota.
    rewrite apply_color_intensity_full by reflexivity. reflexivity.
Qed.

End LedFrames.

Lemma solid_frame_shows_stored_colours_witness :
  Led.led_task_frame (fun _ _ _ _ => None)
    (Led.led_set_led_color Led.MutexTaken 3 0xAB0000FF Led.led_init) !! 3%nat
  = Some (Some 0x0000FF).
Proof.
  refine (proj1 (solid_frame_shows_stored_colours (fun _ _ _ _ => None)
                   (Led.led_set_led_color Led.MutexTaken 3 0xAB0000FF Led.led_init) 3
                   _ _ _ _)).
  - reflexivity.
  - reflexivity.
  - reflexivity.
  - unfold Led.NUM_LEDS. lia.
Defined.

Lemma bar_frame_full_and_empty_witness :
  let full :=
    Led.mkLed (replicate Led.NUM_LEDS Led.LED_COLOR_OFF)
              F32.one F32.one F32.one F32.one Led.LED_COLOR_GREEN
              false false false Led.LED_COLOR_OFF false Led.LED_COLOR_OFF
              F32.zero Led.LED_COLOR_OFF 0 in
  Led.led_task_frame (fun _ _ _ _ => None) full !! 9%nat
    = Some (Some Led.LED_COLOR_GREEN) /\
  Led.led_task_frame (fun _ _ _ _ => None) Led.led_init !! 7%nat
    = Some (Some 0).
Proof.
  cbv zeta. split.
  - refine (proj1 (bar_frame_full_and_empty (fun _ _ _ _ => None) _ 9
                     _ _ _ _ _ _ _) _ _); try reflexivity.
    unfold Led.NUM_LEDS. lia.
  - refine (proj2 (bar_frame_full_and_empty (fun _ _ _ _ => None)
                     Led.led_init 7 _ _ _ _ _ _ _) _ _); try reflexivity.
    unfold Led.NUM_LEDS. lia.
Defined.

Lemma first_frame_lights_first_led_witness :
  let s :=
    Led.mkLed (replicate Led.NUM_LEDS Led.LED_COLOR_OFF)
              F32.one F32.one F32.half F32.zero Led.LED_COLOR_GREEN
              false false false Led.LED_COLOR_OFF false Led.LED_COLOR_OFF
              F32.zero Led.LED_COLOR_OFF 0 in
  Led.led_task_frame (fun _ _ _ _ => None) s !! 0%nat = Some (Some 0x7F0000) /\
  Led.led_task_frame (fun _ _ _ _ => None) s !! 1%nat = Some (Some 0).
Proof.
  cbv zeta. split.
  - refine (first_frame_lights_first_led (fun _ _ _ _ => None) _ 0
              _ _ _ _ _ _ _ _ _ _ _); try reflexivity.
    unfold Led.NUM_LEDS. lia.
  - refine (first_frame_lights_first_led (fun _ _ _ _ => None) _ 1
              _ _ _ _ _ _ _ _ _ _ _); try reflexivity.
    unfold Led.NUM_LEDS. lia.
Defined.

(** * The piezo tone state *)

Section PiezoTones.

Import Piezo.

Lemma apply_op_consistent (o : op) (p : piezo) :
  consistent p -> consistent (apply_op o p).
Proof.
  intros [H1 H2]. destruct p as [ini pl h]. cbn in H1, H2.
  destruct o as [t c|f t fr d| |]; cbn [apply_op].
  - unfold piezo_init. cbn [piezo_initialized piezo_task_handle].
    destruct ini; [split; assumption|].
    destruct t, c; cbn [negb snd]; try (split; assumption).
    split; cbn; [|auto].
    intros Hs. destruct pl; [|auto]. discriminate (H2 eq_refl).
  - unfold piezo_play_tone, piezo_stop.
    cbn [piezo_initialized piezo_task_handle piezo_playing negb snd].
    destruct ini; cbn [negb snd]; [|split; assumption].
    destruct f; cbn [negb snd piezo_initialized piezo_task_handle
                     piezo_playing].
    + destruct (0 <? d); [destruct t|]; cbn; split; auto;
        intros [x Hx]; discriminate.
    + split; cbn; [intros [x Hx]; discriminate | discriminate].
  - unfold piezo_stop. cbn [piezo_initialized].
    destruct ini; cbn [negb snd]; [|split; assumption].
    split; cbn; [intros [x Hx]; discriminate | discriminate].
  - unfold piezo_task. cbn [piezo_task_handle piezo_initialized].
    destruct h; [|split; assumption].
    split; cbn; [intros [x Hx]; discriminate | discriminate].
Qed.

(** X28. Whatever sequence of [piezo_init], [piezo_play_tone],
    [piezo_stop] and task endings occurs from power-up, with whatever
    driver outcomes, a stop task is pending only while
    [piezo_is_playing] is true, and [piezo_is_playing] is true only once
    the driver is initialised. *)
Theorem piezo_state_consistent (ops : list op) :
  let p := run_ops ops piezo_boot in
  (is_Some (piezo_task_handle p) -> piezo_is_playing p = true) /\
  (piezo_is_playing p = true -> piezo_initialized p = true).
Proof.
  cbv zeta.
  assert (H : forall p, consistent p -> consistent (run_ops ops p)).
  { induction ops as [|o rest IH]; intros p Hp.
    - exact Hp.
    - change (run_ops (o :: rest) p) with (run_ops rest (apply_op o p)).
      apply IH. apply apply_op_consistent. exact Hp. }
  apply (H piezo_boot). split; cbn.
  - intros [x Hx]. discriminate.
  - discriminate.
Qed.

Lemma piezo_state_consistent_witness :
  piezo_is_playing
    (run_ops [Init true true; PlayTone true true 440 200] piezo_boot) = true.
Proof.
  refine (proj1 (piezo_state_consistent
                   [Init true true; PlayTone true true 440 200]) _).
  eexists. reflexivity.
Defined.

(** X29. The error paths of the tone driver. Before a successful
    [piezo_init], [piezo_play_tone] returns -1 and [piezo_stop] returns 0,
    both without touching the state; a failed [piezo_init] returns -1 and
    leaves the driver uninitialised; a second [piezo_init] returns 0
    without touching the state. Once initialised, a [piezo_play_tone]
    whose frequency is refused or whose stop task cannot be created
    returns -1 and leaves the buzzer silent with no task pending, even if
    a tone was playing before. *)
Theorem piezo_error_paths (timer_ok channel_ok freq_ok task_ok : bool)
        (frequency duration_ms : Z) (p : piezo) :
  (piezo_initialized p = false ->
     piezo_play_tone freq_ok task_ok frequency duration_ms p = (-1, p) /\
     piezo_stop p = (0, p) /\
     (timer_ok && channel_ok = false ->
        piezo_init timer_ok channel_ok p = (-1, p))) /\
  (piezo_initialized p = true ->
     piezo_init timer_ok channel_ok p = (0, p) /\
     (freq_ok = false \/ (0 < duration_ms /\ task_ok = false) ->
        piezo_play_tone freq_ok task_ok frequency duration_ms p
          = (-1, mkPiezo true false None))).
Proof.
  destruct p as [ini pl h]. cbn [piezo_initialized].
  split; intros ->.
  - split; [reflexivity|]. split; [reflexivity|].
    unfold piezo_init. cbn [piezo_initialized].
    destruct timer_ok, channel_ok; try reflexivity. discriminate.
  - split; [reflexivity|].
    unfold piezo_play_tone, piezo_stop.
    cbn [piezo_initialized piezo_task_handle piezo_playing negb snd].
    intros [->|[Hd ->]].
    + reflexivity.
    + destruct freq_ok; cbn [negb]; [|reflexivity].
      destruct (Z.ltb_spec 0 duration_ms); [reflexivity | lia].
Qed.

Lemma piezo_error_paths_witness :
  piezo_play_tone true true 1047 100 piezo_boot = (-1, piezo_boot) /\
  piezo_play_tone true false 1047 100 (mkPiezo true true (Some 300))
    = (-1, mkPiezo true false None).
Proof.
  split.
  - refine (proj1 (proj1 (piezo_error_paths true true true true 1047 100
                            piezo_boot) _)). reflexivity.
  - refine (proj2 (proj2 (piezo_error_paths true true true false 1047 100
                            (mkPiezo true true (Some 300))) _) _).
    + reflexivity.
    + right. split; [lia | reflexivity].
Defined.

(** X30. A tone replaces the one before it together with its stop task:
    after a successful [piezo_play_tone] the only pending task is the one
    of the new tone, so a continuous tone (duration 0) started while a
    timed tone was playing is not cut short by the old task and plays
    until [piezo_stop]; a timed tone ends when its own task ends. *)
Theorem piezo_tone_replaces_previous (frequency duration_ms : Z)
        (p : piezo) :
  piezo_initialized p = true ->
  let p' := (piezo_play_tone true true frequency duration_ms p).2 in
  (piezo_play_tone true true frequency duration_ms p).1 = 0 /\
  piezo_is_playing p' = true /\
  (duration_ms <= 0 ->
     piezo_task_handle p' = None /\
     piezo_is_playing (piezo_task p') = true /\
     piezo_is_playing (piezo_stop p').2 = false) /\
  (0 < duration_ms ->
     piezo_task_handle p' = Some duration_ms /\
     piezo_is_playing (piezo_task p') = false).
Proof.
  destruct p as [ini pl h]. cbn [piezo_initialized]. intros ->.
  unfold piezo_play_tone, piezo_stop.
  cbn [piezo_initialized piezo_task_handle piezo_playing negb snd].
  destruct (Z.ltb_spec 0 duration_ms); cbn; repeat split; auto; lia.
Qed.

Lemma piezo_tone_replaces_previous_witness :
  let p := (piezo_play_tone true true 440 200
              (piezo_init true true piezo_boot).2).2 in
  let p' := (piezo_play_tone true true 880 0 p).2 in
  piezo_task_handle p = Some 200 /\
  piezo_task_handle p' = None /\
  piezo_is_playing (piezo_task p') = true.
Proof.
  cbv zeta. split.
  - refine (proj1 (proj2 (proj2 (proj2
      (piezo_tone_replaces_previous 440 200
         (piezo_init true true piezo_boot).2 _))) _)); [reflexivity | lia].
  - pose proof (piezo_tone_replaces_previous 880 0
      (piezo_play_tone true true 440 200
         (piezo_init true true piezo_boot).2).2) as H.
    cbv zeta in H. destruct H as (_ & _ & H & _); [reflexivity|].
    destruct H as (H1 & H2 & _); [lia|]. split; [exact H1 | exact H2].
Defined.

End PiezoTones.

